(** * Rail itinerary search and booking ledger: a shallow embedding

    The development follows the Python sources [rail_network.py],
    [layover_validator.py], [booking_system.py], [database.py],
    [booking_system_v3.py] and, for the traveler and reservation states,
    [booking_state_machine.py].

    Conventions.
    - Python [int] is [Z]; Python [%] with a positive divisor is [Z.modulo].
    - Python [str] is [string]; a character is a code point below 256, so
      that [str.isspace], the regex classes [\s] and [\d] and [str.lower]
      are the tables of the Latin-1 range.
    - Python [float] is IEEE 754 binary64: the values are [spec_float]
      (signed zeros, infinities, NaN and the finite numbers [m * 2^e]),
      [+] is [SFadd 53 1024] (round to nearest, ties to even) and [<] is
      [SFltb], which is false as soon as one operand is NaN.
    - [int(s)] is the value of the digits; CPython's limit of 4300 digits per
      conversion is not modelled, and a statement about every text is made
      for the texts that stay below it.
    - A raised exception is a value of an error type; a method that mutates
      [self] returns the new object next to its result. *)

From Stdlib Require Import ZArith String Ascii List Bool Lia.
From Stdlib Require Import SpecFloat.
From Stdlib Require Import Sorting.Sorted Sorting.Permutation.
From Stdlib Require Import Numbers.DecimalString.
From stdpp Require Import base option gmap strings list fin_maps.

Local Open Scope string_scope.
Local Open Scope Z_scope.
Local Arguments String.append : simpl nomatch.

(** Outcome of a call that may raise. *)
Inductive result (E A : Type) : Type :=
| Ok (a : A)
| Raise (e : E).
Arguments Ok {E A} a.
Arguments Raise {E A} e.

Definition is_ok {E A} (r : result E A) : bool :=
  match r with Ok _ => true | Raise _ => false end.

(* ================================================================== *)
(** * Characters and strings *)
(* ================================================================== *)

Module Str.

Definition code (c : ascii) : N := N_of_ascii c.

(** [\d] on code points below 256: the ten ASCII digits. *)
Definition is_digit (c : ascii) : bool :=
  ((48 <=? code c) && (code c <=? 57))%N.

(** [str.isspace] and [\s] on code points below 256. *)
Definition is_space (c : ascii) : bool :=
  let n := code c in
  (((9 <=? n) && (n <=? 13)) || ((28 <=? n) && (n <=? 32))
   || (n =? 133) || (n =? 160))%N.

(** [str.lower] on one code point below 256. *)
Definition lower_char (c : ascii) : ascii :=
  let n := code c in
  if (((65 <=? n) && (n <=? 90))
      || ((192 <=? n) && (n <=? 222) && negb (n =? 215)))%N
  then ascii_of_N (n + 32) else c.

Fixpoint lower (s : string) : string :=
  match s with
  | EmptyString => EmptyString
  | String c s' => String (lower_char c) (lower s')
  end.

(** [s.startswith(p)] *)
Fixpoint startswith (p s : string) : bool :=
  match p with
  | EmptyString => true
  | String a p' =>
      match s with
      | String b s' => Ascii.eqb a b && startswith p' s'
      | EmptyString => false
      end
  end.

(** [needle in hay] *)
Fixpoint contains (needle hay : string) : bool :=
  startswith needle hay
  || match hay with
     | EmptyString => false
     | String _ hay' => contains needle hay'
     end.

Fixpoint lstrip (s : string) : string :=
  match s with
  | String c s' => if is_space c then lstrip s' else s
  | EmptyString => EmptyString
  end.

Fixpoint rstrip (s : string) : string :=
  match s with
  | EmptyString => EmptyString
  | String c s' =>
      match rstrip s' with
      | EmptyString => if is_space c then EmptyString else String c EmptyString
      | r => String c r
      end
  end.

(** [s.strip()] *)
Definition strip (s : string) : string := rstrip (lstrip s).

Definition digit_val (c : ascii) : Z := Z.of_N (code c) - 48.

Fixpoint int_acc (acc : Z) (s : string) : Z :=
  match s with
  | EmptyString => acc
  | String c s' => int_acc (acc * 10 + digit_val c) s'
  end.

(** [int(s)] for a string of decimal digits. *)
Definition int_of_digits (s : string) : Z := int_acc 0 s.

(** Python truthiness of a string and of an optional string. *)
Definition nonempty (s : string) : bool :=
  match s with EmptyString => false | _ => true end.

Definition truthy (o : option string) : bool :=
  match o with Some s => nonempty s | None => false end.

(** [f"{z}"] for an integer. *)
Definition show_Z (z : Z) : string := NilEmpty.string_of_int (Z.to_int z).

Definition all_chars (p : ascii -> bool) (s : string) : bool :=
  forallb p (list_ascii_of_string s).

Definition any_char (p : ascii -> bool) (s : string) : bool :=
  existsb p (list_ascii_of_string s).

(** [f"{n:02d}"]: at least two characters, padded with a zero on the left. *)
Definition format_02d (n : Z) : string :=
  let s := show_Z n in
  if (String.length s <? 2)%nat then "0" +:+ s else s.

End Str.

(* ================================================================== *)
(** * Time helpers ([rail_network.py]) *)
(* ================================================================== *)

Module TimeModel.
Import Str.

(** ** The three regular expressions of [parse_time_to_minutes] *)

(** [\s*]: the remainder after the longest run of white space. *)
Fixpoint skip_spaces (s : string) : string :=
  match s with
  | String c s' => if is_space c then skip_spaces s' else s
  | EmptyString => EmptyString
  end.

(** [\d*], greedy: the longest digit prefix and the remainder. *)
Fixpoint span_digits (s : string) : string * string :=
  match s with
  | String c s' =>
      if is_digit c
      then let '(ds, r) := span_digits s' in (String c ds, r)
      else (EmptyString, s)
  | EmptyString => (EmptyString, EmptyString)
  end.

Definition expect (c : ascii) (s : string) : option string :=
  match s with
  | String c' s' => if Ascii.eqb c c' then Some s' else None
  | EmptyString => None
  end.

(** The pattern [\(\s*\+(\d+)\s*d\s*\)] anchored at the head of [s]:
    group 1 and the text after the match.  Every quantified class is
    followed by a character outside it, so the greedy choice is the only
    one that can succeed. *)
Definition offset_marker_at (s : string) : option (string * string) :=
  s1 ← expect "(" s;
  s2 ← expect "+" (skip_spaces s1);
  let '(ds, s3) := span_digits s2 in
  if nonempty ds then
    s4 ← expect "d" (skip_spaces s3);
    s5 ← expect ")" (skip_spaces s4);
    Some (ds, s5)
  else None.

(** [re.search(marker, s)]: group 1 of the leftmost match. *)
Fixpoint search_offset_marker (s : string) : option string :=
  match offset_marker_at s with
  | Some (ds, _) => Some ds
  | None =>
      match s with
      | String _ s' => search_offset_marker s'
      | EmptyString => None
      end
  end.

(** [re.sub(marker, "", s)]: every non-overlapping match, leftmost first,
    is deleted.  A match is never empty, so [fuel] steps suffice when
    [fuel] is the length of [s]. *)
Fixpoint sub_offset_markers_fuel (fuel : nat) (s : string) : string :=
  match fuel with
  | O => s
  | S fuel' =>
      match offset_marker_at s with
      | Some (_, rest) => sub_offset_markers_fuel fuel' rest
      | None =>
          match s with
          | String c s' => String c (sub_offset_markers_fuel fuel' s')
          | EmptyString => EmptyString
          end
      end
  end.

Definition sub_offset_markers (s : string) : string :=
  sub_offset_markers_fuel (String.length s) s.

(** [\d{1,2}], greedy.  Giving back the second digit never helps below:
    the next pattern item is [:] or [$]. *)
Definition digits_1_2 (s : string) : option (string * string) :=
  match s with
  | String a s1 =>
      if is_digit a then
        match s1 with
        | String b s2 =>
            if is_digit b then Some (String a (String b EmptyString), s2)
            else Some (String a EmptyString, s1)
        | EmptyString => Some (String a EmptyString, EmptyString)
        end
      else None
  | EmptyString => None
  end.

(** [$]: the end of the string, or just before a final newline. *)
Definition at_end (s : string) : bool :=
  match s with
  | EmptyString => true
  | String c EmptyString => Ascii.eqb c "010"
  | _ => false
  end.

(** [re.match(r"^(\d{1,2})(?::(\d{1,2}))?$", s)]: groups 1 and 2. *)
Definition match_clock (s : string) : option (string * option string) :=
  match digits_1_2 s with
  | None => None
  | Some (h, r) =>
      let without := if at_end r then Some (h, None) else None in
      match expect ":" r with
      | Some r1 =>
          match digits_1_2 r1 with
          | Some (m, r2) => if at_end r2 then Some (h, Some m) else without
          | None => without
          end
      | None => without
      end
  end.

Definition starts_with_digit (s : string) : bool :=
  match s with String c _ => is_digit c | EmptyString => false end.

(** [re.findall(r"\d+", s)]: the maximal digit runs, left to right. *)
Fixpoint findall_digits (s : string) : list string :=
  match s with
  | EmptyString => []
  | String c s' =>
      if is_digit c then
        if starts_with_digit s' then
          match findall_digits s' with
          | t :: ts => String c t :: ts
          | [] => [String c EmptyString]
          end
        else String c EmptyString :: findall_digits s'
      else findall_digits s'
  end.

Inductive time_error : Type :=
| TimeIsNone
| UnrecognizedTimeFormat (t : string).

(** [parse_time_to_minutes] *)
Definition parse_time_to_minutes (t : option string) : result time_error Z :=
  match t with
  | None => Raise TimeIsNone
  | Some t =>
      let s := strip t in
      let '(day_offset, s) :=
        match search_offset_marker s with
        | Some ds => (int_of_digits ds, strip (sub_offset_markers s))
        | None => (0, s)
        end in
      match match_clock s with
      | None =>
          match findall_digits s with
          | [] => Raise (UnrecognizedTimeFormat t)
          | h :: rest =>
              let mnt := match rest with m :: _ => int_of_digits m | [] => 0 end in
              Ok (int_of_digits h * 60 + mnt + day_offset * 24 * 60)
          end
      | Some (h, om) =>
          let mnt := match om with Some m => int_of_digits m | None => 0 end in
          Ok (int_of_digits h * 60 + mnt + day_offset * 24 * 60)
      end
  end.

(** [minutes_to_hhmm], as the pair (hours, minutes) it prints. *)
Definition minutes_to_hhmm (minutes : Z) : Z * Z :=
  let minutes := minutes mod (24 * 60) in
  (minutes / 60, minutes mod 60).

(** [duration_minutes] *)
Definition duration_minutes (dep_min arr_min : Z) : Z :=
  if arr_min >=? dep_min then arr_min - dep_min
  else (arr_min + 24 * 60) - dep_min.

(** [minutes_to_hhmm], as the text it returns. *)
Definition minutes_to_hhmm_str (minutes : Z) : string :=
  let minutes := minutes mod (24 * 60) in
  let h := minutes / 60 in
  let m := minutes mod 60 in
  format_02d h +:+ ":" +:+ format_02d m.

End TimeModel.

(* ================================================================== *)
(** * Layover policy ([layover_validator.py]) *)
(* ================================================================== *)

Module LayoverValidator.
Import Str.

Definition DAY_START : Z := 6 * 60.
Definition DAY_END : Z := 22 * 60.
Definition DAYTIME_MIN : Z := 15.
Definition DAYTIME_MAX : Z := 120.
Definition NIGHT_MIN : Z := 15.
Definition NIGHT_MAX : Z := 30.

(** The gap computed at the head of [is_layover_acceptable]. *)
Definition layover_gap (arrival_minutes departure_minutes : Z) : Z :=
  if departure_minutes >=? arrival_minutes
  then departure_minutes - arrival_minutes
  else (24 * 60 - arrival_minutes) + departure_minutes.

Definition is_daytime (arrival_minutes : Z) : bool :=
  let arrival_time_of_day := arrival_minutes mod (24 * 60) in
  (DAY_START <=? arrival_time_of_day) && (arrival_time_of_day <? DAY_END).

(** The limits selected by the policy text: (min_gap, max_gap). *)
Definition limits (policy : string) (daytime : bool) : Z * Z :=
  if String.eqb policy "lenient"
  then (DAYTIME_MIN, if daytime then 180 else NIGHT_MAX)
  else if daytime then (DAYTIME_MIN, DAYTIME_MAX) else (NIGHT_MIN, NIGHT_MAX).

(** [LayoverValidator.is_layover_acceptable] *)
Definition is_layover_acceptable
    (arrival_minutes departure_minutes : Z) (policy : string) : bool * string :=
  let gap := layover_gap arrival_minutes departure_minutes in
  let daytime := is_daytime arrival_minutes in
  let '(min_gap, max_gap) := limits policy daytime in
  if gap <? min_gap then
    (false, "Layover too short: " +:+ show_Z gap +:+ " min (min: "
              +:+ show_Z min_gap +:+ " min)")
  else if gap >? max_gap then
    let time_context := if daytime then "daytime" else "after-hours" in
    (false, "Layover too long: " +:+ show_Z gap +:+ " min (max: "
              +:+ show_Z max_gap +:+ " min for " +:+ time_context +:+ ")")
  else (true, "OK").

(** [LayoverValidator.validate_multi_stop_connection]; [i] counts the
    transfer points already passed. *)
Fixpoint validate_from (i : Z) (leg_times : list (Z * Z)) (policy : string)
  : bool * string :=
  match leg_times with
  | [] => (true, "OK")
  | (arr_min, dep_min) :: rest =>
      let '(is_valid, reason) := is_layover_acceptable arr_min dep_min policy in
      if negb is_valid
      then (false, "Transfer " +:+ show_Z (i + 1) +:+ ": " +:+ reason)
      else validate_from (i + 1) rest policy
  end.

Definition validate_multi_stop_connection
    (leg_times : list (Z * Z)) (policy : string) : bool * string :=
  validate_from 0 leg_times policy.

End LayoverValidator.

(* ================================================================== *)
(** * Routes, legs and itineraries ([rail_network.py]) *)
(* ================================================================== *)

(** Python [float]. *)
Definition float : Type := spec_float.

(** [x + y] on floats. *)
Definition float_add (x y : float) : float := SFadd 53 1024 x y.

(** [x < y] on floats. *)
Definition float_lt (x y : float) : bool := SFltb x y.

(** The float [0.0], the start value of [Itinerary.price]. *)
Definition float_zero : float := S754_zero false.

(** The float that a whole number denotes, [float(z)]. *)
Definition float_of_Z (z : Z) : float := binary_normalize 53 1024 z 0 false.

Record TrainRoute : Type := {
  route_id : string;
  departure_city : string;
  arrival_city : string;
  departure_time : string;
  arrival_time : string;
  train_type : string;
  days_of_operation : string;
  first_class_rate : float;
  second_class_rate : float;
  dep_min : Z;
  arr_min : Z;
  duration_min : Z
}.

(** The constructor with its [__post_init__]. *)
Definition new_TrainRoute
    (route_id departure_city arrival_city departure_time arrival_time
     train_type days_of_operation : string)
    (first_class_rate second_class_rate : float)
  : result TimeModel.time_error TrainRoute :=
  match TimeModel.parse_time_to_minutes (Some departure_time) with
  | Raise e => Raise e
  | Ok dep =>
      match TimeModel.parse_time_to_minutes (Some arrival_time) with
      | Raise e => Raise e
      | Ok arr =>
          Ok {| route_id := route_id;
                departure_city := departure_city;
                arrival_city := arrival_city;
                departure_time := departure_time;
                arrival_time := arrival_time;
                train_type := train_type;
                days_of_operation := days_of_operation;
                first_class_rate := first_class_rate;
                second_class_rate := second_class_rate;
                dep_min := dep;
                arr_min := arr;
                duration_min := TimeModel.duration_minutes dep arr |}
      end
  end.

Record Leg : Type := { route : TrainRoute }.

Record Itinerary : Type := { legs : list Leg }.

Module Itin.
Import Str.

(** [enumerate(l)] *)
Definition enumerate {A} (l : list A) : list (nat * A) :=
  combine (seq 0 (length l)) l.

(** [Itinerary.total_travel_minutes]; the read [self.legs[i-1]] is in
    range whenever [i > 0]. *)
Definition total_travel_minutes (it : Itinerary) : Z :=
  fold_left
    (fun total '(i, leg) =>
       let total := total + duration_min (route leg) in
       if (0 <? i)%nat then
         match legs it !! (i - 1)%nat with
         | Some prev =>
             let prev_arr := arr_min (route prev) in
             let this_dep := dep_min (route leg) in
             total + TimeModel.duration_minutes prev_arr this_dep
         | None => total
         end
       else total)
    (enumerate (legs it)) 0.

(** [Itinerary.displayed_transfer_minutes] *)
Definition displayed_transfer_minutes (it : Itinerary) : Z :=
  fold_left
    (fun tr i =>
       match legs it !! (i - 1)%nat, legs it !! i with
       | Some prev, Some this =>
           tr + TimeModel.duration_minutes (arr_min (route prev)) (dep_min (route this))
       | _, _ => tr
       end)
    (seq 1 (length (legs it) - 1)) 0.

(** [Itinerary.price] *)
Definition price (it : Itinerary) (travel_class : string) : float :=
  fold_left
    (fun total leg =>
       if startswith "first" (lower travel_class)
       then float_add total (first_class_rate (route leg))
       else float_add total (second_class_rate (route leg)))
    (legs it) float_zero.

(** The deduplication key of [search]: the tuple of route ids. *)
Definition legs_key (it : Itinerary) : list string :=
  map (fun leg => route_id (route leg)) (legs it).

(** Adjacent leg pairs, in order. *)
Fixpoint adjacent {A} (l : list A) : list (A * A) :=
  match l with
  | a :: (b :: _) as rest => (a, b) :: adjacent rest
  | _ => []
  end.

(** [Itinerary.origin]: [self.legs[0]] raises on an itinerary without legs
    ([None]). *)
Definition origin (it : Itinerary) : option string :=
  match legs it with
  | leg :: _ => Some (departure_city (route leg))
  | [] => None
  end.

(** [Itinerary.destination]: [self.legs[-1]] raises on an itinerary without
    legs ([None]). *)
Definition destination (it : Itinerary) : option string :=
  match last (legs it) with
  | Some leg => Some (arrival_city (route leg))
  | None => None
  end.

(** The ["stops"] entry of [to_row]: [max(0, len(self.legs) - 1)]. *)
Definition stops (it : Itinerary) : Z :=
  Z.max 0 (Z.of_nat (length (legs it)) - 1).

End Itin.

(* ================================================================== *)
(** * Sorting *)
(* ================================================================== *)

(** [list.sort(key=...)] is a stable comparison sort that only asks [<]
    of the keys.  For keys ordered by a strict weak order the stable sorted
    arrangement is unique; inserting from the right computes it.  Float keys
    are so ordered as long as none is NaN.  With a NaN key the arrangement
    depends on the algorithm: the general statements below are made for
    keys without NaN, and the one list with a NaN key that is sorted below,
    with the keys 2.0, NaN, 1.0, has no key smaller than the key before it,
    so that [list.sort] takes it for one ascending run and leaves it as it
    is, as the insertion does. *)
Section StableSort.
Context {A K : Type} (ltb : K -> K -> bool) (key : A -> K).

Fixpoint insert_key (x : A) (l : list A) : list A :=
  match l with
  | [] => [x]
  | y :: l' => if ltb (key y) (key x) then y :: insert_key x l' else x :: l
  end.

Fixpoint sort_key (l : list A) : list A :=
  match l with
  | [] => []
  | x :: l' => insert_key x (sort_key l')
  end.

(** [a] may stand right before [b] in ascending order. *)
Definition key_le (a b : A) : Prop := ltb (key b) (key a) = false.

(** The keys of [x] and [k] tie. *)
Definition ties (k : K) (x : A) : bool :=
negb (ltb (key x) k) && negb (ltb k (key x)).
End StableSort.

(* ================================================================== *)
(** * The schedule and the search ([RailNetwork]) *)
(* ================================================================== *)

Module RailNetwork.
Import Str.

Record t : Type := {
  routes : list TrainRoute;
  index_by_origin : gmap string (list TrainRoute)
}.

(** [__init__]: [setdefault(key, []).append(r)] for every route. *)
Definition build_index (routes : list TrainRoute) : gmap string (list TrainRoute) :=
  fold_left
    (fun idx r =>
       let k := lower (departure_city r) in
       <[k := (default [] (idx !! k) ++ [r])%list]> idx)
    routes ∅.

Definition new (routes : list TrainRoute) : t :=
  {| routes := routes; index_by_origin := build_index routes |}.

Definition type_of_route (r : TrainRoute) : string := train_type r.

(** [_match] *)
Definition _match (r : TrainRoute)
    (dep_city arr_city train_type day_contains : option string) : bool :=
  if truthy dep_city
     && negb (String.eqb (lower (departure_city r)) (lower (default "" dep_city)))
  then false
  else if truthy arr_city
     && negb (String.eqb (lower (arrival_city r)) (lower (default "" arr_city)))
  then false
  else if truthy train_type
     && negb (String.eqb (lower (type_of_route r)) (lower (default "" train_type)))
  then false
  else if truthy day_contains
     && negb (contains (lower (default "" day_contains)) (lower (days_of_operation r)))
  then false
  else true.

(** [_transfer_gap_ok] *)
Definition _transfer_gap_ok (r_prev r_next : TrainRoute) (min_transfer_minutes : Z) : bool :=
  let gap := dep_min r_next - arr_min r_prev in
  let gap := if gap <? 0 then gap + 24 * 60 else gap in
  gap >=? min_transfer_minutes.

(** [self.index_by_origin.get(city.lower(), [])] *)
Definition departing (net : t) (city : string) : list TrainRoute :=
  default [] (index_by_origin net !! lower city).

Definition itinerary_of (rs : list TrainRoute) : Itinerary :=
  {| legs := map (fun r => {| route := r |}) rs |}.

(** [_build_one_stop] *)
Definition _build_one_stop (net : t)
    (dep_city arr_city train_type day_contains : option string)
    (min_transfer_minutes : Z) : list Itinerary :=
  let dep_routes :=
    filter (fun r => Is_true (_match r dep_city None train_type day_contains))
           (routes net) in
  flat_map
    (fun r1 =>
       let mid := arrival_city r1 in
       flat_map
         (fun r2 =>
            if negb (_match r2 (Some mid) arr_city train_type day_contains) then []
            else if _transfer_gap_ok r1 r2 min_transfer_minutes
                 then [itinerary_of [r1; r2]]
                 else [])
         (departing net mid))
    dep_routes.

(** [_build_two_stops] *)
Definition _build_two_stops (net : t)
    (dep_city arr_city train_type day_contains : option string)
    (min_transfer_minutes : Z) : list Itinerary :=
  let dep_routes :=
    filter (fun r => Is_true (_match r dep_city None train_type day_contains))
           (routes net) in
  flat_map
    (fun r1 =>
       let mid1 := arrival_city r1 in
       flat_map
         (fun r2 =>
            if negb (_match r2 (Some mid1) None train_type day_contains) then []
            else if negb (_transfer_gap_ok r1 r2 min_transfer_minutes) then []
            else
              let mid2 := arrival_city r2 in
              flat_map
                (fun r3 =>
                   if negb (_match r3 (Some mid2) arr_city train_type day_contains) then []
                   else if _transfer_gap_ok r2 r3 min_transfer_minutes
                        then [itinerary_of [r1; r2; r3]]
                        else [])
                (departing net mid2))
         (departing net mid1))
    dep_routes.

(** The first loop of [search]: one single-leg itinerary per matching route. *)
Definition direct (net : t)
    (departure_city arrival_city train_type day_contains : option string)
  : list Itinerary :=
  flat_map
    (fun r =>
       if negb (_match r departure_city arrival_city train_type day_contains) then []
       else [itinerary_of [r]])
    (routes net).

(** Everything [search] appends to [results] before deduplication. *)
Definition candidates (net : t)
    (departure_city arrival_city train_type day_contains : option string)
    (max_stops min_transfer_minutes : Z) : list Itinerary :=
  let results := direct net departure_city arrival_city train_type day_contains in
  let results :=
    if (max_stops >=? 1) && truthy departure_city && truthy arrival_city
    then (results ++ _build_one_stop net departure_city arrival_city train_type
                                     day_contains min_transfer_minutes)%list
    else results in
  let results :=
    if (max_stops >=? 2) && truthy departure_city && truthy arrival_city
    then (results ++ _build_two_stops net departure_city arrival_city train_type
                                      day_contains min_transfer_minutes)%list
    else results in
  results.

(** The [seen]/[unique] loop of [search]. *)
Definition dedup_step (st : gset (list string) * list Itinerary) (it : Itinerary)
  : gset (list string) * list Itinerary :=
  let '(seen, unique) := st in
  let k := Itin.legs_key it in
  if decide (k ∈ seen) then (seen, unique)
  else ({[k]} ∪ seen, (unique ++ [it])%list).

Definition dedup (results : list Itinerary) : list Itinerary :=
  snd (fold_left dedup_step results (∅, [])).

(** [search] *)
Definition search (net : t)
    (departure_city arrival_city train_type day_contains : option string)
    (max_stops min_transfer_minutes : Z)
    (travel_class sort_by : string) : list Itinerary :=
  let results :=
    candidates net departure_city arrival_city train_type day_contains
               max_stops min_transfer_minutes in
  let unique := dedup results in
  if String.eqb sort_by "price"
  then sort_key float_lt (fun it => Itin.price it travel_class) unique
  else sort_key Z.ltb Itin.total_travel_minutes unique.

(** The pattern of [norm_time], the helper of [from_csv]:
    [^\s*(\d{1,2})(?::(\d{1,2}))?(\s*\(\s*\+\d+\s*d\s*\))?\s*$]. *)

(** [\s*], greedy: the blanks at the head of [s] and the remainder. *)
Fixpoint span_spaces (s : string) : string * string :=
  match s with
  | String c s' =>
      if is_space c
      then let '(sp, r) := span_spaces s' in (String c sp, r)
      else (EmptyString, s)
  | EmptyString => (EmptyString, EmptyString)
  end.

(** Group 3, [\s*\(\s*\+\d+\s*d\s*\)], anchored at the head of [s]: the text
    it matches and the text after it.  As in the marker of
    [parse_time_to_minutes], every quantified class is followed by a
    character outside it. *)
Definition offset_group_at (s : string) : option (string * string) :=
  let '(sp0, s0) := span_spaces s in
  s1 ← TimeModel.expect "(" s0;
  let '(sp1, s1) := span_spaces s1 in
  s2 ← TimeModel.expect "+" s1;
  let '(ds, s3) := TimeModel.span_digits s2 in
  if nonempty ds then
    let '(sp2, s3) := span_spaces s3 in
    s4 ← TimeModel.expect "d" s3;
    let '(sp3, s4) := span_spaces s4 in
    s5 ← TimeModel.expect ")" s4;
    Some (sp0 +:+ "(" +:+ sp1 +:+ "+" +:+ ds +:+ sp2 +:+ "d" +:+ sp3 +:+ ")", s5)
  else None.

(** The end of the pattern, [(group 3)?\s*$]: the text of group 3, empty
    when the group takes no part in the match. *)
Definition match_norm_tail (r : string) : option string :=
  let plain := if nonempty (TimeModel.skip_spaces r) then None else Some "" in
  match offset_group_at r with
  | Some (off, r') => if nonempty (TimeModel.skip_spaces r') then plain else Some off
  | None => plain
  end.

(** [re.match] of the whole pattern: groups 1, 2 and 3. *)
Definition match_norm (s : string) : option (string * option string * string) :=
  match TimeModel.digits_1_2 (TimeModel.skip_spaces s) with
  | None => None
  | Some (h, r) =>
      let without :=
        match match_norm_tail r with
        | Some off => Some (h, None, off)
        | None => None
        end in
      match TimeModel.expect ":" r with
      | Some r1 =>
          match TimeModel.digits_1_2 r1 with
          | Some (m, r2) =>
              match match_norm_tail r2 with
              | Some off => Some (h, Some m, off)
              | None => without
              end
          | None => without
          end
      | None => without
      end
  end.

(** [norm_time], nested in [from_csv]. *)
Definition norm_time (x : option string) : string :=
  match x with
  | None => ""
  | Some x =>
      let s := strip x in
      match match_norm s with
      | Some (h, m, off) =>
          let mm := match m with Some m => m | None => "00" end in
          format_02d (int_of_digits h) +:+ ":" +:+ format_02d (int_of_digits mm) +:+ off
      | None => s
      end
  end.

End RailNetwork.

(** The schedule of [TestRailNetworkWithLayover] in [test_iteration3.py]. *)
Definition unwrap_route (r : result TimeModel.time_error TrainRoute) : list TrainRoute :=
  match r with Ok x => [x] | Raise _ => [] end.

Definition layover_test_routes : list TrainRoute :=
  (unwrap_route (new_TrainRoute "R001" "Paris" "Berlin" "08:30" "16:45" "ICE" "Daily" (float_of_Z 150) (float_of_Z 89))
  ++ unwrap_route (new_TrainRoute "R002" "Paris" "Frankfurt" "08:00" "12:00" "ICE" "Daily" (float_of_Z 100) (float_of_Z 60))
  ++ unwrap_route (new_TrainRoute "R003" "Frankfurt" "Berlin" "13:00" "17:00" "ICE" "Daily" (float_of_Z 80) (float_of_Z 50))
  ++ unwrap_route (new_TrainRoute "R004" "Paris" "Munich" "09:00" "14:00" "ICE" "Daily" (float_of_Z 120) (float_of_Z 70))
  ++ unwrap_route (new_TrainRoute "R005" "Munich" "Berlin" "17:00" "21:00" "ICE" "Daily" (float_of_Z 90) (float_of_Z 55)))%list.

Definition layover_test_network : RailNetwork.t := RailNetwork.new layover_test_routes.

(* ================================================================== *)
(** * The in-memory booking ledger ([booking_system.py]) *)
(* ================================================================== *)

Module Booking.
Import Str.

(** The error kinds; every one is a [ValueError] in the source, told apart
    by its message, except [KeyError] (a failed [self.trips[trip_id]]). *)
Inductive invalid_rule : Type :=
| NegativeAge (age : Z)      (* "Invalid age: {age}" *)
| EmptyName                  (* "Names cannot be empty" *)
| EmptyIdNumber.             (* "ID number cannot be empty" *)

Inductive booking_error : Type :=
| EmptyBooking                                   (* "At least one traveler required" *)
| InvalidTraveler (rule : invalid_rule)
| DuplicateTravelerInBooking (first last : string) (* "Duplicate client in booking: ..." *)
| AlreadyBooked (first last : string)  (* "Client ... already has a reservation for this connection" *)
| TicketClientMismatch
| TripIdRequired
| TripWithoutReservation
| KeyError (trip_id : string).

Record Client : Type := {
  first_name : string;
  last_name : string;
  id_number : string;
  age : Z
}.

(** [Client(...)] with its [__post_init__]. *)
Definition new_Client (first last id_num : string) (age : Z)
  : result booking_error Client :=
  if age <? 0 then Raise (InvalidTraveler (NegativeAge age))
  else if negb (nonempty first) || negb (nonempty last)
  then Raise (InvalidTraveler EmptyName)
  else if negb (nonempty id_num) then Raise (InvalidTraveler EmptyIdNumber)
  else Ok {| first_name := first; last_name := last;
             id_number := id_num; age := age |}.

(** The pair hashed by [Client.__hash__] and compared by [Client.__eq__]. *)
Definition client_key (c : Client) : string * string :=
  (lower (last_name c), id_number c).

(** [Client.__eq__] *)
Definition client_eqb (c1 c2 : Client) : bool :=
  String.eqb (lower (last_name c1)) (lower (last_name c2))
  && String.eqb (id_number c1) (id_number c2).

Record Ticket : Type := {
  ticket_id : Z;
  ticket_client : Client;
  ticket_connection : Itinerary;
  issue_timestamp : Z
}.

Record Reservation : Type := {
  client : Client;
  ticket : Ticket
}.

(** [Reservation(...)] with its [__post_init__]. *)
Definition new_Reservation (c : Client) (tk : Ticket)
  : result booking_error Reservation :=
  if negb (client_eqb (ticket_client tk) c) then Raise TicketClientMismatch
  else Ok {| client := c; ticket := tk |}.

Record Trip : Type := {
  trip_id : string;
  connection : Itinerary;
  reservations : list Reservation;
  booking_timestamp : Z
}.

(** [Trip(...)] with its [__post_init__].  Its last check compares the
    connection of every ticket with the trip's; [book_trip] passes one and
    the same object to both, so that comparison succeeds by identity. *)
Definition new_Trip (trip_id : string) (connection : Itinerary)
    (reservations : list Reservation) (booking_timestamp : Z)
  : result booking_error Trip :=
  if negb (nonempty trip_id) then Raise TripIdRequired
  else match reservations with
       | [] => Raise TripWithoutReservation
       | _ =>
           Ok {| trip_id := trip_id; connection := connection;
                 reservations := reservations;
                 booking_timestamp := booking_timestamp |}
       end.

Definition get_clients (trip : Trip) : list Client :=
  map client (reservations trip).

(** What a call reads from outside the program: the hexadecimal text
    returned by [secrets.token_hex(4)], the successive readings of the clock
    in whole seconds, and the successive values of
    [secrets.randbelow(100000)]. *)
Record Env : Type := {
  token_hex : string;
  clock : nat -> Z;
  randbelow : nat -> Z
}.

(** [str.upper] on a hexadecimal text. *)
Definition upper_char (c : ascii) : ascii :=
  let n := code c in
  if ((97 <=? n) && (n <=? 122))%N then ascii_of_N (n - 32) else c.

Fixpoint upper (s : string) : string :=
  match s with
  | EmptyString => EmptyString
  | String c s' => String (upper_char c) (upper s')
  end.

(** [generate_trip_id] *)
Definition generate_trip_id (env : Env) : string :=
  "TRP-" +:+ upper (token_hex env).

(** [generate_ticket_id], on the [i]-th traveler of a call: the clock is
    read twice per traveler, first here and then for [issue_timestamp]. *)
Definition generate_ticket_id (env : Env) (i : nat) : Z :=
  let timestamp_part := clock env (2 * i)%nat in
  let random_part := randbelow env i in
  timestamp_part * 100000 + random_part.

(** The ledger: [self.trips], [self.client_trips_index] and [self.clients].
    A Python set of [Client] objects holds at most one object per identity
    key and keeps the one that came first: a map from the key to it. *)
Record BookingSystem : Type := {
  trips : gmap string Trip;
  client_trips_index : gmap (string * string) (gset string);
  clients : gmap (string * string) Client
}.

(** [BookingSystem()] *)
Definition new_BookingSystem : BookingSystem :=
  {| trips := ∅; client_trips_index := ∅; clients := ∅ |}.

(** [self.clients.add(client)] *)
Definition clients_add (c : Client) (m : gmap (string * string) Client)
  : gmap (string * string) Client :=
  match m !! client_key c with
  | Some _ => m
  | None => <[client_key c := c]> m
  end.

(** [_connections_equal] *)
Fixpoint zip_route_ids_equal (l1 l2 : list Leg) : bool :=
  match l1, l2 with
  | leg1 :: r1, leg2 :: r2 =>
      if negb (String.eqb (route_id (route leg1)) (route_id (route leg2)))
      then false
      else zip_route_ids_equal r1 r2
  | _, _ => true
  end.

Definition _connections_equal (conn1 conn2 : Itinerary) : bool :=
  if negb (length (legs conn1) =? length (legs conn2))%nat then false
  else zip_route_ids_equal (legs conn1) (legs conn2).

(** [_has_booking_for_connection].  The source walks a Python set, whose
    order is unspecified; the walk here follows [elements].  The order only
    matters when an indexed trip id is missing from [self.trips]. *)
Fixpoint scan_trip_ids (trips : gmap string Trip) (trip_ids : list string)
    (connection : Itinerary) : result booking_error bool :=
  match trip_ids with
  | [] => Ok false
  | trip_id :: rest =>
      match trips !! trip_id with
      | None => Raise (KeyError trip_id)
      | Some trip =>
          if _connections_equal (Booking.connection trip) connection then Ok true
          else scan_trip_ids trips rest connection
      end
  end.

Definition _has_booking_for_connection (bs : BookingSystem)
    (c : Client) (connection : Itinerary) : result booking_error bool :=
  let key := (lower (last_name c), id_number c) in
  let trip_ids := default ∅ (client_trips_index bs !! key) in
  scan_trip_ids (trips bs) (elements trip_ids) connection.

Definition traveler : Type := string * string * string * Z.

(** The first loop of [book_trip]: it builds [clients] and [seen] and
    registers every accepted client in [self.clients] as it goes. *)
Fixpoint parse_travelers (travelers : list traveler)
    (seen : gset (string * string)) (acc : list Client)
    (registry : gmap (string * string) Client)
  : gmap (string * string) Client * result booking_error (list Client) :=
  match travelers with
  | [] => (registry, Ok acc)
  | (first, last, id_num, age) :: rest =>
      match new_Client first last id_num age with
      | Raise e => (registry, Raise e)
      | Ok c =>
          if decide (client_key c ∈ seen)
          then (registry,
                Raise (DuplicateTravelerInBooking (first_name c) (last_name c)))
          else parse_travelers rest ({[client_key c]} ∪ seen)
                               (acc ++ [c])%list (clients_add c registry)
      end
  end.

(** The second loop: the first client that already holds the connection. *)
Fixpoint check_not_booked (bs : BookingSystem) (cs : list Client)
    (connection : Itinerary) : result booking_error unit :=
  match cs with
  | [] => Ok tt
  | c :: rest =>
      match _has_booking_for_connection bs c connection with
      | Raise e => Raise e
      | Ok true => Raise (AlreadyBooked (first_name c) (last_name c))
      | Ok false => check_not_booked bs rest connection
      end
  end.

(** The third loop: one ticket and one reservation per client. *)
Fixpoint make_reservations (env : Env) (connection : Itinerary)
    (i : nat) (cs : list Client) : result booking_error (list Reservation) :=
  match cs with
  | [] => Ok []
  | c :: rest =>
      let ticket_id := generate_ticket_id env i in
      let tk := {| ticket_id := ticket_id; ticket_client := c;
                   ticket_connection := connection;
                   issue_timestamp := clock env (2 * i + 1)%nat |} in
      match new_Reservation c tk with
      | Raise e => Raise e
      | Ok reservation =>
          match make_reservations env connection (S i) rest with
          | Raise e => Raise e
          | Ok more => Ok (reservation :: more)
          end
      end
  end.

(** The last loop: [setdefault(key, set()).add(trip_id)] per client. *)
Definition index_add (trip_id : string)
    (idx : gmap (string * string) (gset string)) (c : Client)
  : gmap (string * string) (gset string) :=
  let key := (lower (last_name c), id_number c) in
  <[key := {[trip_id]} ∪ default ∅ (idx !! key)]> idx.

(** [book_trip]: the ledger after the call and what the call returned or
    raised. *)
Definition book_trip (env : Env) (bs : BookingSystem)
    (connection : Itinerary) (travelers : list traveler)
  : BookingSystem * result booking_error Trip :=
  match travelers with
  | [] => (bs, Raise EmptyBooking)
  | _ =>
      let '(registry, parsed) := parse_travelers travelers ∅ [] (clients bs) in
      let bs := {| trips := trips bs;
                   client_trips_index := client_trips_index bs;
                   clients := registry |} in
      match parsed with
      | Raise e => (bs, Raise e)
      | Ok cs =>
          match check_not_booked bs cs connection with
          | Raise e => (bs, Raise e)
          | Ok _ =>
              let trip_id := generate_trip_id env in
              match make_reservations env connection 0 cs with
              | Raise e => (bs, Raise e)
              | Ok reservations =>
                  match new_Trip trip_id connection reservations
                                 (clock env (2 * length cs)%nat) with
                  | Raise e => (bs, Raise e)
                  | Ok trip =>
                      ({| trips := <[trip_id := trip]> (trips bs);
                          client_trips_index :=
                            fold_left (index_add trip_id) cs (client_trips_index bs);
                          clients := clients bs |},
                       Ok trip)
                  end
              end
          end
      end
  end.

(** Every ticket id held by the ledger. *)
Definition ledger_ticket_ids (bs : BookingSystem) : list Z :=
  flat_map (fun '(_, trip) => map (fun r => ticket_id (ticket r)) (reservations trip))
           (map_to_list (trips bs)).

(** [Trip.total_travelers] *)
Definition total_travelers (trip : Trip) : nat := length (reservations trip).

(** [Trip.is_past]: [day_of] gives the calendar day of a clock reading,
    [reference_date] is a calendar day. *)
Definition is_past (day_of : Z -> Z) (trip : Trip) (reference_date : Z) : bool :=
  day_of (booking_timestamp trip) <? reference_date.

(** The loop of [get_trips_by_client] over the trip ids of the client. *)
Fixpoint split_trips (day_of : Z -> Z) (today : Z) (trips : gmap string Trip)
    (trip_ids : list string) (current_trips past_trips : list Trip)
  : result booking_error (list Trip * list Trip) :=
  match trip_ids with
  | [] => Ok (current_trips, past_trips)
  | trip_id :: rest =>
      match trips !! trip_id with
      | None => Raise (KeyError trip_id)
      | Some trip =>
          if is_past day_of trip today
          then split_trips day_of today trips rest current_trips (past_trips ++ [trip])%list
          else split_trips day_of today trips rest (current_trips ++ [trip])%list past_trips
      end
  end.

(** [get_trips_by_client]; [today] is [date.today()].  The set of trip ids
    is walked in the order of [elements]; [sort(key=..., reverse=True)] is
    the stable sort for the reversed comparison. *)
Definition get_trips_by_client (day_of : Z -> Z) (today : Z) (bs : BookingSystem)
    (last_name id_number : string)
  : result booking_error (list Trip * list Trip) :=
  let key := (lower last_name, id_number) in
  let trip_ids := default ∅ (client_trips_index bs !! key) in
  match split_trips day_of today (trips bs) (elements trip_ids) [] [] with
  | Raise e => Raise e
  | Ok (current_trips, past_trips) =>
      Ok (sort_key (fun a b => b <? a) booking_timestamp current_trips,
          sort_key (fun a b => b <? a) booking_timestamp past_trips)
  end.

(** [get_trip_by_id] *)
Definition get_trip_by_id (bs : BookingSystem) (trip_id : string) : option Trip :=
  trips bs !! trip_id.

End Booking.

(* ================================================================== *)
(** * The database-backed ledger ([database.py], [booking_system_v3.py]) *)
(* ================================================================== *)

Module Database.
Import Str.

(** The rows of the four tables a booking writes, and the primary keys of
    the [routes] table, which the foreign key of [trip_legs] refers to. *)
Record ClientRow : Type := {
  client_id : Z;
  first_name : string;
  last_name : string;
  id_number : string;
  age : Z
}.

Record TripRow : Type := {
  trip_id : Z;
  booking_timestamp : Z;
  departure_city : string;
  arrival_city : string;
  departure_time : string;
  arrival_time : string
}.

Record LegRow : Type := {
  leg_trip_id : Z;
  leg_route_id : string;
  leg_order : Z
}.

Record TicketRow : Type := {
  ticket_id : Z;
  ticket_client_id : Z;
  ticket_trip_id : Z;
  issue_timestamp : Z
}.

(** The committed content of the database.  The three [seq_] fields are the
    AUTOINCREMENT counters: the largest key ever handed out per table. *)
Record t : Type := {
  routes : list string;
  clients : list ClientRow;
  trips : list TripRow;
  trip_legs : list LegRow;
  tickets : list TicketRow;
  seq_clients : Z;
  seq_trips : Z;
  seq_tickets : Z
}.

(** [Database(":memory:")] after [_init_schema]. *)
Definition empty : t :=
  {| routes := []; clients := []; trips := []; trip_legs := []; tickets := [];
     seq_clients := 0; seq_trips := 0; seq_tickets := 0 |}.

(** SQLite's built-in [LOWER] folds the ASCII letters only. *)
Definition sql_lower_char (c : ascii) : ascii :=
  let n := code c in
  if ((65 <=? n) && (n <=? 90))%N then ascii_of_N (n + 32) else c.

Fixpoint sql_lower (s : string) : string :=
  match s with
  | EmptyString => EmptyString
  | String c s' => String (sql_lower_char c) (sql_lower s')
  end.

Inductive db_error : Type :=
| IntegrityError (constraint : string).

(** Every method below runs inside its own [with self.connection()]: its
    writes are committed when it returns and undone when it raises. *)

(** [create_trip] *)
Definition create_trip (db : t) (now : Z)
    (departure_city arrival_city departure_time arrival_time : string) : t * Z :=
  let id := seq_trips db + 1 in
  ({| routes := routes db; clients := clients db;
      trips := (trips db ++ [{| trip_id := id; booking_timestamp := now;
                                departure_city := departure_city;
                                arrival_city := arrival_city;
                                departure_time := departure_time;
                                arrival_time := arrival_time |}])%list;
      trip_legs := trip_legs db; tickets := tickets db;
      seq_clients := seq_clients db; seq_trips := id;
      seq_tickets := seq_tickets db |}, id).

Definition has_trip (db : t) (id : Z) : bool :=
  existsb (fun r => trip_id r =? id) (trips db).

Definition has_client (db : t) (id : Z) : bool :=
  existsb (fun r => client_id r =? id) (clients db).

(** [add_trip_leg]; foreign keys are enforced ([PRAGMA foreign_keys = ON]). *)
Definition add_trip_leg (db : t) (trip_id : Z) (route_id : string) (leg_order : Z)
  : t * result db_error unit :=
  if existsb (fun r => (leg_trip_id r =? trip_id) && (Database.leg_order r =? leg_order))
             (trip_legs db)
  then (db, Raise (IntegrityError "UNIQUE trip_legs(trip_id, leg_order)"))
  else if negb (has_trip db trip_id)
  then (db, Raise (IntegrityError "FOREIGN KEY trip_legs(trip_id)"))
  else if negb (existsb (String.eqb route_id) (routes db))
  then (db, Raise (IntegrityError "FOREIGN KEY trip_legs(route_id)"))
  else
    ({| routes := routes db; clients := clients db; trips := trips db;
        trip_legs := (trip_legs db ++ [{| leg_trip_id := trip_id;
                                          leg_route_id := route_id;
                                          leg_order := leg_order |}])%list;
        tickets := tickets db;
        seq_clients := seq_clients db; seq_trips := seq_trips db;
        seq_tickets := seq_tickets db |}, Ok tt).

(** [get_client_by_credentials] *)
Definition get_client_by_credentials (db : t) (last_name id_number : string)
  : option Z :=
  match List.filter
          (fun r => String.eqb (sql_lower (Database.last_name r)) (sql_lower last_name)
                    && String.eqb (Database.id_number r) id_number)
          (clients db) with
  | r :: _ => Some (client_id r)
  | [] => None
  end.

(** [get_or_create_client] *)
Definition get_or_create_client (db : t)
    (first_name last_name id_number : string) (age : Z) : t * result db_error Z :=
  match get_client_by_credentials db last_name id_number with
  | Some id => (db, Ok id)
  | None =>
      if age <? 0 then (db, Raise (IntegrityError "CHECK clients(age >= 0)"))
      else if existsb (fun r => String.eqb (Database.last_name r) last_name
                                && String.eqb (Database.id_number r) id_number)
                      (clients db)
      then (db, Raise (IntegrityError "UNIQUE clients(last_name, id_number)"))
      else
        let id := seq_clients db + 1 in
        ({| routes := routes db;
            clients := (clients db ++ [{| client_id := id; first_name := first_name;
                                          last_name := last_name;
                                          id_number := id_number; age := age |}])%list;
            trips := trips db; trip_legs := trip_legs db; tickets := tickets db;
            seq_clients := id; seq_trips := seq_trips db;
            seq_tickets := seq_tickets db |}, Ok id)
  end.

(** [create_ticket] *)
Definition create_ticket (db : t) (now : Z) (client_id trip_id : Z)
  : t * result db_error Z :=
  if negb (has_client db client_id)
  then (db, Raise (IntegrityError "FOREIGN KEY tickets(client_id)"))
  else if negb (has_trip db trip_id)
  then (db, Raise (IntegrityError "FOREIGN KEY tickets(trip_id)"))
  else
    let id := seq_tickets db + 1 in
    ({| routes := routes db; clients := clients db; trips := trips db;
        trip_legs := trip_legs db;
        tickets := (tickets db ++ [{| ticket_id := id; ticket_client_id := client_id;
                                      ticket_trip_id := trip_id;
                                      issue_timestamp := now |}])%list;
        seq_clients := seq_clients db; seq_trips := seq_trips db;
        seq_tickets := id |}, Ok id).

(** [get_trips_for_client], as trip ids.  The loop that reads the result
    only looks for one matching trip, so the order of the rows is left as
    stored. *)
Definition get_trips_for_client (db : t) (client_id : Z) : list Z :=
  map trip_id
      (List.filter
         (fun tr => existsb (fun tk => (ticket_trip_id tk =? trip_id tr)
                                       && (ticket_client_id tk =? client_id))
                            (tickets db))
         (trips db)).

(** [get_trip_legs], as route ids in the order of [leg_order]. *)
Definition get_trip_legs (db : t) (trip_id : Z) : list string :=
  map leg_route_id
      (sort_key Z.ltb leg_order
         (List.filter
            (fun l => (leg_trip_id l =? trip_id)
                      && existsb (String.eqb (leg_route_id l)) (routes db))
            (trip_legs db))).

End Database.

Module BookingV3.
Import Str.

Inductive error : Type :=
| Business (e : Booking.booking_error)
| IndexError
| Storage (e : Database.db_error).

Record Trip : Type := {
  trip_id : Z;
  connection : Itinerary;
  reservations : list Booking.Reservation;
  booking_timestamp : Z
}.

(** The first loop of [book_trip]: as in the in-memory ledger, without a
    client registry. *)
Fixpoint parse_travelers (travelers : list Booking.traveler)
    (seen : gset (string * string)) (acc : list Booking.Client)
  : result Booking.booking_error (list Booking.Client) :=
  match travelers with
  | [] => Ok acc
  | (first, last, id_num, age) :: rest =>
      match Booking.new_Client first last id_num age with
      | Raise e => Raise e
      | Ok c =>
          if decide (Booking.client_key c ∈ seen)
          then Raise (Booking.DuplicateTravelerInBooking
                        (Booking.first_name c) (Booking.last_name c))
          else parse_travelers rest ({[Booking.client_key c]} ∪ seen) (acc ++ [c])%list
      end
  end.

(** [_has_booking_for_connection] *)
Definition _has_booking_for_connection (db : Database.t)
    (c : Booking.Client) (connection : Itinerary) : bool :=
  match Database.get_client_by_credentials db (Booking.last_name c)
                                           (Booking.id_number c) with
  | None => false
  | Some client_id =>
      existsb
        (fun trip_id =>
           if decide (Database.get_trip_legs db trip_id = Itin.legs_key connection)
           then true else false)
        (Database.get_trips_for_client db client_id)
  end.

Fixpoint check_not_booked (db : Database.t) (cs : list Booking.Client)
    (connection : Itinerary) : result Booking.booking_error unit :=
  match cs with
  | [] => Ok tt
  | c :: rest =>
      if _has_booking_for_connection db c connection
      then Raise (Booking.AlreadyBooked (Booking.first_name c) (Booking.last_name c))
      else check_not_booked db rest connection
  end.

(** The loop over [enumerate(connection.legs)]. *)
Fixpoint add_legs (db : Database.t) (trip_id : Z) (i : Z) (ls : list Leg)
  : Database.t * result Database.db_error unit :=
  match ls with
  | [] => (db, Ok tt)
  | leg :: rest =>
      match Database.add_trip_leg db trip_id (route_id (route leg)) i with
      | (db, Raise e) => (db, Raise e)
      | (db, Ok _) => add_legs db trip_id (i + 1) rest
      end
  end.

(** The loop that creates one client row (if new), one ticket row and one
    reservation per client.  [clock] gives the successive readings of the
    clock during the call; the [i]-th client reads it twice, for the ticket
    row and for the ticket object. *)
Fixpoint add_tickets (db : Database.t) (clock : nat -> Z) (i : nat) (trip_id : Z)
    (connection : Itinerary) (cs : list Booking.Client)
  : Database.t * result error (list Booking.Reservation) :=
  match cs with
  | [] => (db, Ok [])
  | c :: rest =>
      match Database.get_or_create_client db (Booking.first_name c)
              (Booking.last_name c) (Booking.id_number c) (Booking.age c) with
      | (db, Raise e) => (db, Raise (Storage e))
      | (db, Ok client_id) =>
          match Database.create_ticket db (clock (1 + 2 * i)%nat) client_id trip_id with
          | (db, Raise e) => (db, Raise (Storage e))
          | (db, Ok ticket_id) =>
              let tk := {| Booking.ticket_id := ticket_id;
                           Booking.ticket_client := c;
                           Booking.ticket_connection := connection;
                           Booking.issue_timestamp := clock (2 + 2 * i)%nat |} in
              match Booking.new_Reservation c tk with
              | Raise e => (db, Raise (Business e))
              | Ok reservation =>
                  match add_tickets db clock (S i) trip_id connection rest with
                  | (db, Raise e) => (db, Raise e)
                  | (db, Ok more) => (db, Ok (reservation :: more))
                  end
              end
          end
      end
  end.

(** [book_trip]: the database after the call and what the call returned or
    raised.  [connection.origin] and the three properties next to it index
    [legs] and raise on an empty itinerary, before anything is written. *)
Definition book_trip (db : Database.t) (clock : nat -> Z)
    (connection : Itinerary) (travelers : list Booking.traveler)
  : Database.t * result error Trip :=
  match travelers with
  | [] => (db, Raise (Business Booking.EmptyBooking))
  | _ =>
      match parse_travelers travelers ∅ [] with
      | Raise e => (db, Raise (Business e))
      | Ok cs =>
          match check_not_booked db cs connection with
          | Raise e => (db, Raise (Business e))
          | Ok _ =>
              match hd_error (legs connection), last (legs connection) with
              | Some first_leg, Some last_leg =>
                  let '(db, trip_id) :=
                    Database.create_trip db (clock 0%nat)
                      (departure_city (route first_leg)) (arrival_city (route last_leg))
                      (departure_time (route first_leg)) (arrival_time (route last_leg)) in
                  match add_legs db trip_id 0 (legs connection) with
                  | (db, Raise e) => (db, Raise (Storage e))
                  | (db, Ok _) =>
                      match add_tickets db clock 0 trip_id connection cs with
                      | (db, Raise e) => (db, Raise e)
                      | (db, Ok reservations) =>
                          match reservations with
                          | [] => (db, Raise (Business Booking.TripWithoutReservation))
                          | _ =>
                              (db, Ok {| trip_id := trip_id;
                                         connection := connection;
                                         reservations := reservations;
                                         booking_timestamp :=
                                           clock (1 + 2 * length cs)%nat |})
                          end
                      end
                  end
              | _, _ => (db, Raise IndexError)
              end
          end
      end
  end.

End BookingV3.

(* ================================================================== *)
(** * The booking state machine ([booking_state_machine.py]) *)
(* ================================================================== *)

(** The handlers of the traveler and reservation states, over the
    database-backed ledger.  Printing is left out. *)
Module StateMachine.
Import Str.

Inductive BookingState : Type :=
| IDLE
| SEARCHING_CONNECTION
| DISPLAYING_RESULTS
| SELECTING_CONNECTION
| ENTERING_TRAVELERS
| VALIDATING_TRAVELERS
| CREATING_RESERVATION
| DISPLAYING_CONFIRMATION
| HANDLING_ERROR.

(** What [except Exception as e] catches in [_handle_creating]: an error of
    [book_trip], or a failed [assert] with its message. *)
Inductive failure : Type :=
| BookingFailed (e : BookingV3.error)
| AssertionError (msg : string).

(** The fields of [BookingContext] that these handlers read or write.
    They run after a connection has been selected ([_handle_selecting] lets
    nothing through without one), so [selected_connection] is an itinerary.
    [last_error] holds the error itself where the source keeps its text. *)
Record BookingContext : Type := {
  selected_connection : Itinerary;
  travelers : list Booking.traveler;
  validation_errors : list string;
  trip_id : option Z;
  ticket_ids : list Z;
  last_error : option failure;
  current_state : BookingState;
  previous_state : option BookingState
}.

(** [transition_to] *)
Definition transition_to (ctx : BookingContext) (new_state : BookingState)
  : BookingContext :=
  {| selected_connection := selected_connection ctx;
     travelers := travelers ctx;
     validation_errors := validation_errors ctx;
     trip_id := trip_id ctx;
     ticket_ids := ticket_ids ctx;
     last_error := last_error ctx;
     current_state := new_state;
     previous_state := Some (current_state ctx) |}.

Definition set_validation_errors (ctx : BookingContext) (errors : list string)
  : BookingContext :=
  {| selected_connection := selected_connection ctx;
     travelers := travelers ctx;
     validation_errors := errors;
     trip_id := trip_id ctx;
     ticket_ids := ticket_ids ctx;
     last_error := last_error ctx;
     current_state := current_state ctx;
     previous_state := previous_state ctx |}.

(** [_handle_entering_travelers] *)
Definition _handle_entering_travelers (ctx : BookingContext)
  : BookingContext * string :=
  match travelers ctx with
  | [] => (ctx, "awaiting_travelers")
  | _ => (transition_to ctx VALIDATING_TRAVELERS, "ready_to_validate")
  end.

(** [add_travelers] *)
Definition add_travelers (ctx : BookingContext) (ts : list Booking.traveler)
  : BookingContext * string :=
  _handle_entering_travelers
    {| selected_connection := selected_connection ctx;
       travelers := ts;
       validation_errors := validation_errors ctx;
       trip_id := trip_id ctx;
       ticket_ids := ticket_ids ctx;
       last_error := last_error ctx;
       current_state := current_state ctx;
       previous_state := previous_state ctx |}.

(** Check 1 of [_handle_validating]: the format of every entry. *)
Fixpoint format_errors (ts : list Booking.traveler) : list string :=
  match ts with
  | [] => []
  | (first, last, id_num, age) :: rest =>
      ((if negb (nonempty first) || negb (nonempty last)
        then ["Names cannot be empty"] else [])
       ++ (if negb (nonempty id_num) then ["ID number required"] else [])
       ++ (if age <? 0 then ["Invalid age: " +:+ show_Z age] else [])
       ++ format_errors rest)%list
  end.

(** Check 2: an entry whose key was seen before. *)
Fixpoint duplicate_errors (ts : list Booking.traveler) (seen : gset (string * string))
  : list string :=
  match ts with
  | [] => []
  | (first, last, id_num, age) :: rest =>
      let key := (lower last, id_num) in
      ((if decide (key ∈ seen)
        then ["Duplicate traveler: " +:+ first +:+ " " +:+ last] else [])
       ++ duplicate_errors rest ({[key]} ∪ seen))%list
  end.

(** Check 3: it builds a [Client] per entry, which raises on an entry that
    breaks a Client rule, and asks the ledger whether the client holds the
    connection.  The result is the messages appended before the loop ended,
    and the error that ended it, if any. *)
Fixpoint booking_errors (db : Database.t) (connection : Itinerary)
    (ts : list Booking.traveler) : list string * option Booking.booking_error :=
  match ts with
  | [] => ([], None)
  | (first, last, id_num, age) :: rest =>
      match Booking.new_Client first last id_num age with
      | Raise e => ([], Some e)
      | Ok client =>
          let here :=
            if BookingV3._has_booking_for_connection db client connection
            then ["Client " +:+ first +:+ " " +:+ last
                  +:+ " already has reservation for this connection"]
            else [] in
          let '(more, raised) := booking_errors db connection rest in
          ((here ++ more)%list, raised)
      end
  end.

(** [_handle_validating]: the context after the call and what the call
    returned or raised. *)
Definition _handle_validating (db : Database.t) (ctx : BookingContext)
  : BookingContext * result Booking.booking_error string :=
  let errors := format_errors (travelers ctx) in
  let errors := (errors ++ duplicate_errors (travelers ctx) ∅)%list in
  let '(more, raised) :=
    booking_errors db (selected_connection ctx) (travelers ctx) in
  let errors := (errors ++ more)%list in
  let ctx := set_validation_errors ctx errors in
  match raised with
  | Some e => (ctx, Raise e)
  | None =>
      match errors with
      | _ :: _ => (transition_to ctx ENTERING_TRAVELERS, Ok "validation_failed")
      | [] => (transition_to ctx CREATING_RESERVATION, Ok "validation_success")
      end
  end.

(** The [except] branch of [_handle_creating]. *)
Definition creation_failed (ctx : BookingContext) (e : failure) : BookingContext :=
  transition_to
    {| selected_connection := selected_connection ctx;
       travelers := travelers ctx;
       validation_errors := validation_errors ctx;
       trip_id := trip_id ctx;
       ticket_ids := ticket_ids ctx;
       last_error := Some e;
       current_state := current_state ctx;
       previous_state := previous_state ctx |}
    HANDLING_ERROR.

(** [_handle_creating]: the database and the context after the call, and
    the returned text. *)
Definition _handle_creating (db : Database.t) (clock : nat -> Z) (ctx : BookingContext)
  : Database.t * BookingContext * string :=
  match BookingV3.book_trip db clock (selected_connection ctx) (travelers ctx) with
  | (db, Raise e) => (db, creation_failed ctx (BookingFailed e), "error")
  | (db, Ok trip) =>
      let ctx :=
        {| selected_connection := selected_connection ctx;
           travelers := travelers ctx;
           validation_errors := validation_errors ctx;
           trip_id := Some (BookingV3.trip_id trip);
           ticket_ids := map (fun res => Booking.ticket_id (Booking.ticket res))
                             (BookingV3.reservations trip);
           last_error := last_error ctx;
           current_state := current_state ctx;
           previous_state := previous_state ctx |} in
      if negb (0 <? BookingV3.trip_id trip)
      then (db, creation_failed ctx
                  (AssertionError "Post-condition failed: trip_id must be positive"),
            "error")
      else if negb (length (BookingV3.reservations trip) =? length (travelers ctx))%nat
      then (db, creation_failed ctx
                  (AssertionError "Post-condition failed: reservation count mismatch"),
            "error")
      else (db, transition_to ctx DISPLAYING_CONFIRMATION, "success")
  end.

(** [_handle_confirmation] *)
Definition _handle_confirmation (ctx : BookingContext) : BookingContext * string :=
  (transition_to ctx IDLE, "complete").

(** [cancel] *)
Definition cancel (ctx : BookingContext) : BookingContext * string :=
  (transition_to ctx IDLE, "awaiting_initiation").

(** [is_complete] *)
Definition is_complete (ctx : BookingContext) : bool :=
  match current_state ctx, trip_id ctx with
  | IDLE, Some _ => true
  | _, _ => false
  end.

End StateMachine.

(* ================================================================== *)
(** * Sample data *)
(* ================================================================== *)

(** A second of the clock in which every draw of the generator is 42. *)
Definition env0 : Booking.Env :=
  {| Booking.token_hex := "0a1b2c3d";
     Booking.clock := fun _ => 1700000000;
     Booking.randbelow := fun _ => 42 |}.

(** The same second and the same draws, with another trip token. *)
Definition env1 : Booking.Env :=
  {| Booking.token_hex := "ffffffff";
     Booking.clock := fun _ => 1700000000;
     Booking.randbelow := fun _ => 42 |}.

(** The same second and the same draws, with a third trip token. *)
Definition env2 : Booking.Env :=
  {| Booking.token_hex := "12345678";
     Booking.clock := fun _ => 1700000000;
     Booking.randbelow := fun _ => 42 |}.

(** The direct Paris-Berlin itinerary of the test schedule. *)
Definition conn0 : Itinerary := RailNetwork.itinerary_of (firstn 1 layover_test_routes).

(** The Paris-Frankfurt leg of the test schedule. *)
Definition conn1 : Itinerary :=
  RailNetwork.itinerary_of (firstn 1 (skipn 1 layover_test_routes)).

(** Three traveler entries; the third has the identity of the first. *)
Definition john : Booking.traveler := ("John", "Smith", "PASS001", 45).
Definition jane : Booking.traveler := ("Jane", "Smith", "PASS002", 42).
Definition johnny : Booking.traveler := ("Johnny", "SMITH", "PASS001", 50).

(** The binary64 values of the literals 0.1, 0.2, 0.3 and
    0.30000000000000004. *)
Definition float_0_1 : float := S754_finite false 7205759403792794 (-56).
Definition float_0_2 : float := S754_finite false 7205759403792794 (-55).
Definition float_0_30000000000000004 : float :=
  S754_finite false 5404319552844596 (-54).

(** Three direct trains from A to B with the second-class rates 2.0, NaN
    (the value of [float("nan")]) and 1.0. *)
Definition nan_rate_routes : list TrainRoute :=
  (unwrap_route (new_TrainRoute "N1" "A" "B" "08:00" "09:00" "ICE" "Daily"
                                (float_of_Z 5) (float_of_Z 2))
  ++ unwrap_route (new_TrainRoute "N2" "A" "B" "10:00" "11:00" "ICE" "Daily"
                                  (float_of_Z 5) S754_nan)
  ++ unwrap_route (new_TrainRoute "N3" "A" "B" "12:00" "13:00" "ICE" "Daily"
                                  (float_of_Z 5) (float_of_Z 1)))%list.

(** Two connections from A to B: over M with the second-class rates
    0.30000000000000004 and 0.0, and over N with 0.1 and 0.2. *)
Definition rounded_fare_routes : list TrainRoute :=
  (unwrap_route (new_TrainRoute "Y1" "A" "M" "08:00" "09:00" "ICE" "Daily"
                                (float_of_Z 9) float_0_30000000000000004)
  ++ unwrap_route (new_TrainRoute "Y2" "M" "B" "10:00" "11:00" "ICE" "Daily"
                                  (float_of_Z 9) float_zero)
  ++ unwrap_route (new_TrainRoute "X1" "A" "N" "08:00" "09:00" "ICE" "Daily"
                                  (float_of_Z 9) float_0_1)
  ++ unwrap_route (new_TrainRoute "X2" "N" "B" "10:00" "11:00" "ICE" "Daily"
                                  (float_of_Z 9) float_0_2))%list.

(** An empty database whose [routes] table holds the test schedule. *)
Definition db_with_routes : Database.t :=
  {| Database.routes := map route_id layover_test_routes;
     Database.clients := []; Database.trips := []; Database.trip_legs := [];
     Database.tickets := []; Database.seq_clients := 0; Database.seq_trips := 0;
     Database.seq_tickets := 0 |}.

(** A booking context in which the direct itinerary has been selected and
    two travelers have been entered. *)
Definition ctx0 : StateMachine.BookingContext :=
  {| StateMachine.selected_connection := conn0;
     StateMachine.travelers := [john; jane];
     StateMachine.validation_errors := [];
     StateMachine.trip_id := None;
     StateMachine.ticket_ids := [];
     StateMachine.last_error := None;
     StateMachine.current_state := StateMachine.VALIDATING_TRAVELERS;
     StateMachine.previous_state := Some StateMachine.ENTERING_TRAVELERS |}.

(* ================================================================== *)
(** * Vocabulary of the statements *)
(* ================================================================== *)

(** The inclusive window selected by the policy text and the time of day
    of the arrival. *)
Definition window (a : Z) (policy : string) : Z * Z :=
  if (360 <=? a mod 1440) && (a mod 1440 <? 1320)
  then (15, if String.eqb policy "lenient" then 180 else 120)
  else (15, 30).

(** The sum of a list of integers. *)
Definition sum_Z (l : list Z) : Z := fold_right Z.add 0 l.

(** The gap between two consecutive legs, by [duration_minutes]. *)
Definition leg_gap (p : Leg * Leg) : Z :=
  TimeModel.duration_minutes (arr_min (route (fst p))) (dep_min (route (snd p))).

(** The adjacent pairs of [ls], preceded by the pair that [prev] forms with
    its first leg. *)
Definition adjacent_from (prev : option Leg) (ls : list Leg) : list (Leg * Leg) :=
  match prev with
  | Some p => Itin.adjacent (p :: ls)
  | None => Itin.adjacent ls
  end.

(** One round of the loop of [total_travel_minutes] over the legs [all]. *)
Definition travel_step (all : list Leg) (total : Z) (ix : nat * Leg) : Z :=
  let '(i, leg) := ix in
  let total := total + duration_min (route leg) in
  if (0 <? i)%nat then
    match all !! (i - 1)%nat with
    | Some prev =>
        total + TimeModel.duration_minutes (arr_min (route prev)) (dep_min (route leg))
    | None => total
    end
  else total.

(** From the spec: the result is [hour*60 + minute + day_offset*1440], where
    hour and minute are the first one or two numeric tokens of the clock
    text; there is no result without a numeric token. *)
Definition minutes_of_tokens (tokens : list string) (day_offset : Z) : option Z :=
  match tokens with
  | [] => None
  | h :: rest =>
      let minute := match rest with m :: _ => Str.int_of_digits m | [] => 0 end in
      Some (Str.int_of_digits h * 60 + minute + day_offset * 1440)
  end.

(** The day offset and the clock text that [parse_time_to_minutes] works
    on, once the surrounding blanks and the offset markers are gone. *)
Definition day_offset_of (t : string) : Z :=
  match TimeModel.search_offset_marker (Str.strip t) with
  | Some ds => Str.int_of_digits ds
  | None => 0
  end.

Definition clock_text (t : string) : string :=
  match TimeModel.search_offset_marker (Str.strip t) with
  | Some _ => Str.strip (TimeModel.sub_offset_markers (Str.strip t))
  | None => Str.strip t
  end.


(** No character of [s] opens a parenthesis. *)
Definition no_paren (s : string) : bool :=
  Str.all_chars (fun c => negb (Ascii.eqb "(" c)) s.

(** The text [H:M] for two non-empty digit strings. *)
Definition clock_of (hs ms : string) : string := hs +:+ ":" +:+ ms.

(** The invariant of the [seen]/[unique] loop: [seen] holds the keys of
    [unique], and these are pairwise distinct. *)
Definition dedup_inv (st : gset (list string) * list Itinerary) : Prop :=
  (forall k, k ∈ fst st <-> In k (map Itin.legs_key (snd st)))
  /\ List.NoDup (map Itin.legs_key (snd st)).

(** Every transfer of [it] passes [_transfer_gap_ok]. *)
Definition gaps_ok (min_transfer : Z) (it : Itinerary) : Prop :=
  forall p, In p (Itin.adjacent (legs it)) ->
            RailNetwork._transfer_gap_ok (route (fst p)) (route (snd p)) min_transfer = true.

Section LedgerVocabulary.
Import Str Booking.

(** The client that [Client(first, last, id_num, age)] builds when the
    entry is valid. *)
Definition client_of (t : traveler) : Client :=
  let '(first, last, id_num, age) := t in
  {| first_name := first; last_name := last; id_number := id_num; age := age |}.

(** The identity of a traveler entry: lower-cased last name, id number. *)
Definition traveler_key (t : traveler) : string * string :=
  client_key (client_of t).

(** The Client invariants of the data model. *)
Definition valid_traveler (t : traveler) : Prop :=
  let '(first, last, id_num, age) := t in
  0 <= age /\ first <> "" /\ last <> "" /\ id_num <> "".

(** The client with identity [key] holds a reservation on a stored trip
    whose route ids, in order, are those of [conn]. *)
Definition holds_connection (bs : BookingSystem) (key : string * string)
    (conn : Itinerary) : Prop :=
  exists tid trip,
    trips bs !! tid = Some trip
    /\ In key (map client_key (get_clients trip))
    /\ Itin.legs_key (connection trip) = Itin.legs_key conn.

(** The index agrees with the stored trips. *)
Definition ledger_ok (bs : BookingSystem) : Prop :=
  forall key tid,
    tid ∈ default ∅ (client_trips_index bs !! key)
    <-> exists trip, trips bs !! tid = Some trip
                     /\ In key (map client_key (get_clients trip)).

(** The ledger once the travelers of a call have been registered. *)
Definition registered (bs : BookingSystem) (ts : list traveler) : BookingSystem :=
  {| trips := trips bs;
     client_trips_index := client_trips_index bs;
     clients := fold_left (fun m t => clients_add (client_of t) m) ts (clients bs) |}.

(** The ledger once the trip of a successful call has been stored. *)
Definition committed (bs : BookingSystem) (ts : list traveler) (trip : Trip)
  : BookingSystem :=
  {| trips := <[trip_id trip := trip]> (trips bs);
     client_trips_index :=
       fold_left (index_add (trip_id trip)) (map client_of ts) (client_trips_index bs);
     clients := clients (registered bs ts) |}.

(** What a call returns when it succeeds. *)
Definition booked (env : Env) (conn : Itinerary) (ts : list traveler) (trip : Trip)
  : Prop :=
  trip_id trip = generate_trip_id env
  /\ connection trip = conn
  /\ map client (reservations trip) = map client_of ts
  /\ map (fun r => ticket_id (ticket r)) (reservations trip)
     = map (generate_ticket_id env) (seq 0 (length ts))
  /\ Forall (fun r => ticket_client (ticket r) = client r
                      /\ ticket_connection (ticket r) = conn) (reservations trip).

(** The rule that [Client.__post_init__] reports for an entry that breaks
    one: the age is looked at first, then the names, then the id number. *)
Definition violated_rule (t : traveler) : invalid_rule :=
  let '(first, last, id_num, age) := t in
  if age <? 0 then NegativeAge age
  else if negb (nonempty first) || negb (nonempty last) then EmptyName
  else EmptyIdNumber.

(** A stored trip with a reservation of the client with identity [key]. *)
Definition trip_of_client (bs : BookingSystem) (key : string * string) (trip : Trip)
  : Prop :=
  exists tid, trips bs !! tid = Some trip /\ In key (map client_key (get_clients trip)).

(** [a] may stand right before [b] when the most recent booking comes first. *)
Definition recent_first (a b : Trip) : Prop :=
  booking_timestamp b <= booking_timestamp a.

End LedgerVocabulary.

(** The rows that the database-backed [book_trip] writes to [trip_legs]
    for the legs [ls], numbered from [i]. *)
Fixpoint leg_rows (trip_id : Z) (i : Z) (ls : list Leg) : list Database.LegRow :=
  match ls with
  | [] => []
  | leg :: rest =>
      {| Database.leg_trip_id := trip_id;
         Database.leg_route_id := route_id (route leg);
         Database.leg_order := i |} :: leg_rows trip_id (i + 1) rest
  end.

(** No stored leg belongs to a trip id that is still to be handed out. *)
Definition legs_of_known_trips (db : Database.t) : Prop :=
  Forall (fun l => Database.leg_trip_id l <= Database.seq_trips db)
         (Database.trip_legs db).

(** The text of a day-offset marker with blanks inside, [( +N d )]. *)
Definition marker_text (sp1 ds sp2 sp3 : string) : string :=
  "(" +:+ sp1 +:+ "+" +:+ ds +:+ sp2 +:+ "d" +:+ sp3 +:+ ")".

(** A string of blanks. *)
Definition blank (s : string) : bool := Str.all_chars Str.is_space s.

(** A non-empty string of digits. *)
Definition digits (s : string) : bool := Str.all_chars Str.is_digit s && Str.nonempty s.

(** The text [s] opens with a day-offset marker: an opening parenthesis,
    blanks, a plus sign, the number [ds], blanks, the letter d, blanks and a
    closing parenthesis; [rest] is what follows the marker. *)
Definition starts_with_marker (s ds rest : string) : Prop :=
  exists sp1 sp2 sp3 : string,
    blank sp1 = true /\ digits ds = true /\ blank sp2 = true /\ blank sp3 = true
    /\ s = marker_text sp1 ds sp2 sp3 +:+ rest.

(** [without_markers s ns r]: reading [s] from the left and taking a marker
    wherever one starts, [ns] are the numbers of the markers, in order, and
    [r] is the text that is left when they are deleted. *)
Inductive without_markers : string -> list string -> string -> Prop :=
| wm_end : without_markers "" [] ""
| wm_marker (s ds rest : string) (ns : list string) (r : string) :
    starts_with_marker s ds rest -> without_markers rest ns r ->
    without_markers s (ds :: ns) r
| wm_char (c : ascii) (s : string) (ns : list string) (r : string) :
    (forall ds rest, ~ starts_with_marker (String c s) ds rest) ->
    without_markers s ns r ->
    without_markers (String c s) ns (String c r).

(** The day offset: the number of the leftmost marker, zero without one. *)
Definition first_offset (ns : list string) : Z :=
  match ns with
  | n :: _ => Str.int_of_digits n
  | [] => 0
  end.

(** The clock text [H] or [H:M]. *)
Definition clock_part (h : string) (om : option string) : string :=
  h +:+ match om with Some m => ":" +:+ m | None => "" end.

(** The minutes that group 2 stands for: none counts as zero. *)
Definition minute_of (om : option string) : Z :=
  match om with Some m => Str.int_of_digits m | None => 0 end.

(** A filter that is absent or empty constrains nothing; otherwise the
    text has to equal it up to case. *)
Definition same_text (filter : option string) (text : string) : bool :=
  negb (Str.truthy filter)
  || String.eqb (Str.lower text) (Str.lower (default "" filter)).

(** The train-type and day filters of a search, on one route. *)
Definition service_ok (train_type day_contains : option string) (r : TrainRoute) : bool :=
  same_text train_type (RailNetwork.type_of_route r)
  && (negb (Str.truthy day_contains)
      || Str.contains (Str.lower (default "" day_contains))
                      (Str.lower (days_of_operation r))).

(** [next] leaves from the city where [prev] arrives, up to case. *)
Definition follows (prev next : TrainRoute) : bool :=
  String.eqb (Str.lower (departure_city next)) (Str.lower (arrival_city prev)).

(** Consecutive routes connect and leave the minimum transfer time. *)
Fixpoint linked (min_transfer : Z) (chain : list TrainRoute) : bool :=
  match chain with
  | a :: (b :: _) as rest =>
      follows a b && RailNetwork._transfer_gap_ok a b min_transfer
      && linked min_transfer rest
  | _ => true
  end.

(** A chain of schedule routes that answers a search: every route passes
    the type and day filters, the first leaves from the requested city, the
    last arrives at the requested city, and consecutive routes are linked. *)
Definition feasible (rs : list TrainRoute)
    (dep_city arr_city train_type day_contains : option string)
    (min_transfer : Z) (chain : list TrainRoute) : Prop :=
  Forall (fun r => In r rs /\ service_ok train_type day_contains r = true) chain
  /\ (forall r, hd_error chain = Some r -> same_text dep_city (departure_city r) = true)
  /\ (forall r, last chain = Some r -> same_text arr_city (arrival_city r) = true)
  /\ linked min_transfer chain = true.

(** The number of legs a search may return: one, or two and three when
    [max_stops] allows it and both cities are given. *)
Definition legs_allowed (dep_city arr_city : option string) (max_stops : Z) (n : nat)
  : Prop :=
  n = 1%nat
  \/ (n = 2%nat /\ 1 <= max_stops
      /\ Str.truthy dep_city = true /\ Str.truthy arr_city = true)
  \/ (n = 3%nat /\ 2 <= max_stops
      /\ Str.truthy dep_city = true /\ Str.truthy arr_city = true).


(** A float that is not a number. *)
Definition is_nan (f : float) : bool :=
  match f with S754_nan => true | _ => false end.


(** [x <= y] and [x == y] on floats. *)
Definition float_le (x y : float) : bool := SFleb x y.
Definition float_eq (x y : float) : bool := SFeqb x y.

(** The place of a float that is a number on the number line, as a triple
    to be compared from left to right: the sign class, then the exponent,
    then the mantissa, the last two negated for a negative number. *)
Definition float_rank (f : float) : Z * Z * Z :=
  match f with
  | S754_infinity true => (-2, 0, 0)
  | S754_finite true m e => (-1, - e, - Zpos m)
  | S754_zero _ => (0, 0, 0)
  | S754_nan => (0, 0, 0)
  | S754_finite false m e => (1, e, Zpos m)
  | S754_infinity false => (2, 0, 0)
  end.

Definition rank_ltb (a b : Z * Z * Z) : bool :=
  let '(a1, a2, a3) := a in
  let '(b1, b2, b3) := b in
  (a1 <? b1) || ((a1 =? b1) && ((a2 <? b2) || ((a2 =? b2) && (a3 <? b3)))).

(* ================================================================== *)
(** * Layover policy: the acceptance window *)
(* ================================================================== *)

Section LayoverFacts.
Import LayoverValidator.

Lemma layover_gap_is_duration (a d : Z) :
  layover_gap a d = TimeModel.duration_minutes a d.
Proof.
  unfold layover_gap, TimeModel.duration_minutes.
  destruct (d >=? a); lia.
Qed.

Lemma is_daytime_iff (a : Z) :
  is_daytime a = true <-> 360 <= a mod 1440 < 1320.
Proof.
  unfold is_daytime, DAY_START, DAY_END.
  change (24 * 60) with 1440. change (6 * 60) with 360. change (22 * 60) with 1320.
  rewrite andb_true_iff, Z.leb_le, Z.ltb_lt. tauto.
Qed.

Lemma limits_window (a : Z) (policy : string) :
  limits policy (is_daytime a) = window a policy.
Proof.
  unfold limits, window, is_daytime, DAY_START, DAY_END,
    DAYTIME_MIN, DAYTIME_MAX, NIGHT_MIN, NIGHT_MAX.
  change (24 * 60) with 1440. change (6 * 60) with 360. change (22 * 60) with 1320.
  destruct ((360 <=? a mod 1440) && (a mod 1440 <? 1320));
    destruct (String.eqb policy "lenient"); reflexivity.
Qed.

Lemma verdict_cases (a d : Z) (policy : string) :
  let gap := layover_gap a d in
  let '(lo, hi) := window a policy in
  (gap < lo /\ exists tail,
      is_layover_acceptable a d policy = (false, "Layover too short: " +:+ tail))
  \/ (lo <= gap /\ hi < gap /\ exists tail,
      is_layover_acceptable a d policy = (false, "Layover too long: " +:+ tail))
  \/ (lo <= gap <= hi /\ is_layover_acceptable a d policy = (true, "OK")).
Proof.
  cbv zeta. unfold is_layover_acceptable.
  rewrite limits_window. destruct (window a policy) as [lo hi].
  destruct (Z.ltb_spec (layover_gap a d) lo) as [Hlo|Hlo].
  - left. split; [lia|]. eexists. reflexivity.
  - right. destruct (Z.gtb_spec (layover_gap a d) hi) as [Hhi|Hhi].
    + left. split; [lia|]. split; [lia|]. eexists. reflexivity.
    + right. split; [lia|reflexivity].
Qed.
End LayoverFacts.

(** C5. [is_layover_acceptable] computes the gap by the day-rollover rule of
    [duration_minutes] and accepts exactly when the gap lies in the inclusive
    window chosen by the arrival's time of day: daytime ([a mod 1440] in
    [360, 1320)) gives 15..120, or 15..180 when the policy text is "lenient";
    after hours gives 15..30 under either policy.  A rejected gap below the
    window is reported as too short, one above it as too long.  The boundary
    gaps 15, 120, 121 (daytime) and 30, 31 (after hours) are listed at the end. *)
Theorem is_layover_acceptable_window (a d : Z) (policy : string) :
  let gap := TimeModel.duration_minutes a d in
  let daytime := (360 <=? a mod 1440) && (a mod 1440 <? 1320) in
  let hi := if daytime then (if String.eqb policy "lenient" then 180 else 120) else 30 in
  let verdict := LayoverValidator.is_layover_acceptable a d policy in
  LayoverValidator.layover_gap a d = gap
  /\ (fst verdict = true <-> 15 <= gap <= hi)
  /\ (Str.startswith "Layover too short: " (snd verdict) = true <-> gap < 15)
  /\ (Str.startswith "Layover too long: " (snd verdict) = true <-> 15 <= gap /\ hi < gap)
  /\ LayoverValidator.is_layover_acceptable 600 615 "strict" = (true, "OK")
  /\ LayoverValidator.is_layover_acceptable 600 720 "strict" = (true, "OK")
  /\ fst (LayoverValidator.is_layover_acceptable 600 721 "strict") = false
  /\ LayoverValidator.is_layover_acceptable 1380 1410 "strict" = (true, "OK")
  /\ fst (LayoverValidator.is_layover_acceptable 1380 1411 "strict") = false
  /\ LayoverValidator.is_layover_acceptable 1380 1410 "lenient" = (true, "OK")
  /\ fst (LayoverValidator.is_layover_acceptable 1380 1411 "lenient") = false.
Proof.
  cbv zeta.
  split; [apply layover_gap_is_duration|].
  rewrite <- layover_gap_is_duration.
  pose proof (verdict_cases a d policy) as H. cbv zeta in H.
  unfold window in H.
  destruct ((360 <=? a mod 1440) && (a mod 1440 <? 1320));
    destruct (String.eqb policy "lenient");
    (destruct H as [(H1 & tail & H2)|[(H1 & H2 & tail & H3)|(H1 & H2)]];
     [ rewrite H2 | rewrite H3 | rewrite H2 ]);
    cbn [fst snd];
    repeat split; intros; try reflexivity; try lia; try discriminate.
Qed.

(* ================================================================== *)
(** * Durations *)
(* ================================================================== *)

Section TotalTravel.
Import Itin.

Lemma lookup_before_split (pre : list Leg) (x : Leg) (suf : list Leg) :
  (0 <? length pre)%nat = true ->
  (pre ++ x :: suf)%list !! (length pre - 1)%nat = last pre.
Proof.
  intros Hpos. apply Nat.ltb_lt in Hpos.
  rewrite lookup_app_l by lia.
  rewrite last_lookup. f_equal. lia.
Qed.

Lemma travel_fold (suf : list Leg) :
  forall (pre : list Leg) (acc : Z),
    fold_left (travel_step (pre ++ suf)%list)
              (combine (seq (length pre) (length suf)) suf) acc
    = acc + sum_Z (map (fun leg => duration_min (route leg)) suf)
      + sum_Z (map leg_gap (adjacent_from (last pre) suf)).
Proof.
  induction suf as [|x suf IH]; intros pre acc.
  - simpl. destruct (last pre); simpl; lia.
  - cbn [length seq combine fold_left].
    replace (pre ++ x :: suf)%list with ((pre ++ [x]) ++ suf)%list
      by (rewrite <- app_assoc; reflexivity).
    specialize (IH (pre ++ [x])%list).
    rewrite length_app in IH. cbn [length] in IH.
    replace (length pre + 1)%nat with (S (length pre)) in IH by lia.
    rewrite IH. rewrite last_snoc.
    unfold travel_step at 1.
    destruct (0 <? length pre)%nat eqn:Hpos.
    + rewrite <- app_assoc. cbn [app].
      rewrite lookup_before_split by exact Hpos.
      destruct (last pre) as [p|] eqn:Hlast.
      * cbn [adjacent_from adjacent map sum_Z fold_right]. unfold leg_gap at 2.
        cbn [fst snd]. destruct suf; cbn; lia.
      * apply Nat.ltb_lt in Hpos. destruct pre; [simpl in Hpos; lia|].
        rewrite last_cons in Hlast. destruct (last pre); discriminate.
    + apply Nat.ltb_ge in Hpos. destruct pre; [|simpl in Hpos; lia].
      cbn [last adjacent_from adjacent map sum_Z fold_right].
      destruct suf; cbn; lia.
Qed.

Lemma total_travel_minutes_sum (it : Itinerary) :
  total_travel_minutes it
  = sum_Z (map (fun leg => duration_min (route leg)) (legs it))
    + sum_Z (map leg_gap (adjacent (legs it))).
Proof.
  unfold total_travel_minutes, enumerate.
  pose proof (travel_fold (legs it) [] 0) as H.
  cbn [app length last adjacent_from] in H.
  etransitivity; [|etransitivity; [exact H|lia]].
  reflexivity.
Qed.
End TotalTravel.

(** C9, as stated, fails: a departure marked two days later than the
    arrival gives a negative duration, because the rule adds one day only. *)
Lemma duration_minutes_can_be_negative :
  TimeModel.parse_time_to_minutes (Some "08:00 (+2d)") = Ok 3360
  /\ TimeModel.parse_time_to_minutes (Some "09:00") = Ok 540
  /\ TimeModel.duration_minutes 3360 540 = -1380
  /\ ~ (forall a b : Z, 0 <= TimeModel.duration_minutes a b).
Proof.
  repeat split; try reflexivity.
  intros H. specialize (H 3360 540). vm_compute in H. apply H. reflexivity.
Qed.

(** C9, amended.  [duration_minutes a b] is [b - a] when [b >= a] and
    [b + 1440 - a] otherwise; it is non-negative exactly when [b] is at most
    one day behind [a].  The total travel time of an itinerary is the sum of
    its legs' [duration_min] plus, over adjacent legs, [duration_minutes] of
    the earlier arrival and the later departure; and [duration_min] of a
    constructed route is [duration_minutes] of its own two times. *)
Theorem duration_minutes_rule (a b : Z) (it : Itinerary) :
  TimeModel.duration_minutes a b = (if a <=? b then b - a else b + 1440 - a)
  /\ (0 <= TimeModel.duration_minutes a b <-> a - 1440 <= b)
  /\ Itin.total_travel_minutes it
     = sum_Z (map (fun leg => duration_min (route leg)) (legs it))
       + sum_Z (map (fun p => TimeModel.duration_minutes
                                (arr_min (route (fst p))) (dep_min (route (snd p))))
                    (Itin.adjacent (legs it)))
  /\ (forall rid dc ac dt at_ tt days r1 r2 r,
        new_TrainRoute rid dc ac dt at_ tt days r1 r2 = Ok r <->
        exists dep arr,
          TimeModel.parse_time_to_minutes (Some dt) = Ok dep
          /\ TimeModel.parse_time_to_minutes (Some at_) = Ok arr
          /\ r = {| route_id := rid; departure_city := dc; arrival_city := ac;
                    departure_time := dt; arrival_time := at_; train_type := tt;
                    days_of_operation := days; first_class_rate := r1;
                    second_class_rate := r2; dep_min := dep; arr_min := arr;
                    duration_min := TimeModel.duration_minutes dep arr |}).
Proof.
  split; [|split; [|split]].
  - unfold TimeModel.duration_minutes.
    destruct (Z.geb_spec b a), (Z.leb_spec a b); lia.
  - unfold TimeModel.duration_minutes.
    destruct (Z.geb_spec b a); lia.
  - apply total_travel_minutes_sum.
  - intros. unfold new_TrainRoute.
    destruct (TimeModel.parse_time_to_minutes (Some dt)) as [dep|e1].
    + destruct (TimeModel.parse_time_to_minutes (Some at_)) as [arr|e2].
      * split.
        -- intros [= <-]. exists dep, arr. auto.
        -- intros (dep' & arr' & [= <-] & [= <-] & ->). reflexivity.
      * split; [discriminate|]. intros (? & ? & _ & ? & _). discriminate.
    + split; [discriminate|]. intros (? & ? & ? & _). discriminate.
Qed.

(* ================================================================== *)
(** * Parsing times *)
(* ================================================================== *)

Section CharFacts.
Import Str.

Lemma digit_not_space (c : ascii) : is_digit c = true -> is_space c = false.
Proof.
  unfold is_digit, is_space. intros H.
  apply andb_true_iff in H as [H1 H2].
  apply N.leb_le in H1. apply N.leb_le in H2.
  repeat match goal with
         | |- context [(?x <=? ?y)%N] => destruct (N.leb_spec x y)
         | |- context [(?x =? ?y)%N] => destruct (N.eqb_spec x y)
         end; simpl; try reflexivity; lia.
Qed.

Lemma digit_not_char (c d : ascii) :
  is_digit d = false -> is_digit c = true -> Ascii.eqb d c = false.
Proof.
  intros Hd Hc. destruct (Ascii.eqb_spec d c) as [->|]; congruence.
Qed.

Lemma space_not_char (c d : ascii) :
  is_space d = false -> is_space c = true -> Ascii.eqb d c = false.
Proof.
  intros Hd Hc. destruct (Ascii.eqb_spec d c) as [->|]; congruence.
Qed.

Lemma append_nil_r (s : string) : s +:+ "" = s.
Proof. induction s; cbn [String.append]; congruence. Qed.

Lemma append_assoc (s1 s2 s3 : string) : (s1 +:+ s2) +:+ s3 = s1 +:+ (s2 +:+ s3).
Proof. induction s1; cbn [String.append]; congruence. Qed.

Lemma all_chars_cons (p : ascii -> bool) (c : ascii) (s : string) :
  all_chars p (String c s) = p c && all_chars p s.
Proof. reflexivity. Qed.

Lemma all_chars_app (p : ascii -> bool) (s1 s2 : string) :
  all_chars p (s1 +:+ s2) = all_chars p s1 && all_chars p s2.
Proof.
  induction s1 as [|c s1 IH]; [reflexivity|].
  cbn [String.append]. rewrite !all_chars_cons, IH. apply andb_assoc.
Qed.

Lemma any_char_cons (p : ascii -> bool) (c : ascii) (s : string) :
  any_char p (String c s) = p c || any_char p s.
Proof. reflexivity. Qed.


Lemma lstrip_head (c : ascii) (s : string) :
  is_space c = false -> lstrip (String c s) = String c s.
Proof. intros E. simpl. rewrite E. reflexivity. Qed.




Lemma rstrip_keep (x y : string) :
  rstrip y = y -> nonempty y = true -> rstrip (x +:+ y) = x +:+ y.
Proof.
  intros Hy Hne. induction x as [|c x IH]; [exact Hy|].
  cbn [String.append rstrip]. rewrite IH.
  destruct (x +:+ y) eqn:E; [|reflexivity].
  destruct x; simpl in E; [subst; discriminate|discriminate].
Qed.

Lemma rstrip_fixed (s : string) :
  all_chars (fun c => negb (is_space c)) s = true -> rstrip s = s.
Proof.
  induction s as [|c s IH]; [reflexivity|].
  rewrite all_chars_cons. intros H. apply andb_true_iff in H as [Hc Hs].
  apply negb_true_iff in Hc. simpl. rewrite (IH Hs).
  destruct s; [rewrite Hc|]; reflexivity.
Qed.

Lemma digits_not_spaces (s : string) :
  all_chars is_digit s = true ->
  all_chars (fun c => negb (is_space c)) s = true.
Proof.
  induction s as [|c s IH]; [reflexivity|].
  rewrite !all_chars_cons. intros H. apply andb_true_iff in H as [Hc Hs].
  rewrite (digit_not_space _ Hc), (IH Hs). reflexivity.
Qed.
End CharFacts.

Section ClockFacts.
Import Str TimeModel.

Lemma findall_cons_nondigit (c : ascii) (s : string) :
  is_digit c = false -> findall_digits (String c s) = findall_digits s.
Proof. intros E. simpl. rewrite E. reflexivity. Qed.

Lemma findall_nil_iff (s : string) :
  findall_digits s = [] <-> any_char is_digit s = false.
Proof.
  induction s as [|c s IH]; [split; reflexivity|].
  rewrite any_char_cons. simpl.
  destruct (is_digit c) eqn:E; simpl.
  - split; [|discriminate].
    destruct (starts_with_digit s); [destruct (findall_digits s)|]; discriminate.
  - exact IH.
Qed.

Lemma at_end_no_tokens (r : string) :
  at_end r = true -> findall_digits r = [] /\ starts_with_digit r = false.
Proof.
  destruct r as [|c [|c' r]]; simpl; try discriminate; [auto|].
  intros H. apply Ascii.eqb_eq in H. subst c. auto.
Qed.

Lemma digits_1_2_tokens (s h r : string) :
  digits_1_2 s = Some (h, r) -> starts_with_digit r = false ->
  findall_digits s = h :: findall_digits r.
Proof.
  destruct s as [|a [|b s2]]; simpl; [discriminate| |].
  - destruct (is_digit a); [|discriminate]. intros [= <- <-] _. reflexivity.
  - destruct (is_digit a) eqn:Ea; [|discriminate].
    destruct (is_digit b) eqn:Eb.
    + intros [= <- <-] Hr. rewrite Hr. reflexivity.
    + intros [= <- <-] _. simpl. rewrite Eb. reflexivity.
Qed.

Lemma expect_colon_tokens (r r1 : string) :
  expect ":" r = Some r1 ->
  starts_with_digit r = false /\ findall_digits r = findall_digits r1.
Proof.
  destruct r as [|c r]; cbn [expect]; [discriminate|].
  destruct (Ascii.eqb_spec ":" c) as [<-|]; [|discriminate].
  intros [= <-]. split; reflexivity.
Qed.

Lemma match_clock_tokens (s h : string) (om : option string) :
  match_clock s = Some (h, om) ->
  findall_digits s = h :: match om with Some m => [m] | None => [] end.
Proof.
  unfold match_clock.
  destruct (digits_1_2 s) as [[h0 r]|] eqn:Eh; [|discriminate].
  assert (Hwithout :
    (if at_end r then Some (h0, None) else None) = Some (h, om) ->
    findall_digits s = h :: match om with Some m => [m] | None => [] end).
  { destruct (at_end r) eqn:Er; [|discriminate]. intros [= <- <-].
    destruct (at_end_no_tokens _ Er) as [Hnil Hsd].
    rewrite (digits_1_2_tokens _ _ _ Eh Hsd), Hnil. reflexivity. }
  destruct (expect ":" r) as [r1|] eqn:Ec; [|exact Hwithout].
  destruct (digits_1_2 r1) as [[m r2]|] eqn:Em; [|exact Hwithout].
  destruct (at_end r2) eqn:Er2; [|exact Hwithout].
  intros [= <- <-].
  destruct (expect_colon_tokens _ _ Ec) as [Hsd Hr].
  destruct (at_end_no_tokens _ Er2) as [Hnil Hsd2].
  rewrite (digits_1_2_tokens _ _ _ Eh Hsd), Hr.
  rewrite (digits_1_2_tokens _ _ _ Em Hsd2), Hnil. reflexivity.
Qed.

(** The strict pattern and the fallback read the same tokens. *)
Lemma parse_time_tokens (t : string) :
  parse_time_to_minutes (Some t)
  = match minutes_of_tokens (findall_digits (clock_text t)) (day_offset_of t) with
    | Some v => Ok v
    | None => Raise (UnrecognizedTimeFormat t)
    end.
Proof.
  unfold parse_time_to_minutes, clock_text, day_offset_of.
  destruct (search_offset_marker (strip t)) as [ds|];
    match goal with
    | |- context [match_clock ?s] =>
        destruct (match_clock s) as [[h om]|] eqn:Em;
          [ rewrite (match_clock_tokens _ _ _ Em);
            destruct om; cbn [minutes_of_tokens]; f_equal; lia
          | destruct (findall_digits s) as [|h [|m rest]];
            cbn [minutes_of_tokens]; try reflexivity; f_equal; lia ]
    end.
Qed.

Lemma parse_time_raises_iff (t : string) :
  is_ok (parse_time_to_minutes (Some t)) = false
  <-> any_char is_digit (clock_text t) = false.
Proof.
  rewrite parse_time_tokens, <- findall_nil_iff.
  destruct (findall_digits (clock_text t)); cbn; split; congruence.
Qed.
End ClockFacts.

Section MarkerFacts.
Import Str TimeModel.

Lemma span_digits_app (ds r : string) :
  all_chars is_digit ds = true -> starts_with_digit r = false ->
  span_digits (ds +:+ r) = (ds, r).
Proof.
  intros Hds Hr. induction ds as [|c ds IH].
  - destruct r as [|c r]; [reflexivity|]. simpl in Hr |- *. rewrite Hr. reflexivity.
  - rewrite all_chars_cons in Hds. apply andb_true_iff in Hds as [Hc Hds].
    simpl. rewrite Hc, (IH Hds). reflexivity.
Qed.


Lemma offset_marker_at_other (c : ascii) (s : string) :
  Ascii.eqb "(" c = false -> offset_marker_at (String c s) = None.
Proof. intros E. unfold offset_marker_at. cbn [expect]. rewrite E. reflexivity. Qed.

Lemma search_no_paren (s : string) :
  no_paren s = true -> search_offset_marker s = None.
Proof.
  unfold no_paren. induction s as [|c s IH]; [reflexivity|].
  rewrite all_chars_cons. intros H. apply andb_true_iff in H as [Hc Hs].
  apply negb_true_iff in Hc.
  cbn [search_offset_marker]. rewrite (offset_marker_at_other _ _ Hc). auto.
Qed.



End MarkerFacts.

Section ParseShapes.
Import Str TimeModel.







Lemma findall_app_digits (ds r : string) :
  all_chars is_digit ds = true -> nonempty ds = true ->
  starts_with_digit r = false ->
  findall_digits (ds +:+ r) = ds :: findall_digits r.
Proof.
  intros Hds Hne Hr. induction ds as [|c ds IH]; [discriminate|].
  rewrite all_chars_cons in Hds. apply andb_true_iff in Hds as [Hc Hds].
  cbn [String.append findall_digits]. rewrite Hc.
  destruct ds as [|c' ds].
  - cbn [String.append]. rewrite Hr. reflexivity.
  - rewrite (IH Hds eq_refl).
    rewrite all_chars_cons in Hds. apply andb_true_iff in Hds as [Hc' _].
    cbn [String.append starts_with_digit]. rewrite Hc'. reflexivity.
Qed.


Lemma clock_of_strip (hs ms : string) :
  all_chars is_digit hs = true -> nonempty hs = true ->
  all_chars is_digit ms = true ->
  strip (clock_of hs ms) = clock_of hs ms /\ no_paren (clock_of hs ms) = true.
Proof.
  intros Hh Hhn Hm. unfold clock_of. split.
  - unfold strip.
    assert (Hl : lstrip (hs +:+ ":" +:+ ms) = hs +:+ ":" +:+ ms).
    { destruct hs as [|c hs]; [discriminate|].
      rewrite all_chars_cons in Hh. apply andb_true_iff in Hh as [Hc _].
      apply lstrip_head, digit_not_space, Hc. }
    rewrite Hl. apply rstrip_fixed.
    rewrite !all_chars_app, (digits_not_spaces _ Hh), (digits_not_spaces _ Hm).
    reflexivity.
  - unfold no_paren. rewrite !all_chars_app.
    assert (Hd : forall s, all_chars is_digit s = true ->
                   all_chars (fun c => negb (Ascii.eqb "(" c)) s = true).
    { induction s as [|c s IH]; [reflexivity|].
      rewrite !all_chars_cons. intros H. apply andb_true_iff in H as [Hc Hs].
      rewrite (digit_not_char c "(" eq_refl Hc), (IH Hs). reflexivity. }
    rewrite (Hd _ Hh), (Hd _ Hm). reflexivity.
Qed.

End ParseShapes.

Section BlankTail.
Import Str TimeModel.



Lemma blank_no_paren (sp : string) :
  all_chars is_space sp = true -> no_paren sp = true.
Proof.
  unfold no_paren. induction sp as [|c sp IH]; [reflexivity|].
  rewrite !all_chars_cons. intros H. apply andb_true_iff in H as [Hc Hs].
  rewrite (space_not_char c "(" eq_refl Hc), (IH Hs). reflexivity.
Qed.

End BlankTail.



(* ================================================================== *)
(** * The stable sort *)
(* ================================================================== *)

Section StableSortFacts.
Context {A K : Type} (ltb : K -> K -> bool) (key : A -> K).

(** What a strict weak order gives: it is asymmetric, and an element
    below [b] is below everything that ties with [b]. *)
Hypothesis ltb_asym : forall a b, ltb a b = true -> ltb b a = false.
Hypothesis ltb_tie : forall a b c,
    ltb a b = true -> ltb b c = false -> ltb c b = false -> ltb a c = true.

Lemma insert_key_perm (x : A) (l : list A) :
  Permutation (insert_key ltb key x l) (x :: l).
Proof.
  induction l as [|y l IH]; simpl; [reflexivity|].
  destruct (ltb (key y) (key x)); [|reflexivity].
  rewrite IH. apply perm_swap.
Qed.

Lemma sort_key_perm (l : list A) : Permutation (sort_key ltb key l) l.
Proof.
  induction l as [|x l IH]; simpl; [reflexivity|].
  rewrite insert_key_perm. constructor. exact IH.
Qed.

Lemma insert_key_hd (x y : A) (l : list A) :
  ltb (key y) (key x) = true -> HdRel (key_le ltb key) y l ->
  HdRel (key_le ltb key) y (insert_key ltb key x l).
Proof.
  intros Hyx Hhd. destruct l as [|z l]; simpl.
  - constructor. apply ltb_asym, Hyx.
  - destruct (ltb (key z) (key x)).
    + constructor. inversion Hhd; assumption.
    + constructor. apply ltb_asym, Hyx.
Qed.

Lemma insert_key_sorted (x : A) (l : list A) :
  Sorted (key_le ltb key) l -> Sorted (key_le ltb key) (insert_key ltb key x l).
Proof.
  induction 1 as [|y l Hs IH Hhd]; simpl.
  - repeat constructor.
  - destruct (ltb (key y) (key x)) eqn:E.
    + constructor; [exact IH|]. apply insert_key_hd; assumption.
    + constructor; [constructor; assumption|]. constructor. exact E.
Qed.

Lemma sort_key_sorted (l : list A) : Sorted (key_le ltb key) (sort_key ltb key l).
Proof.
  induction l as [|x l IH]; simpl; [constructor|].
  apply insert_key_sorted, IH.
Qed.

Lemma insert_key_ties (k : K) (x : A) (l : list A) :
  List.filter (ties ltb key k) (insert_key ltb key x l)
  = List.filter (ties ltb key k) (x :: l).
Proof.
  induction l as [|y l IH]; [reflexivity|].
  cbn [insert_key]. destruct (ltb (key y) (key x)) eqn:E; [|reflexivity].
  cbn [List.filter] in IH |- *. rewrite IH.
  destruct (ties ltb key k x) eqn:Tx; [|reflexivity].
  destruct (ties ltb key k y) eqn:Ty; [|reflexivity].
  exfalso. unfold ties in Tx, Ty.
  apply andb_true_iff in Tx as [Tx1 Tx2]. apply andb_true_iff in Ty as [Ty1 Ty2].
  apply negb_true_iff in Tx1, Tx2, Ty1, Ty2.
  rewrite (ltb_tie _ _ _ E Tx1 Tx2) in Ty1. discriminate.
Qed.

(** Stability: the elements whose keys tie with [k] keep their order. *)
Lemma sort_key_stable (k : K) (l : list A) :
  List.filter (ties ltb key k) (sort_key ltb key l) = List.filter (ties ltb key k) l.
Proof.
  induction l as [|x l IH]; [reflexivity|].
  cbn [sort_key]. rewrite insert_key_ties.
  cbn [List.filter]. rewrite IH. reflexivity.
Qed.
End StableSortFacts.

Lemma Zltb_asym (a b : Z) : (a <? b) = true -> (b <? a) = false.
Proof. rewrite Z.ltb_lt, Z.ltb_ge. lia. Qed.

Lemma Zltb_tie (a b c : Z) :
  (a <? b) = true -> (b <? c) = false -> (c <? b) = false -> (a <? c) = true.
Proof. rewrite !Z.ltb_lt, !Z.ltb_ge. lia. Qed.

Section FloatOrder.

Ltac rank_cases :=
  repeat match goal with
         | |- context [(?x <? ?y)] => destruct (Z.ltb_spec x y)
         | |- context [(?x =? ?y)] => destruct (Z.eqb_spec x y)
         end;
  cbn; try reflexivity; try discriminate; try lia.

Ltac rank_props :=
  unfold rank_ltb;
  rewrite ?orb_true_iff, ?orb_false_iff, ?andb_true_iff, ?andb_false_iff,
    ?Z.ltb_lt, ?Z.ltb_ge, ?Z.eqb_eq, ?Z.eqb_neq.

Lemma rank_ltb_asym (a b : Z * Z * Z) : rank_ltb a b = true -> rank_ltb b a = false.
Proof.
  destruct a as [[a1 a2] a3], b as [[b1 b2] b3]. rank_props. lia.
Qed.

Lemma rank_ltb_tie (a b c : Z * Z * Z) :
  rank_ltb a b = true -> rank_ltb b c = false -> rank_ltb c b = false ->
  rank_ltb a c = true.
Proof.
  destruct a as [[a1 a2] a3], b as [[b1 b2] b3], c as [[c1 c2] c3].
  rank_props. lia.
Qed.

(** Two floats that are numbers compare as their ranks do. *)
Lemma float_compare_rank (x y : float) :
  is_nan x = false -> is_nan y = false ->
  SFcompare x y
  = Some (if rank_ltb (float_rank x) (float_rank y) then Lt
          else if rank_ltb (float_rank y) (float_rank x) then Gt else Eq).
Proof.
  destruct x as [sx|sx| |sx mx ex], y as [sy|sy| |sy my ey];
    try discriminate; intros _ _;
    try (destruct sx; reflexivity); try (destruct sy; reflexivity);
    try (destruct sx, sy; reflexivity).
  unfold SFcompare, float_rank, rank_ltb.
  change (Pos.compare_cont Eq mx my) with (Pos.compare mx my).
  destruct sx, sy; try reflexivity;
    destruct (Z.compare_spec ex ey), (Pos.compare_spec mx my); subst;
    cbn [CompOpp]; rank_cases.
Qed.

Lemma float_lt_rank (x y : float) :
  is_nan x = false -> is_nan y = false ->
  float_lt x y = rank_ltb (float_rank x) (float_rank y).
Proof.
  intros Hx Hy. unfold float_lt, SFltb. rewrite (float_compare_rank x y Hx Hy).
  destruct (rank_ltb (float_rank x) (float_rank y)); [reflexivity|].
  destruct (rank_ltb (float_rank y) (float_rank x)); reflexivity.
Qed.

Lemma float_le_rank (x y : float) :
  is_nan x = false -> is_nan y = false ->
  float_le x y = negb (rank_ltb (float_rank y) (float_rank x)).
Proof.
  intros Hx Hy. unfold float_le, SFleb. rewrite (float_compare_rank x y Hx Hy).
  destruct (rank_ltb (float_rank x) (float_rank y)) eqn:E.
  - rewrite (rank_ltb_asym _ _ E). reflexivity.
  - destruct (rank_ltb (float_rank y) (float_rank x)); reflexivity.
Qed.

Lemma float_eq_rank (x y : float) :
  is_nan x = false -> is_nan y = false ->
  float_eq x y = negb (rank_ltb (float_rank x) (float_rank y))
                 && negb (rank_ltb (float_rank y) (float_rank x)).
Proof.
  intros Hx Hy. unfold float_eq, SFeqb. rewrite (float_compare_rank x y Hx Hy).
  destruct (rank_ltb (float_rank x) (float_rank y)); [reflexivity|].
  destruct (rank_ltb (float_rank y) (float_rank x)); reflexivity.
Qed.

Lemma float_eq_nan (x y : float) : is_nan y = true -> float_eq x y = false.
Proof. destruct y; try discriminate. intros _. destruct x; reflexivity. Qed.
End FloatOrder.

Section SortAgreement.
Context {A K1 K2 : Type} (ltb1 : K1 -> K1 -> bool) (key1 : A -> K1)
        (ltb2 : K2 -> K2 -> bool) (key2 : A -> K2).

(** Two comparisons that agree on the keys of a list sort it alike. *)
Lemma insert_key_agree (x : A) (l : list A) :
  (forall y, In y l -> ltb1 (key1 y) (key1 x) = ltb2 (key2 y) (key2 x)) ->
  insert_key ltb1 key1 x l = insert_key ltb2 key2 x l.
Proof.
  induction l as [|y l IH]; intros H; [reflexivity|].
  cbn [insert_key]. rewrite (H y (or_introl eq_refl)).
  destruct (ltb2 (key2 y) (key2 x)); [|reflexivity].
  rewrite IH; [reflexivity|]. intros z Hz. apply H. right. exact Hz.
Qed.

Lemma sort_key_agree (l : list A) :
  (forall x y, In x l -> In y l -> ltb1 (key1 x) (key1 y) = ltb2 (key2 x) (key2 y)) ->
  sort_key ltb1 key1 l = sort_key ltb2 key2 l.
Proof.
  induction l as [|x l IH]; intros H; [reflexivity|].
  cbn [sort_key]. rewrite IH by (intros a b Ha Hb; apply H; right; assumption).
  apply insert_key_agree. intros y Hy. apply H; [right|left; reflexivity].
  exact (Permutation_in y (sort_key_perm ltb2 key2 l) Hy).
Qed.
End SortAgreement.

(* ================================================================== *)
(** * Deduplication and the order of the results *)
(* ================================================================== *)

Section DedupFacts.
Import RailNetwork.

Lemma NoDup_snoc {X} (l : list X) (x : X) :
  List.NoDup l -> ~ In x l -> List.NoDup (l ++ [x])%list.
Proof.
  intros Hl Hx.
  apply (Permutation.Permutation_NoDup (l := x :: l)).
  - apply Permutation_cons_append.
  - constructor; [exact Hx|exact Hl].
Qed.

Lemma dedup_step_inv st it : dedup_inv st -> dedup_inv (dedup_step st it).
Proof.
  destruct st as [seen unique]. intros [Hseen Hnd]. unfold dedup_step.
  cbn [fst snd] in *.
  destruct (decide (Itin.legs_key it ∈ seen)) as [Hin|Hnin].
  - split; assumption.
  - split; cbn [fst snd].
    + intros k. rewrite map_app, in_app_iff, elem_of_union, elem_of_singleton.
      rewrite Hseen. cbn [map In]. intuition congruence.
    + rewrite map_app. cbn [map]. apply NoDup_snoc; [exact Hnd|].
      rewrite <- Hseen. exact Hnin.
Qed.

Lemma dedup_step_keys st it k :
  dedup_inv st ->
  In k (map Itin.legs_key (snd (dedup_step st it)))
  <-> In k (map Itin.legs_key (snd st)) \/ k = Itin.legs_key it.
Proof.
  destruct st as [seen unique]. intros [Hseen _]. unfold dedup_step.
  cbn [fst snd] in *.
  destruct (decide (Itin.legs_key it ∈ seen)) as [Hin|Hnin]; cbn [snd].
  - apply Hseen in Hin. intuition congruence.
  - rewrite map_app, in_app_iff. cbn [map In]. intuition congruence.
Qed.

Lemma dedup_step_members st it x :
  In x (snd (dedup_step st it)) -> In x (snd st) \/ x = it.
Proof.
  destruct st as [seen unique]. unfold dedup_step. cbn [snd].
  destruct (decide (Itin.legs_key it ∈ seen)); cbn [snd]; [auto|].
  rewrite in_app_iff. cbn [In]. intuition.
Qed.

Lemma dedup_fold (l : list Itinerary) :
  forall st, dedup_inv st ->
    dedup_inv (fold_left dedup_step l st)
    /\ (forall k, In k (map Itin.legs_key (snd (fold_left dedup_step l st)))
                  <-> In k (map Itin.legs_key (snd st))
                      \/ In k (map Itin.legs_key l))
    /\ (forall x, In x (snd (fold_left dedup_step l st)) ->
                  In x (snd st) \/ In x l).
Proof.
  induction l as [|it l IH]; intros st Hst; cbn [fold_left].
  - split; [exact Hst|]. split; [cbn; tauto|auto].
  - destruct (IH _ (dedup_step_inv st it Hst)) as (Hinv & Hkeys & Hmem).
    split; [exact Hinv|]. split.
    + intros k. rewrite Hkeys, (dedup_step_keys st it k Hst).
      cbn [map In]. intuition.
    + intros x Hx. destruct (Hmem x Hx) as [H|H]; [|cbn [In]; auto].
      destruct (dedup_step_members _ _ _ H); cbn [In]; auto.
Qed.

Lemma dedup_inv_init : dedup_inv (∅, []).
Proof.
  split; cbn [fst snd map].
  - intros k. rewrite elem_of_empty. cbn. tauto.
  - constructor.
Qed.

Lemma dedup_NoDup (l : list Itinerary) : List.NoDup (map Itin.legs_key (dedup l)).
Proof. apply (dedup_fold l _ dedup_inv_init). Qed.

Lemma dedup_keys (l : list Itinerary) (k : list string) :
  In k (map Itin.legs_key (dedup l)) <-> In k (map Itin.legs_key l).
Proof.
  destruct (dedup_fold l _ dedup_inv_init) as (_ & H & _).
  unfold dedup. rewrite H. cbn. tauto.
Qed.

Lemma dedup_members (l : list Itinerary) (x : Itinerary) :
  In x (dedup l) -> In x l.
Proof.
  destruct (dedup_fold l _ dedup_inv_init) as (_ & _ & H).
  intros Hx. destruct (H x Hx) as [[]|]; assumption.
Qed.

(** [search] returns a rearrangement of the deduplicated candidates. *)
Lemma search_perm net dc ac tt days max_stops min_transfer tc sb :
  Permutation
    (search net dc ac tt days max_stops min_transfer tc sb)
    (dedup (candidates net dc ac tt days max_stops min_transfer)).
Proof.
  unfold search. destruct (String.eqb sb "price"); apply sort_key_perm.
Qed.
End DedupFacts.

(** C6.  The list returned by [search] never holds two itineraries with the
    same ordered sequence of route ids, and the sequences it holds are
    exactly those of the itineraries found before deduplication.  [search]
    reads the schedule and its arguments only and changes neither, so its
    result is a function of them: two identical calls on one schedule
    return the same list, hence the same set of sequences. *)
Theorem search_no_duplicate_sequences
    (net : RailNetwork.t)
    (departure_city arrival_city train_type day_contains : option string)
    (max_stops min_transfer_minutes : Z) (travel_class sort_by : string) :
  let first_call :=
    RailNetwork.search net departure_city arrival_city train_type day_contains
                       max_stops min_transfer_minutes travel_class sort_by in
  let second_call :=
    RailNetwork.search net departure_city arrival_city train_type day_contains
                       max_stops min_transfer_minutes travel_class sort_by in
  List.NoDup (map Itin.legs_key first_call)
  /\ (forall k, In k (map Itin.legs_key first_call)
               <-> In k (map Itin.legs_key
                           (RailNetwork.candidates net departure_city arrival_city
                              train_type day_contains max_stops min_transfer_minutes)))
  /\ (forall k, In k (map Itin.legs_key first_call)
               <-> In k (map Itin.legs_key second_call)).
Proof.
  cbv zeta.
  pose proof (search_perm net departure_city arrival_city train_type day_contains
                max_stops min_transfer_minutes travel_class sort_by) as Hp.
  split; [|split].
  - apply (Permutation.Permutation_NoDup (l := map Itin.legs_key
             (RailNetwork.dedup (RailNetwork.candidates net departure_city
                arrival_city train_type day_contains max_stops min_transfer_minutes)))).
    + apply Permutation_map. symmetry. exact Hp.
    + apply dedup_NoDup.
  - intros k.
    rewrite <- (dedup_keys (RailNetwork.candidates net departure_city arrival_city
                  train_type day_contains max_stops min_transfer_minutes) k).
    split; intros Hk.
    + exact (Permutation_in k (Permutation_map Itin.legs_key Hp) Hk).
    + exact (Permutation_in k (Permutation_map Itin.legs_key (Permutation_sym Hp)) Hk).
  - tauto.
Qed.

Section FareOrder.

Lemma Sorted_among {A : Type} (R1 R2 : A -> A -> Prop) (l : list A) :
  (forall a b, In a l -> In b l -> R1 a b -> R2 a b) -> Sorted R1 l -> Sorted R2 l.
Proof.
  intros H Hs. induction Hs as [|a l Hs IH Hhd]; [constructor|].
  constructor.
  - apply IH. intros x y Hx Hy. apply H; right; assumption.
  - destruct Hhd as [|b l Hab]; constructor.
    apply H; [left; reflexivity|right; left; reflexivity|exact Hab].
Qed.

Lemma filter_none {A : Type} (f : A -> bool) (l : list A) :
  (forall a, In a l -> f a = false) -> List.filter f l = [].
Proof.
  induction l as [|a l IH]; intros H; [reflexivity|].
  cbn [List.filter]. rewrite (H a (or_introl eq_refl)).
  apply IH. intros b Hb. apply H. right. exact Hb.
Qed.

(** On fares that are numbers the sort by [<] of floats is the sort by
    rank. *)
Lemma sort_by_fare_rank (key : Itinerary -> float) (l : list Itinerary) :
  Forall (fun it => is_nan (key it) = false) l ->
  sort_key float_lt key l = sort_key rank_ltb (fun it => float_rank (key it)) l.
Proof.
  intros Hl. rewrite List.Forall_forall in Hl.
  apply (sort_key_agree float_lt key rank_ltb (fun it => float_rank (key it))).
  intros x y Hx Hy. apply float_lt_rank; auto.
Qed.
End FareOrder.

(** C7, as stated, fails for a fare that is not a number ([float] accepts
    the text "nan" of a rate column): every comparison with NaN is false, so
    the sort leaves the fares 2.0, NaN, 1.0 as they are, and a result with
    the fare 2.0 stands before one with the fare 1.0. *)
Lemma search_by_price_with_nan_rate :
  let results :=
    RailNetwork.search (RailNetwork.new nan_rate_routes) (Some "A") (Some "B")
                       None None 0 15 "second" "price" in
  map Itin.legs_key results = [["N1"]; ["N2"]; ["N3"]]
  /\ map (fun it => Itin.price it "second") results
     = [float_of_Z 2; S754_nan; float_of_Z 1]
  /\ float_lt (float_of_Z 1) (float_of_Z 2) = true
  /\ ~ Sorted (fun a b => float_le (Itin.price a "second") (Itin.price b "second") = true)
              results.
Proof.
  cbv zeta. split; [vm_compute; reflexivity|]. split; [vm_compute; reflexivity|].
  split; [vm_compute; reflexivity|].
  intros Hs.
  assert (E : RailNetwork.search (RailNetwork.new nan_rate_routes) (Some "A") (Some "B")
                None None 0 15 "second" "price"
              = map (fun r => RailNetwork.itinerary_of [r]) nan_rate_routes)
    by (vm_compute; reflexivity).
  rewrite E in Hs. clear E.
  inversion Hs as [|a l _ Hhd]; subst.
  inversion Hhd as [|b l' Hab]; subst.
  vm_compute in Hab. discriminate Hab.
Qed.

(** C7, amended.  With any [sort_by] other than "price" the total travel
    minutes of consecutive results never decrease.  With [sort_by = "price"],
    if no fare of a result is NaN, the fares of consecutive results, at the
    requested class, never decrease.  In both cases the results whose keys
    are equal keep the order in which the deduplicated candidates were
    found. *)
Theorem search_sorted_and_stable
    (net : RailNetwork.t)
    (departure_city arrival_city train_type day_contains : option string)
    (max_stops min_transfer_minutes : Z) (travel_class sort_by : string) :
  let results :=
    RailNetwork.search net departure_city arrival_city train_type day_contains
                       max_stops min_transfer_minutes travel_class sort_by in
  let found :=
    RailNetwork.dedup
      (RailNetwork.candidates net departure_city arrival_city train_type
                              day_contains max_stops min_transfer_minutes) in
  if String.eqb sort_by "price" then
    Forall (fun it => is_nan (Itin.price it travel_class) = false) results ->
    Sorted (fun a b => float_le (Itin.price a travel_class) (Itin.price b travel_class)
                       = true) results
    /\ forall fare : float,
        List.filter (fun it => float_eq (Itin.price it travel_class) fare) results
        = List.filter (fun it => float_eq (Itin.price it travel_class) fare) found
  else
    Sorted (fun a b => Itin.total_travel_minutes a <= Itin.total_travel_minutes b)
           results
    /\ forall minutes : Z,
        List.filter (fun it => Itin.total_travel_minutes it =? minutes) results
        = List.filter (fun it => Itin.total_travel_minutes it =? minutes) found.
Proof.
  cbv zeta. unfold RailNetwork.search.
  destruct (String.eqb sort_by "price").
  - set (found := RailNetwork.dedup _).
    set (key := fun it => Itin.price it travel_class).
    intros Hres.
    assert (Hfound : Forall (fun it => is_nan (key it) = false) found).
    { rewrite List.Forall_forall in Hres. apply List.Forall_forall. intros it Hin.
      apply Hres.
      exact (Permutation_in it (Permutation_sym (sort_key_perm float_lt key found)) Hin). }
    rewrite (sort_by_fare_rank key found Hfound) in Hres |- *.
    rewrite List.Forall_forall in Hres, Hfound.
    split.
    + apply (Sorted_among (key_le rank_ltb (fun it => float_rank (key it))));
        [|apply (sort_key_sorted rank_ltb _ rank_ltb_asym)].
      intros a b Ha Hb Hab. unfold key_le in Hab.
      pose proof (float_le_rank (key a) (key b) (Hres a Ha) (Hres b Hb)) as E.
      cbv beta in Hab. rewrite Hab in E. exact E.
    + intros fare. destruct (is_nan fare) eqn:Hfare.
      * rewrite !filter_none; [reflexivity| |];
          intros it _; apply float_eq_nan, Hfare.
      * pose proof (sort_key_stable rank_ltb (fun it => float_rank (key it))
                      rank_ltb_tie (float_rank fare) found) as Hst.
        rewrite (List.filter_ext_in
                   (fun it => float_eq (Itin.price it travel_class) fare)
                   (ties rank_ltb (fun it => float_rank (key it)) (float_rank fare))
                   (sort_key rank_ltb (fun it => float_rank (key it)) found)).
        2:{ intros it Hin. apply (float_eq_rank (key it) fare (Hres it Hin) Hfare). }
        rewrite (List.filter_ext_in
                   (fun it => float_eq (Itin.price it travel_class) fare)
                   (ties rank_ltb (fun it => float_rank (key it)) (float_rank fare))
                   found).
        2:{ intros it Hin. apply (float_eq_rank (key it) fare (Hfound it Hin) Hfare). }
        exact Hst.
  - split.
    + eapply Sorted_ind with
        (P := fun l => Sorted (fun a b => Itin.total_travel_minutes a
                                         <= Itin.total_travel_minutes b) l);
        [constructor| |apply (sort_key_sorted Z.ltb _ Zltb_asym)].
      intros a l _ IH Hhd. constructor; [exact IH|].
      destruct Hhd as [|b l Hab]; constructor.
      unfold key_le in Hab. apply Z.ltb_ge in Hab. exact Hab.
    + intros minutes.
      pose proof (sort_key_stable Z.ltb Itin.total_travel_minutes
                    Zltb_tie minutes) as Hst.
      assert (Hext : forall it,
                 (Itin.total_travel_minutes it =? minutes)
                 = ties Z.ltb Itin.total_travel_minutes minutes it).
      { intros it. unfold ties.
        destruct (Z.eqb_spec (Itin.total_travel_minutes it) minutes),
          (Z.ltb_spec (Itin.total_travel_minutes it) minutes),
          (Z.ltb_spec minutes (Itin.total_travel_minutes it));
          simpl; try reflexivity; lia. }
      rewrite !(List.filter_ext _ _ Hext). apply Hst.
Qed.

Lemma search_sorted_and_stable_witness :
  Forall (fun it => is_nan (Itin.price it "second") = false)
         (RailNetwork.search (RailNetwork.new rounded_fare_routes) (Some "A") (Some "B")
                             None None 1 15 "second" "price")
  /\ Sorted (fun a b => float_le (Itin.price a "second") (Itin.price b "second") = true)
            (RailNetwork.search (RailNetwork.new rounded_fare_routes) (Some "A") (Some "B")
                                None None 1 15 "second" "price")
  /\ map Itin.legs_key
         (RailNetwork.search (RailNetwork.new rounded_fare_routes) (Some "A") (Some "B")
                             None None 1 15 "second" "price")
     = [["Y1"; "Y2"]; ["X1"; "X2"]]
  /\ map (fun it => Itin.price it "second")
         (RailNetwork.search (RailNetwork.new rounded_fare_routes) (Some "A") (Some "B")
                             None None 1 15 "second" "price")
     = [float_0_30000000000000004; float_0_30000000000000004].
Proof.
  assert (H : Forall (fun it => is_nan (Itin.price it "second") = false)
                (RailNetwork.search (RailNetwork.new rounded_fare_routes) (Some "A")
                   (Some "B") None None 1 15 "second" "price")).
  { vm_compute. repeat constructor. }
  split; [exact H|].
  split; [|split; vm_compute; reflexivity].
  exact (proj1 (search_sorted_and_stable (RailNetwork.new rounded_fare_routes) (Some "A")
                  (Some "B") None None 1 15 "second" "price" H)).
Defined.

(* ================================================================== *)
(** * Transfers of the itineraries returned by [search] *)
(* ================================================================== *)

Section TransferFacts.
Import RailNetwork.

Lemma direct_gaps net dc ac tt days m it :
  In it (direct net dc ac tt days) -> gaps_ok m it.
Proof.
  unfold direct. rewrite in_flat_map. intros (r & _ & Hit).
  destruct (negb (_match r dc ac tt days)); [destruct Hit|].
  destruct Hit as [<-|[]]. intros p [].
Qed.

Lemma one_stop_gaps net dc ac tt days m it :
  In it (_build_one_stop net dc ac tt days m) -> gaps_ok m it.
Proof.
  unfold _build_one_stop. rewrite in_flat_map. intros (r1 & _ & H).
  rewrite in_flat_map in H. destruct H as (r2 & _ & H).
  destruct (negb (_match r2 _ ac tt days)); [destruct H|].
  destruct (_transfer_gap_ok r1 r2 m) eqn:E; [|destruct H].
  destruct H as [<-|[]]. intros p [<-|[]]. exact E.
Qed.

Lemma two_stops_gaps net dc ac tt days m it :
  In it (_build_two_stops net dc ac tt days m) -> gaps_ok m it.
Proof.
  unfold _build_two_stops. rewrite in_flat_map. intros (r1 & _ & H).
  rewrite in_flat_map in H. destruct H as (r2 & _ & H).
  destruct (negb (_match r2 _ None tt days)); [destruct H|].
  destruct (_transfer_gap_ok r1 r2 m) eqn:E12; cbn [negb] in H; [|destruct H].
  rewrite in_flat_map in H. destruct H as (r3 & _ & H).
  destruct (negb (_match r3 _ ac tt days)); [destruct H|].
  destruct (_transfer_gap_ok r2 r3 m) eqn:E23; [|destruct H].
  destruct H as [<-|[]]. intros p [<-|[<-|[]]]; assumption.
Qed.

(** [_transfer_gap_ok] measures the gap by the rule of [duration_minutes]. *)
Lemma transfer_gap_ok_iff (r_prev r_next : TrainRoute) (m : Z) :
  _transfer_gap_ok r_prev r_next m = true
  <-> m <= TimeModel.duration_minutes (arr_min r_prev) (dep_min r_next).
Proof.
  unfold _transfer_gap_ok, TimeModel.duration_minutes.
  destruct (Z.ltb_spec (dep_min r_next - arr_min r_prev) 0),
    (Z.geb_spec (dep_min r_next) (arr_min r_prev)); rewrite Z.geb_le; lia.
Qed.

(** The legacy gate: every transfer of every result leaves at least
    [min_transfer_minutes], counted with one day added when the next
    departure is numerically earlier. *)
Lemma search_transfers_min_gap net dc ac tt days max_stops m tc sb it :
  In it (search net dc ac tt days max_stops m tc sb) -> gaps_ok m it.
Proof.
  intros Hin.
  apply (Permutation_in _ (search_perm net dc ac tt days max_stops m tc sb)) in Hin.
  apply dedup_members in Hin. unfold candidates in Hin.
  repeat match type of Hin with
         | In _ (if ?b then _ else _) => destruct b
         | In _ (_ ++ _)%list => apply in_app_iff in Hin as [Hin|Hin]
         end;
    eauto using direct_gaps, one_stop_gaps, two_stops_gaps.
Qed.
End TransferFacts.

(** C1 at the schedule of the repository's own layover test: [search] takes
    no layover policy and never consults [LayoverValidator]; with one stop
    allowed it returns R004 -> R005, whose 180-minute daytime transfer the
    strict policy rejects, although it passes the minimum-transfer gate. *)
Lemma search_returns_rejected_layover :
  let results :=
    RailNetwork.search layover_test_network (Some "Paris") (Some "Berlin")
                       None None 1 15 "second" "duration" in
  map Itin.legs_key results = [["R001"]; ["R002"; "R003"]; ["R004"; "R005"]]
  /\ exists it prev next,
       In it results
       /\ In (prev, next) (Itin.adjacent (legs it))
       /\ Itin.legs_key it = ["R004"; "R005"]
       /\ RailNetwork._transfer_gap_ok (route prev) (route next) 15 = true
       /\ LayoverValidator.is_layover_acceptable
            (arr_min (route prev)) (dep_min (route next)) "strict"
          = (false, "Layover too long: 180 min (max: 120 min for daytime)").
Proof.
  cbv zeta. split; [vm_compute; reflexivity|].
  destruct layover_test_routes as [|r1 [|r2 [|r3 [|r4 [|r5 rest]]]]] eqn:E;
    try (vm_compute in E; discriminate).
  exists (RailNetwork.itinerary_of [r4; r5]), {| route := r4 |}, {| route := r5 |}.
  vm_compute in E. injection E as <- <- <- <- <- <-.
  split; [vm_compute; tauto|].
  split; [left; reflexivity|].
  repeat split.
Qed.

(* ================================================================== *)
(** * The booking ledger *)
(* ================================================================== *)

Section LedgerFacts.
Import Str Booking.

Lemma nonempty_true (s : string) : nonempty s = true <-> s <> "".
Proof. destruct s; simpl; split; congruence. Qed.

Lemma new_Client_valid (t : traveler) :
  valid_traveler t ->
  let '(first, last, id_num, age) := t in
  new_Client first last id_num age = Ok (client_of t).
Proof.
  destruct t as [[[first last] id_num] age]. intros (Ha & Hf & Hl & Hi).
  unfold new_Client, client_of.
  apply nonempty_true in Hf, Hl, Hi. rewrite Hf, Hl, Hi.
  destruct (Z.ltb_spec age 0); [lia|]. reflexivity.
Qed.

Lemma client_eqb_refl (c : Client) : client_eqb c c = true.
Proof. unfold client_eqb. rewrite !String.eqb_refl. reflexivity. Qed.

Lemma client_eqb_key (c1 c2 : Client) :
  client_eqb c1 c2 = true <-> client_key c1 = client_key c2.
Proof.
  unfold client_eqb, client_key. rewrite andb_true_iff, !String.eqb_eq.
  split; [intros [-> ->]; reflexivity|intros [= -> ->]; auto].
Qed.

(** [_connections_equal] compares the ordered route-id sequences. *)
Lemma zip_route_ids_equal_spec (l1 l2 : list Leg) :
  length l1 = length l2 ->
  zip_route_ids_equal l1 l2 = true
  <-> map (fun leg => route_id (route leg)) l1
      = map (fun leg => route_id (route leg)) l2.
Proof.
  revert l2. induction l1 as [|a l1 IH]; intros [|b l2] Hlen;
    try discriminate; cbn [zip_route_ids_equal map]; [tauto|].
  injection Hlen as Hlen.
  destruct (String.eqb_spec (route_id (route a)) (route_id (route b))) as [E|E];
    cbn [negb].
  - rewrite (IH l2 Hlen), E. split; [intros ->; reflexivity|intros [= ->]; reflexivity].
  - split; [discriminate|intros [= H _]; contradiction].
Qed.

Lemma connections_equal_spec (c1 c2 : Itinerary) :
  _connections_equal c1 c2 = true <-> Itin.legs_key c1 = Itin.legs_key c2.
Proof.
  unfold _connections_equal, Itin.legs_key.
  destruct (Nat.eqb_spec (length (legs c1)) (length (legs c2))) as [E|E]; cbn [negb].
  - apply zip_route_ids_equal_spec, E.
  - split; [discriminate|]. intros H. exfalso. apply E.
    rewrite <- (length_map (fun leg => route_id (route leg)) (legs c1)), H.
    apply length_map.
Qed.

Lemma scan_trip_ids_spec (tr : gmap string Trip) (ids : list string) (conn : Itinerary) :
  (forall id, In id ids -> is_Some (tr !! id)) ->
  exists b, scan_trip_ids tr ids conn = Ok b
            /\ (b = true <-> exists id trip,
                   In id ids /\ tr !! id = Some trip
                   /\ Itin.legs_key (connection trip) = Itin.legs_key conn).
Proof.
  induction ids as [|id ids IH]; intros Hall.
  - exists false. split; [reflexivity|].
    split; [discriminate|intros (? & ? & [] & _)].
  - cbn [scan_trip_ids].
    destruct (Hall id (or_introl eq_refl)) as [trip Htrip]. rewrite Htrip.
    destruct (_connections_equal (connection trip) conn) eqn:E.
    + exists true. split; [reflexivity|]. split; [|reflexivity]. intros _.
      exists id, trip. apply connections_equal_spec in E. cbn [In]. auto.
    + destruct IH as (b & Hb & Hiff); [intros; apply Hall; cbn [In]; auto|].
      exists b. split; [exact Hb|]. rewrite Hiff. split.
      * intros (id' & trip' & Hin & H1 & H2). exists id', trip'. cbn [In]. auto.
      * intros (id' & trip' & [<-|Hin] & H1 & H2); [|eauto].
        rewrite Htrip in H1. injection H1 as <-.
        apply connections_equal_spec in H2. congruence.
Qed.

(** On a consistent ledger the lookup through the index decides whether
    the client holds the connection, and it never raises. *)
Lemma has_booking_spec (bs : BookingSystem) (c : Client) (conn : Itinerary) :
  ledger_ok bs ->
  exists b, _has_booking_for_connection bs c conn = Ok b
            /\ (b = true <-> holds_connection bs (client_key c) conn).
Proof.
  intros Hok. unfold _has_booking_for_connection.
  change (lower (last_name c), id_number c) with (client_key c).
  destruct (scan_trip_ids_spec (trips bs)
              (elements (default ∅ (client_trips_index bs !! client_key c))) conn)
    as (b & Hb & Hiff).
  - intros id Hin. apply list_elem_of_In, elem_of_elements, Hok in Hin.
    destruct Hin as (trip & Ht & _). eauto.
  - exists b. split; [exact Hb|]. rewrite Hiff. unfold holds_connection. split.
    + intros (id & trip & Hin & Ht & Hk). exists id, trip.
      apply list_elem_of_In, elem_of_elements, Hok in Hin.
      destruct Hin as (trip' & Ht' & Hc). rewrite Ht in Ht'. injection Ht' as <-. auto.
    + intros (id & trip & Ht & Hc & Hk). exists id, trip.
      split; [|auto]. apply list_elem_of_In, elem_of_elements, Hok. eauto.
Qed.
End LedgerFacts.

Section BookingSteps.
Import Str Booking.

Lemma parse_travelers_valid (ts : list traveler) :
  forall seen acc registry,
    Forall valid_traveler ts ->
    List.NoDup (map traveler_key ts) ->
    (forall t, In t ts -> traveler_key t ∉ seen) ->
    parse_travelers ts seen acc registry
    = (fold_left (fun m t => clients_add (client_of t) m) ts registry,
       Ok (acc ++ map client_of ts)%list).
Proof.
  induction ts as [|t ts IH]; intros seen acc registry Hv Hnd Hseen.
  - cbn. rewrite app_nil_r. reflexivity.
  - inversion Hv as [|? ? Hvt Hvts]; subst.
    inversion Hnd as [|? ? Hnotin Hnd']; subst.
    pose proof (new_Client_valid t Hvt) as Hc.
    destruct t as [[[first last] id_num] age].
    cbn [parse_travelers]. rewrite Hc.
    destruct (decide (client_key (client_of (first, last, id_num, age)) ∈ seen))
      as [Hin|Hnin].
    + exfalso. apply (Hseen (first, last, id_num, age)); [left; reflexivity|exact Hin].
    + rewrite IH; [|exact Hvts|exact Hnd'|].
      * cbn [fold_left map]. rewrite <- app_assoc. reflexivity.
      * intros t' Hin'. rewrite elem_of_union, elem_of_singleton.
        intros [Heq|Hs].
        -- apply Hnotin. change (traveler_key (first, last, id_num, age))
             with (client_key (client_of (first, last, id_num, age))).
           rewrite <- Heq. apply in_map, Hin'.
        -- apply (Hseen t'); [right; exact Hin'|exact Hs].
Qed.

Lemma check_not_booked_spec (bs : BookingSystem) (cs : list Client) (conn : Itinerary) :
  ledger_ok bs ->
  (check_not_booked bs cs conn = Ok tt
   /\ forall c, In c cs -> ~ holds_connection bs (client_key c) conn)
  \/ (exists c, In c cs /\ holds_connection bs (client_key c) conn
        /\ check_not_booked bs cs conn
           = Raise (AlreadyBooked (first_name c) (last_name c))).
Proof.
  intros Hok. induction cs as [|c cs IH].
  - left. split; [reflexivity|intros ? []].
  - cbn [check_not_booked].
    destruct (has_booking_spec bs c conn Hok) as (b & Hb & Hiff). rewrite Hb.
    destruct b.
    + right. exists c. split; [left; reflexivity|]. split; [apply Hiff|]; reflexivity.
    + destruct IH as [[Hr Hnone]|(c' & Hin & Hh & Hr)].
      * left. split; [exact Hr|]. intros c' [<-|Hin]; [|auto].
        intros Hh. apply Hiff in Hh. discriminate.
      * right. exists c'. split; [right; exact Hin|]. auto.
Qed.

Lemma make_reservations_spec (env : Env) (conn : Itinerary) (cs : list Client) :
  forall i, exists rs,
    make_reservations env conn i cs = Ok rs
    /\ map client rs = cs
    /\ map (fun r => ticket_id (ticket r)) rs
       = map (generate_ticket_id env) (seq i (length cs))
    /\ Forall (fun r => ticket_client (ticket r) = client r
                        /\ ticket_connection (ticket r) = conn) rs.
Proof.
  induction cs as [|c cs IH]; intros i.
  - exists []. cbn. auto.
  - destruct (IH (S i)) as (rs & Hrs & Hcl & Hids & Hall).
    cbn [make_reservations]. unfold new_Reservation. cbn [ticket_client].
    rewrite client_eqb_refl. cbn [negb]. rewrite Hrs.
    eexists. split; [reflexivity|].
    cbn [map client ticket ticket_id length seq].
    rewrite Hcl, Hids. split; [reflexivity|]. split; [reflexivity|].
    constructor; [cbn; auto|exact Hall].
Qed.

Lemma generate_trip_id_nonempty (env : Env) : nonempty (generate_trip_id env) = true.
Proof. reflexivity. Qed.

Lemma index_add_lookup (tid : string) (cs : list Client) :
  forall idx key x,
    x ∈ default ∅ (fold_left (index_add tid) cs idx !! key)
    <-> (x = tid /\ In key (map client_key cs)) \/ x ∈ default ∅ (idx !! key).
Proof.
  induction cs as [|c cs IH]; intros idx key x.
  - cbn. tauto.
  - cbn [fold_left map In]. rewrite IH. unfold index_add.
    change (lower (last_name c), id_number c) with (client_key c).
    destruct (decide (client_key c = key)) as [<-|Hne].
    + rewrite lookup_insert_eq.
      change (default ∅ (Some ({[tid]} ∪ default ∅ (idx !! client_key c))))
        with ({[tid]} ∪ default ∅ (idx !! client_key c)).
      rewrite elem_of_union, elem_of_singleton. tauto.
    + rewrite lookup_insert_ne by exact Hne. intuition.
Qed.
End BookingSteps.

Section BookTrip.
Import Str Booking.

Lemma ledger_ok_registered (bs : BookingSystem) (ts : list traveler) :
  ledger_ok bs -> ledger_ok (registered bs ts).
Proof. intros H. exact H. Qed.

Lemma holds_registered (bs : BookingSystem) (ts : list traveler) key conn :
  holds_connection (registered bs ts) key conn <-> holds_connection bs key conn.
Proof. reflexivity. Qed.

(** A call with valid, pairwise distinct travelers on a consistent ledger
    either meets a client who holds the connection and raises for the first
    such client, or stores and returns the trip. *)
Lemma book_trip_checked (env : Env) (bs : BookingSystem) (conn : Itinerary)
    (ts : list traveler) :
  ledger_ok bs -> ts <> [] -> Forall valid_traveler ts ->
  List.NoDup (map traveler_key ts) ->
  (exists t, In t ts /\ holds_connection bs (traveler_key t) conn
     /\ book_trip env bs conn ts
        = (registered bs ts, Raise (AlreadyBooked (fst (fst (fst t))) (snd (fst (fst t))))))
  \/ ((forall t, In t ts -> ~ holds_connection bs (traveler_key t) conn)
      /\ exists trip, booked env conn ts trip
           /\ book_trip env bs conn ts = (committed bs ts trip, Ok trip)).
Proof.
  intros Hok Hne Hv Hnd.
  assert (Hparse := parse_travelers_valid ts ∅ [] (clients bs) Hv Hnd
                      (fun t _ => not_elem_of_empty (traveler_key t))).
  cbn [app] in Hparse.
  unfold book_trip. destruct ts as [|t0 ts0]; [contradiction|].
  rewrite Hparse. set (ts := t0 :: ts0) in *.
  change {| trips := trips bs; client_trips_index := client_trips_index bs;
            clients := fold_left (fun m t => clients_add (client_of t) m) ts (clients bs) |}
    with (registered bs ts).
  destruct (check_not_booked_spec (registered bs ts) (map client_of ts) conn
              (ledger_ok_registered bs ts Hok))
    as [[Hr Hnone]|(c & Hin & Hh & Hr)]; rewrite Hr.
  - right. split.
    + intros t Hin Hh. apply (Hnone (client_of t)); [apply in_map, Hin|exact Hh].
    + destruct (make_reservations_spec env conn (map client_of ts) 0)
        as (rs & Hrs & Hcl & Hids & Hall).
      rewrite Hrs. unfold new_Trip. rewrite generate_trip_id_nonempty. cbn [negb].
      destruct rs as [|r rs]; [discriminate Hcl|].
      match goal with
      | |- exists _, _ /\ (_, Ok ?tr) = _ => exists tr
      end.
      split; [|reflexivity].
      unfold booked. cbn [trip_id connection reservations].
      rewrite length_map in Hids. auto.
  - left. apply in_map_iff in Hin as (t & <- & Hin).
    exists t. split; [exact Hin|]. split; [exact Hh|].
    destruct t as [[[first last] id_num] age]. reflexivity.
Qed.

Lemma ledger_ok_new : ledger_ok new_BookingSystem.
Proof.
  intros key tid. cbn. rewrite lookup_empty. cbn. rewrite elem_of_empty.
  split; [tauto|]. intros (trip & Ht & _). rewrite lookup_empty in Ht. discriminate.
Qed.

(** Storing a trip under a trip id that is not in use keeps the index and
    the trips in agreement. *)
Lemma ledger_ok_store (bs bs' : BookingSystem) (trip : Trip) :
  ledger_ok bs -> trips bs !! trip_id trip = None ->
  trips bs' = <[trip_id trip := trip]> (trips bs) ->
  client_trips_index bs'
  = fold_left (index_add (trip_id trip)) (get_clients trip) (client_trips_index bs) ->
  ledger_ok bs'.
Proof.
  intros Hok Hfresh Htrips Hidx key tid. rewrite Htrips, Hidx.
  rewrite index_add_lookup, (Hok key tid).
  destruct (decide (tid = trip_id trip)) as [->|Hne].
  - rewrite lookup_insert_eq, Hfresh. split.
    + intros [[_ Hin]|(tr & Htr & _)]; [|discriminate]. eauto.
    + intros (tr & [= <-] & Hin). auto.
  - rewrite lookup_insert_ne by congruence. split.
    + intros [[Heq _]|H]; [contradiction|exact H].
    + auto.
Qed.

Lemma ledger_ok_committed (bs : BookingSystem) (ts : list traveler) (trip : Trip) :
  ledger_ok bs -> trips bs !! trip_id trip = None ->
  map client (reservations trip) = map client_of ts ->
  ledger_ok (committed bs ts trip).
Proof.
  intros Hok Hfresh Hcl.
  apply (ledger_ok_store bs _ trip Hok Hfresh); [reflexivity|].
  unfold committed, get_clients. cbn [client_trips_index]. rewrite Hcl. reflexivity.
Qed.

(** Whatever the travelers are, a call either leaves the trips and the
    index as they were or stores the trip it returns under the generated
    trip id, indexed for the clients of its reservations. *)
Lemma book_trip_effect (env : Env) (bs : BookingSystem) (conn : Itinerary)
    (ts : list traveler) :
  let bs' := fst (book_trip env bs conn ts) in
  (is_ok (snd (book_trip env bs conn ts)) = false
   /\ trips bs' = trips bs /\ client_trips_index bs' = client_trips_index bs)
  \/ (exists trip,
        snd (book_trip env bs conn ts) = Ok trip
        /\ trip_id trip = generate_trip_id env
        /\ trips bs' = <[trip_id trip := trip]> (trips bs)
        /\ client_trips_index bs'
           = fold_left (index_add (trip_id trip)) (get_clients trip)
                       (client_trips_index bs)).
Proof.
  cbv zeta. unfold book_trip.
  destruct ts as [|t0 ts0]; [left; auto|].
  destruct (parse_travelers (t0 :: ts0) ∅ [] (clients bs)) as [registry [cs|e]];
    [|left; auto].
  match goal with
  | |- context [check_not_booked ?b cs conn] => destruct (check_not_booked b cs conn)
  end; [|left; auto].
  destruct (make_reservations_spec env conn cs 0) as (rs & Hrs & Hcl & _).
  rewrite Hrs. unfold new_Trip. rewrite generate_trip_id_nonempty. cbn [negb].
  destruct rs as [|r rs]; [left; auto|].
  right. eexists. split; [reflexivity|].
  cbn [fst trips client_trips_index trip_id]. split; [reflexivity|].
  split; [reflexivity|].
  unfold get_clients. cbn [reservations]. rewrite Hcl. reflexivity.
Qed.

(** The agreement of index and trips holds for the empty ledger and is kept
    by every call, failed or not, whose generated trip id is not in use. *)
Lemma book_trip_keeps_ledger_ok (env : Env) (bs : BookingSystem) (conn : Itinerary)
    (ts : list traveler) :
  ledger_ok bs -> trips bs !! generate_trip_id env = None ->
  ledger_ok (fst (book_trip env bs conn ts)).
Proof.
  intros Hok Hfresh.
  destruct (book_trip_effect env bs conn ts)
    as [(_ & Ht & Hi)|(trip & _ & Hid & Ht & Hi)].
  - intros key tid. rewrite Ht, Hi. apply Hok.
  - rewrite <- Hid in Hfresh. exact (ledger_ok_store bs _ trip Hok Hfresh Ht Hi).
Qed.
End BookTrip.

Section Rebooking.
Import Str Booking.

(** Right after a trip has been stored for [t], the lookup for [t] on the
    same connection answers yes, also when the trip id was already in use. *)
Lemma has_booking_after_commit (bs : BookingSystem) (t : traveler) (trip : Trip)
    (conn : Itinerary) :
  ledger_ok bs -> connection trip = conn ->
  _has_booking_for_connection (committed bs [t] trip) (client_of t) conn = Ok true.
Proof.
  intros Hok Hconn. unfold _has_booking_for_connection.
  change (lower (last_name (client_of t)), id_number (client_of t))
    with (client_key (client_of t)).
  set (ids := elements (default ∅ (client_trips_index (committed bs [t] trip)
                                    !! client_key (client_of t)))).
  assert (Hids : forall x, In x ids <->
            x = trip_id trip \/ x ∈ default ∅ (client_trips_index bs
                                                 !! client_key (client_of t))).
  { intros x. unfold ids. rewrite <- list_elem_of_In, elem_of_elements.
    unfold committed. cbn [client_trips_index]. rewrite index_add_lookup.
    cbn [map In]. tauto. }
  destruct (scan_trip_ids_spec (trips (committed bs [t] trip)) ids conn)
    as (b & Hb & Hiff).
  - intros x Hx. apply Hids in Hx. unfold committed. cbn [trips].
    destruct (decide (x = trip_id trip)) as [->|Hne].
    + rewrite lookup_insert_eq. eauto.
    + rewrite lookup_insert_ne by congruence.
      destruct Hx as [Hx|Hx]; [contradiction|].
      apply Hok in Hx as (tr & Htr & _). eauto.
  - rewrite Hb. f_equal. apply Hiff.
    exists (trip_id trip), trip. split; [apply Hids; auto|].
    split; [|rewrite Hconn; reflexivity].
    unfold committed. cbn [trips]. apply lookup_insert_eq.
Qed.

Lemma book_again_raises (env : Env) (bs : BookingSystem) (t : traveler)
    (trip : Trip) (conn : Itinerary) :
  ledger_ok bs -> valid_traveler t -> connection trip = conn ->
  snd (book_trip env (committed bs [t] trip) conn [t])
  = Raise (AlreadyBooked (fst (fst (fst t))) (snd (fst (fst t)))).
Proof.
  intros Hok Hv Hconn. unfold book_trip.
  assert (Hvs : Forall valid_traveler [t]) by (constructor; [exact Hv|constructor]).
  rewrite (parse_travelers_valid [t] ∅ [] _ Hvs).
  - cbn [app map check_not_booked].
    match goal with
    | |- context [_has_booking_for_connection ?b _ _] =>
        change b with (registered (committed bs [t] trip) [t])
    end.
    pose proof (has_booking_after_commit bs t trip conn Hok Hconn) as H.
    unfold _has_booking_for_connection in H |- *.
    cbn [trips client_trips_index registered] in H |- *. rewrite H.
    destruct t as [[[first last] id_num] age]. reflexivity.
  - cbn [map]. constructor; [intros []|constructor].
  - intros ? _. apply not_elem_of_empty.
Qed.
End Rebooking.

(** On a ledger whose index agrees with its trips, a call with valid and
    pairwise distinct travelers raises AlreadyBooked exactly when one of
    them, identified by lower-cased last name and exact id number, holds a
    reservation on a stored trip with the same ordered route ids as the
    itinerary.  In particular a traveler who does not hold the itinerary is
    booked by a first call and refused with AlreadyBooked by a second one.
    The agreement holds for the empty ledger and is kept by every call whose
    trip id is not in use. *)
Lemma book_trip_already_booked
    (env : Booking.Env) (bs : Booking.BookingSystem) (conn : Itinerary)
    (ts : list Booking.traveler) :
  ledger_ok bs -> ts <> [] -> Forall valid_traveler ts ->
  List.NoDup (map traveler_key ts) ->
  ((exists first last,
       snd (Booking.book_trip env bs conn ts)
       = Raise (Booking.AlreadyBooked first last))
   <-> exists t, In t ts /\ holds_connection bs (traveler_key t) conn)
  /\ (forall (t : Booking.traveler) (env2 : Booking.Env),
        valid_traveler t ->
        ~ holds_connection bs (traveler_key t) conn ->
        exists bs1 trip,
          Booking.book_trip env bs conn [t] = (bs1, Ok trip)
          /\ Booking.connection trip = conn
          /\ snd (Booking.book_trip env2 bs1 conn [t])
             = Raise (Booking.AlreadyBooked (fst (fst (fst t))) (snd (fst (fst t))))).
Proof.
  intros Hok Hne Hv Hnd. split.
  - destruct (book_trip_checked env bs conn ts Hok Hne Hv Hnd)
      as [(t & Hin & Hh & He)|(Hnone & trip & _ & He)]; rewrite He; cbn [snd].
    + split; [eauto|]. intros _. eauto.
    + split.
      * intros (? & ? & H). discriminate.
      * intros (t & Hin & Hh). exfalso. exact (Hnone t Hin Hh).
  - intros t env2 Hvt Hfree.
    destruct (book_trip_checked env bs conn [t] Hok) as
      [(t' & Hin & Hh & _)|(_ & trip & Hb & He)].
    + discriminate.
    + constructor; [exact Hvt|constructor].
    + cbn [map]. constructor; [intros []|constructor].
    + destruct Hin as [<-|[]]. contradiction.
    + exists (committed bs [t] trip), trip. split; [exact He|].
      destruct Hb as (_ & Hconn & _). split; [exact Hconn|].
      apply book_again_raises; assumption.
Qed.

Lemma book_trip_already_booked_witness :
  ledger_ok Booking.new_BookingSystem
  /\ [john] <> []
  /\ Forall valid_traveler [john]
  /\ List.NoDup (map traveler_key [john])
  /\ exists bs1 trip,
       Booking.book_trip env0 Booking.new_BookingSystem conn0 [john] = (bs1, Ok trip)
       /\ Booking.connection trip = conn0
       /\ snd (Booking.book_trip env0 bs1 conn0 [john])
          = Raise (Booking.AlreadyBooked "John" "Smith").
Proof.
  assert (Hv : Forall valid_traveler [john]).
  { constructor; [|constructor]. cbn. repeat split; [lia|discriminate..]. }
  assert (Hnd : List.NoDup (map traveler_key [john])).
  { constructor; [intros []|constructor]. }
  assert (Hne : [john] <> []) by discriminate.
  split; [exact ledger_ok_new|]. split; [exact Hne|].
  split; [exact Hv|]. split; [exact Hnd|].
  destruct (book_trip_already_booked env0 Booking.new_BookingSystem conn0 [john]
              ledger_ok_new Hne Hv Hnd) as [_ H].
  apply (H john env0).
  - cbn. repeat split; [lia|discriminate..].
  - intros (tid & trip & Ht & _). cbn in Ht. rewrite lookup_empty in Ht. discriminate.
Defined.

(** C4 on the in-memory ledger.  [generate_trip_id] draws the trip id at
    random and [book_trip] stores the trip under it without looking whether
    the id is in use.  John books the direct itinerary; Jane books the
    Paris-Frankfurt leg and her trip draws the same id: it replaces John's
    trip in [self.trips], while the index still lists the id for John.  John
    is then refused on the Paris-Frankfurt leg with AlreadyBooked although
    the only stored trip holds no reservation of his.  When Jane's trip
    draws another id the same call of John succeeds.  Without a collision
    the check is as claimed: after John's booking another spelling of his
    last name with the same id number is refused on the same itinerary, the
    same call is refused, another id number is accepted, and so is another
    itinerary. *)
Theorem book_trip_refuses_after_trip_id_collision :
  let first := Booking.book_trip env0 Booking.new_BookingSystem conn0 [john] in
  let second := Booking.book_trip env0 (fst first) conn1 [jane] in
  let third := Booking.book_trip env1 (fst second) conn1 [john] in
  let second_fresh := Booking.book_trip env1 (fst first) conn1 [jane] in
  let third_fresh := Booking.book_trip env2 (fst second_fresh) conn1 [john] in
  (exists trip, snd first = Ok trip /\ Booking.trip_id trip = "TRP-0A1B2C3D")
  /\ (exists trip, snd second = Ok trip /\ Booking.trip_id trip = "TRP-0A1B2C3D")
  /\ map (fun '(tid, trip) =>
            (tid, Itin.legs_key (Booking.connection trip),
             map Booking.id_number (Booking.get_clients trip)))
         (map_to_list (Booking.trips (fst second)))
     = [("TRP-0A1B2C3D", Itin.legs_key conn1, ["PASS002"])]
  /\ Itin.legs_key conn0 <> Itin.legs_key conn1
  /\ snd third = Raise (Booking.AlreadyBooked "John" "Smith")
  /\ ~ holds_connection (fst second) (traveler_key john) conn1
  /\ ~ ledger_ok (fst second)
  /\ is_ok (snd second_fresh) = true
  /\ is_ok (snd third_fresh) = true
  /\ snd (Booking.book_trip env1 (fst first) conn0 [john])
     = Raise (Booking.AlreadyBooked "John" "Smith")
  /\ snd (Booking.book_trip env1 (fst first) conn0 [("Johnny", "SMITH", "PASS001", 50)])
     = Raise (Booking.AlreadyBooked "Johnny" "SMITH")
  /\ is_ok (snd (Booking.book_trip env1 (fst first) conn0
                                    [("John", "Smith", "pass001", 45)])) = true
  /\ is_ok (snd (Booking.book_trip env1 (fst first) conn1 [john])) = true.
Proof.
  cbv zeta.
  assert (Hlist :
    map (fun '(tid, trip) =>
           (tid, Itin.legs_key (Booking.connection trip),
            map Booking.id_number (Booking.get_clients trip)))
        (map_to_list
           (Booking.trips
              (fst (Booking.book_trip env0
                      (fst (Booking.book_trip env0 Booking.new_BookingSystem conn0 [john]))
                      conn1 [jane]))))
    = [("TRP-0A1B2C3D", Itin.legs_key conn1, ["PASS002"])])
    by (vm_compute; reflexivity).
  assert (Hstored : forall tid trip,
            Booking.trips
              (fst (Booking.book_trip env0
                      (fst (Booking.book_trip env0 Booking.new_BookingSystem conn0 [john]))
                      conn1 [jane])) !! tid = Some trip ->
            tid = "TRP-0A1B2C3D"
            /\ map Booking.id_number (Booking.get_clients trip) = ["PASS002"]).
  { intros tid trip Hl.
    apply elem_of_map_to_list, list_elem_of_In in Hl.
    apply (in_map (fun '(tid, trip) =>
                     (tid, Itin.legs_key (Booking.connection trip),
                      map Booking.id_number (Booking.get_clients trip)))) in Hl.
    rewrite Hlist in Hl. destruct Hl as [Hl|[]].
    injection Hl as Hk _ Hids. auto. }
  assert (Hfree : ~ holds_connection
                      (fst (Booking.book_trip env0
                              (fst (Booking.book_trip env0 Booking.new_BookingSystem
                                      conn0 [john]))
                              conn1 [jane]))
                      (traveler_key john) conn1).
  { intros (tid & trip & Hl & Hin & _).
    destruct (Hstored _ _ Hl) as [_ Hids].
    apply in_map_iff in Hin as (c & Hc & Hin).
    apply (in_map Booking.id_number) in Hin. rewrite Hids in Hin.
    destruct Hin as [Hid|[]].
    unfold traveler_key, Booking.client_key in Hc. cbn in Hc.
    injection Hc as _ Hc. rewrite <- Hid in Hc. discriminate Hc. }
  split; [eexists; split; vm_compute; reflexivity|].
  split; [eexists; split; vm_compute; reflexivity|].
  split; [exact Hlist|].
  split; [vm_compute; discriminate|].
  split; [vm_compute; reflexivity|].
  split; [exact Hfree|].
  split.
  { intros Hok.
    destruct (proj1 (Hok (traveler_key john) "TRP-0A1B2C3D")) as (trip & Hl & Hin).
    - vm_compute. reflexivity.
    - destruct (Hstored _ _ Hl) as [_ Hids].
      apply in_map_iff in Hin as (c & Hc & Hin).
      apply (in_map Booking.id_number) in Hin. rewrite Hids in Hin.
      destruct Hin as [Hid|[]].
      unfold traveler_key, Booking.client_key in Hc. cbn in Hc.
      injection Hc as _ Hc. rewrite <- Hid in Hc. discriminate Hc. }
  repeat split; vm_compute; reflexivity.
Qed.

(** C2 on the in-memory ledger.  The docstring of [book_trip] promises a
    rollback on error; there is none.  A call that fails on its second
    traveler, or on a client who is already booked, leaves the clients it
    accepted before the failure registered in [self.clients]. *)
Lemma book_trip_failure_leaves_registration :
  let duplicate := Booking.book_trip env0 Booking.new_BookingSystem conn0 [john; johnny] in
  let invalid :=
    Booking.book_trip env0 Booking.new_BookingSystem conn0
                      [john; ("Jane", "Smith", "PASS002", -1)] in
  let once := fst (Booking.book_trip env0 Booking.new_BookingSystem conn0 [john]) in
  let again := Booking.book_trip env0 once conn0 [jane; john] in
  snd duplicate = Raise (Booking.DuplicateTravelerInBooking "Johnny" "SMITH")
  /\ Booking.clients Booking.new_BookingSystem !! ("smith", "PASS001") = None
  /\ Booking.clients (fst duplicate) !! ("smith", "PASS001") = Some (client_of john)
  /\ fst duplicate <> Booking.new_BookingSystem
  /\ snd invalid = Raise (Booking.InvalidTraveler (Booking.NegativeAge (-1)))
  /\ fst invalid <> Booking.new_BookingSystem
  /\ snd again = Raise (Booking.AlreadyBooked "John" "Smith")
  /\ Booking.clients once !! ("smith", "PASS002") = None
  /\ Booking.clients (fst again) !! ("smith", "PASS002") = Some (client_of jane)
  /\ fst again <> once.
Proof.
  cbv zeta.
  assert (Hdiff : forall (a b : Booking.BookingSystem) k c,
            Booking.clients b !! k = None -> Booking.clients a !! k = Some c -> a <> b).
  { intros a b k c Hb Ha ->. congruence. }
  repeat split; try (vm_compute; reflexivity).
  - apply (Hdiff _ _ ("smith", "PASS001") (client_of john)); vm_compute; reflexivity.
  - apply (Hdiff _ _ ("smith", "PASS001") (client_of john)); vm_compute; reflexivity.
  - apply (Hdiff _ _ ("smith", "PASS002") (client_of jane)); vm_compute; reflexivity.
Qed.

(** The database-backed ledger is not atomic either: every [Database]
    method commits on its own, so a fault in a later step leaves the rows
    written by the earlier steps.  With an itinerary whose route is missing
    from the [routes] table the foreign key of [trip_legs] fails after the
    trip row has been committed; with the second of two routes missing, the
    trip row and the first leg row stay. *)
Lemma book_trip_v3_fault_leaves_rows :
  let tick := fun _ : nat => 1700000000 in
  let direct_call := BookingV3.book_trip Database.empty tick conn0 [john] in
  let second_only :=
    {| Database.routes := ["R002"]; Database.clients := []; Database.trips := [];
       Database.trip_legs := []; Database.tickets := []; Database.seq_clients := 0;
       Database.seq_trips := 0; Database.seq_tickets := 0 |} in
  let two_legs :=
    RailNetwork.itinerary_of (firstn 2 (skipn 1 layover_test_routes)) in
  let one_stop_call := BookingV3.book_trip second_only tick two_legs [john] in
  snd direct_call
    = Raise (BookingV3.Storage
               (Database.IntegrityError "FOREIGN KEY trip_legs(route_id)"))
  /\ Database.trips Database.empty = []
  /\ map Database.trip_id (Database.trips (fst direct_call)) = [1]
  /\ Itin.legs_key two_legs = ["R002"; "R003"]
  /\ snd one_stop_call
     = Raise (BookingV3.Storage
                (Database.IntegrityError "FOREIGN KEY trip_legs(route_id)"))
  /\ map Database.trip_id (Database.trips (fst one_stop_call)) = [1]
  /\ map Database.leg_route_id (Database.trip_legs (fst one_stop_call)) = ["R002"]
  /\ Database.tickets (fst one_stop_call) = [].
Proof. cbv zeta. repeat split; vm_compute; reflexivity. Qed.

(** With the routes in place the database-backed ledger books the same two
    travelers and hands out consecutive ticket ids. *)
Lemma book_trip_v3_ticket_ids :
  exists db trip,
    BookingV3.book_trip db_with_routes (fun _ => 1700000000) conn0 [john; jane]
    = (db, Ok trip)
    /\ map (fun r => Booking.ticket_id (Booking.ticket r)) (BookingV3.reservations trip)
       = [1; 2]
    /\ map Database.leg_route_id (Database.trip_legs db) = ["R001"].
Proof. eexists _, _. split; [vm_compute; reflexivity|]. split; reflexivity. Qed.

(** The parts of C3 that hold for every call: a call with valid, pairwise
    distinct travelers of whom none holds the itinerary returns a trip with
    one reservation per traveler, in order, each ticket issued to the client
    of its reservation; the ticket ids are the values the generator drew. *)
Lemma book_trip_reservations
    (env : Booking.Env) (bs : Booking.BookingSystem) (conn : Itinerary)
    (ts : list Booking.traveler) :
  ledger_ok bs -> ts <> [] -> Forall valid_traveler ts ->
  List.NoDup (map traveler_key ts) ->
  (forall t, In t ts -> ~ holds_connection bs (traveler_key t) conn) ->
  exists trip,
    snd (Booking.book_trip env bs conn ts) = Ok trip
    /\ length (Booking.reservations trip) = length ts
    /\ map Booking.client (Booking.reservations trip) = map client_of ts
    /\ Forall (fun r => Booking.ticket_client (Booking.ticket r) = Booking.client r)
              (Booking.reservations trip)
    /\ map (fun r => Booking.ticket_id (Booking.ticket r)) (Booking.reservations trip)
       = map (Booking.generate_ticket_id env) (seq 0 (length ts)).
Proof.
  intros Hok Hne Hv Hnd Hfree.
  destruct (book_trip_checked env bs conn ts Hok Hne Hv Hnd)
    as [(t & Hin & Hh & _)|(_ & trip & Hb & He)].
  - exfalso. exact (Hfree t Hin Hh).
  - exists trip. rewrite He. destruct Hb as (_ & _ & Hcl & Hids & Hall).
    split; [reflexivity|]. split.
    + rewrite <- (length_map Booking.client), Hcl. apply length_map.
    + split; [exact Hcl|]. split; [|exact Hids].
      eapply Forall_impl; [exact Hall|]. intros r [H _]. exact H.
Qed.

(** The ticket ids of a trip are pairwise distinct as soon as the values
    drawn for its travelers are. *)
Lemma ticket_ids_distinct_when_draws_are (env : Booking.Env) (n : nat) :
  (forall i j, (i < n)%nat -> (j < n)%nat ->
               Booking.generate_ticket_id env i = Booking.generate_ticket_id env j ->
               i = j) ->
  List.NoDup (map (Booking.generate_ticket_id env) (seq 0 n)).
Proof.
  intros Hinj. apply Finite.Injective_map_NoDup_in; [|apply List.seq_NoDup].
  intros i j Hi Hj. apply in_seq in Hi, Hj. apply Hinj; lia.
Qed.

(** C3 on the in-memory ledger.  [generate_ticket_id] joins the second of
    the clock with a draw below 100000 and checks nothing: two travelers
    booked within one second whose draws coincide receive the same ticket
    id, and so does a later trip booked in that second. *)
Lemma book_trip_ticket_ids_collide :
  let first_call := Booking.book_trip env0 Booking.new_BookingSystem conn0 [john; jane] in
  let second_call := Booking.book_trip env1 (fst first_call) conn1 [john] in
  (exists trip, snd first_call = Ok trip
     /\ length (Booking.reservations trip) = 2%nat
     /\ map (fun r => Booking.ticket_id (Booking.ticket r)) (Booking.reservations trip)
        = [170000000000042; 170000000000042])
  /\ Booking.ledger_ticket_ids (fst first_call) = [170000000000042; 170000000000042]
  /\ (exists trip, snd second_call = Ok trip
     /\ Booking.trip_id trip = "TRP-FFFFFFFF"
     /\ map (fun r => Booking.ticket_id (Booking.ticket r)) (Booking.reservations trip)
        = [170000000000042]).
Proof.
  cbv zeta. split; [|split; [vm_compute; reflexivity|]];
    eexists; (split; [vm_compute; reflexivity|]); repeat split.
Qed.

(* ================================================================== *)
(** * Further properties: times and layovers *)
(* ================================================================== *)

Section ClockText.
Import Str TimeModel.

Lemma minutes_to_hhmm_str_mod (x : Z) :
  minutes_to_hhmm_str x = minutes_to_hhmm_str (x mod 1440).
Proof.
  unfold minutes_to_hhmm_str. change (24 * 60) with 1440.
  rewrite Z.mod_mod by lia. reflexivity.
Qed.

Lemma minutes_to_hhmm_day_table :
  forallb
    (fun n =>
       match parse_time_to_minutes (Some (minutes_to_hhmm_str (Z.of_nat n))) with
       | Ok v => (v =? Z.of_nat n)
                 && (String.length (minutes_to_hhmm_str (Z.of_nat n)) =? 5)%nat
       | Raise _ => false
       end)
    (seq 0 1440) = true.
Proof. vm_compute. reflexivity. Qed.
End ClockText.

(** X1.  The text written by [minutes_to_hhmm] has five characters and is
    read back by [parse_time_to_minutes] as the minute of the day: day
    offsets are dropped, nothing else is lost. *)
Theorem minutes_to_hhmm_parses_back (minutes : Z) :
  TimeModel.parse_time_to_minutes (Some (TimeModel.minutes_to_hhmm_str minutes))
  = Ok (minutes mod 1440)
  /\ String.length (TimeModel.minutes_to_hhmm_str minutes) = 5%nat.
Proof.
  rewrite minutes_to_hhmm_str_mod.
  pose proof (Z.mod_pos_bound minutes 1440 ltac:(lia)) as Hb.
  pose proof minutes_to_hhmm_day_table as Ht.
  rewrite forallb_forall in Ht.
  specialize (Ht (Z.to_nat (minutes mod 1440))).
  rewrite Z2Nat.id in Ht by lia.
  assert (Hin : In (Z.to_nat (minutes mod 1440)) (seq 0 1440)) by (apply in_seq; lia).
  specialize (Ht Hin).
  destruct (TimeModel.parse_time_to_minutes
              (Some (TimeModel.minutes_to_hhmm_str (minutes mod 1440)))) as [v|e];
    [|discriminate].
  apply andb_true_iff in Ht as [Hv Hl].
  apply Z.eqb_eq in Hv. apply Nat.eqb_eq in Hl. subst v. auto.
Qed.

Section TransferMinutes.
Import Itin.

Lemma displayed_fold (suf : list Leg) :
  forall (pre : list Leg) (p : Leg) (acc : Z),
    fold_left
      (fun tr i =>
         match (pre ++ p :: suf)%list !! (i - 1)%nat, (pre ++ p :: suf)%list !! i with
         | Some prev, Some this =>
             tr + TimeModel.duration_minutes (arr_min (route prev)) (dep_min (route this))
         | _, _ => tr
         end)
      (seq (S (length pre)) (length suf)) acc
    = acc + sum_Z (map leg_gap (adjacent (p :: suf))).
Proof.
  induction suf as [|t suf IH]; intros pre p acc.
  - cbn. lia.
  - cbn [length seq fold_left].
    replace (S (length pre) - 1)%nat with (length pre) by lia.
    rewrite (lookup_app_r pre) by lia.
    rewrite (lookup_app_r pre (p :: t :: suf) (S (length pre))) by lia.
    replace (length pre - length pre)%nat with 0%nat by lia.
    replace (S (length pre) - length pre)%nat with 1%nat by lia.
    cbn [lookup list_lookup].
    specialize (IH (pre ++ [p])%list t).
    rewrite <- app_assoc in IH. cbn [app] in IH.
    rewrite length_app in IH. cbn [length] in IH.
    replace (length pre + 1)%nat with (S (length pre)) in IH by lia.
    rewrite IH. cbn [adjacent map sum_Z fold_right]. unfold leg_gap at 2. cbn [fst snd].
    destruct suf; cbn; lia.
Qed.
End TransferMinutes.

(** X2.  [displayed_transfer_minutes] is the sum of the gaps between
    consecutive legs, and the total travel time is the time spent on the
    legs plus that transfer time. *)
Theorem transfer_minutes_split (it : Itinerary) :
  Itin.displayed_transfer_minutes it = sum_Z (map leg_gap (Itin.adjacent (legs it)))
  /\ Itin.total_travel_minutes it
     = sum_Z (map (fun leg => duration_min (route leg)) (legs it))
       + Itin.displayed_transfer_minutes it.
Proof.
  assert (H : Itin.displayed_transfer_minutes it
              = sum_Z (map leg_gap (Itin.adjacent (legs it)))).
  { unfold Itin.displayed_transfer_minutes.
    destruct (legs it) as [|p suf] eqn:E; [reflexivity|].
    cbn [length]. replace (S (length suf) - 1)%nat with (length suf) by lia.
    pose proof (displayed_fold suf [] p 0) as Hf. cbn [app length] in Hf.
    rewrite Hf. lia. }
  split; [exact H|]. rewrite H. apply total_travel_minutes_sum.
Qed.

Section MultiStop.
Import LayoverValidator.

Lemma validate_from_spec (leg_times : list (Z * Z)) (policy : string) :
  forall i,
    (Forall (fun t => fst (is_layover_acceptable (fst t) (snd t) policy) = true) leg_times
     /\ validate_from i leg_times policy = (true, "OK"))
    \/ (exists pre t post,
          leg_times = (pre ++ t :: post)%list
          /\ Forall (fun t => fst (is_layover_acceptable (fst t) (snd t) policy) = true) pre
          /\ fst (is_layover_acceptable (fst t) (snd t) policy) = false
          /\ validate_from i leg_times policy
             = (false, "Transfer " +:+ Str.show_Z (i + Z.of_nat (length pre) + 1) +:+ ": "
                         +:+ snd (is_layover_acceptable (fst t) (snd t) policy))).
Proof.
  induction leg_times as [|[a d] rest IH]; intros i.
  - left. split; [constructor|reflexivity].
  - cbn [validate_from].
    destruct (is_layover_acceptable a d policy) as [ok reason] eqn:E.
    destruct ok; cbn [negb].
    + destruct (IH (i + 1)) as [[Hall Hv]|(pre & t & post & Heq & Hpre & Ht & Hv)].
      * left. split; [|exact Hv]. constructor; [cbn; rewrite E; reflexivity|exact Hall].
      * right. exists ((a, d) :: pre), t, post. split; [rewrite Heq; reflexivity|].
        split; [constructor; [cbn; rewrite E; reflexivity|exact Hpre]|].
        split; [exact Ht|]. rewrite Hv. cbn [length].
        replace (i + 1 + Z.of_nat (length pre) + 1)
          with (i + Z.of_nat (S (length pre)) + 1) by lia.
        reflexivity.
    + right. exists [], (a, d), rest. split; [reflexivity|].
      split; [constructor|]. cbn [fst snd length]. rewrite E. cbn [fst snd].
      split; [reflexivity|]. replace (i + Z.of_nat 0 + 1) with (i + 1) by lia.
      reflexivity.
Qed.
End MultiStop.

(** X3.  [validate_multi_stop_connection] answers [(True, "OK")] when every
    transfer is acceptable, also for no transfer at all; otherwise it reports
    the first unacceptable transfer, counted from 1, with the reason
    [is_layover_acceptable] gives for it, and looks no further. *)
Theorem validate_multi_stop_first_failure (leg_times : list (Z * Z)) (policy : string) :
  let ok := fun t : Z * Z =>
    fst (LayoverValidator.is_layover_acceptable (fst t) (snd t) policy) = true in
  (Forall ok leg_times
   /\ LayoverValidator.validate_multi_stop_connection leg_times policy = (true, "OK"))
  \/ (exists pre t post,
        leg_times = (pre ++ t :: post)%list
        /\ Forall ok pre /\ ~ ok t
        /\ LayoverValidator.validate_multi_stop_connection leg_times policy
           = (false, "Transfer " +:+ Str.show_Z (Z.of_nat (length pre) + 1) +:+ ": "
                       +:+ snd (LayoverValidator.is_layover_acceptable
                                  (fst t) (snd t) policy))).
Proof.
  cbv zeta. unfold LayoverValidator.validate_multi_stop_connection.
  destruct (validate_from_spec leg_times policy 0)
    as [H|(pre & t & post & Heq & Hpre & Ht & Hv)]; [left; exact H|].
  right. exists pre, t, post. split; [exact Heq|]. split; [exact Hpre|].
  split; [rewrite Ht; discriminate|]. exact Hv.
Qed.

Lemma accepted_iff_window (a d : Z) (policy : string) :
  fst (LayoverValidator.is_layover_acceptable a d policy) = true
  <-> fst (window a policy) <= LayoverValidator.layover_gap a d <= snd (window a policy).
Proof.
  pose proof (verdict_cases a d policy) as H. cbv zeta in H.
  destruct (window a policy) as [lo hi]. cbn [fst snd].
  destruct H as [(H1 & tail & H2)|[(H1 & H2 & tail & H3)|(H1 & H2)]].
  - rewrite H2. cbn [fst]. split; [discriminate|lia].
  - rewrite H3. cbn [fst]. split; [discriminate|lia].
  - rewrite H2. cbn [fst]. split; [intros _; exact H1|reflexivity].
Qed.

(** X4.  The lenient policy accepts exactly what any other policy text
    accepts, and in addition the daytime gaps of 121 to 180 minutes. *)
Theorem lenient_extends_every_policy (a d : Z) (policy : string) :
  fst (LayoverValidator.is_layover_acceptable a d "lenient") = true
  <-> fst (LayoverValidator.is_layover_acceptable a d policy) = true
      \/ (LayoverValidator.is_daytime a = true
          /\ 120 < TimeModel.duration_minutes a d <= 180).
Proof.
  rewrite !accepted_iff_window, is_daytime_iff, <- layover_gap_is_duration.
  unfold window. change (String.eqb "lenient" "lenient") with true.
  destruct (Z.leb_spec 360 (a mod 1440)), (Z.ltb_spec (a mod 1440) 1320);
    cbn [andb fst snd]; destruct (String.eqb policy "lenient"); cbn [fst snd]; lia.
Qed.

(** X5.  The verdict and its message depend on the arrival only through its
    time of day and on the gap: moving both times by whole days changes
    nothing. *)
Theorem layover_verdict_day_shift (a d k : Z) (policy : string) :
  LayoverValidator.is_layover_acceptable (a + k * 1440) (d + k * 1440) policy
  = LayoverValidator.is_layover_acceptable a d policy.
Proof.
  unfold LayoverValidator.is_layover_acceptable.
  assert (Hg : LayoverValidator.layover_gap (a + k * 1440) (d + k * 1440)
               = LayoverValidator.layover_gap a d).
  { unfold LayoverValidator.layover_gap.
    destruct (Z.geb_spec (d + k * 1440) (a + k * 1440)), (Z.geb_spec d a); lia. }
  assert (Hd : LayoverValidator.is_daytime (a + k * 1440) = LayoverValidator.is_daytime a).
  { unfold LayoverValidator.is_daytime. change (24 * 60) with 1440.
    rewrite Z.mod_add by lia. reflexivity. }
  rewrite Hg, Hd. reflexivity.
Qed.

(* ================================================================== *)
(** * Further properties: the schedule index and the search *)
(* ================================================================== *)

Section IndexFacts.
Import Str RailNetwork.

Lemma build_index_fold (rs : list TrainRoute) :
  forall (idx : gmap string (list TrainRoute)) (k : string),
    default [] (fold_left
                  (fun idx r =>
                     let k := lower (departure_city r) in
                     <[k := (default [] (idx !! k) ++ [r])%list]> idx)
                  rs idx !! k)
    = (default [] (idx !! k)
       ++ List.filter (fun r => String.eqb (lower (departure_city r)) k) rs)%list.
Proof.
  induction rs as [|r rs IH]; intros idx k.
  - cbn. rewrite app_nil_r. reflexivity.
  - cbn [fold_left List.filter]. rewrite IH. cbv zeta.
    destruct (String.eqb_spec (lower (departure_city r)) k) as [->|Hne].
    + rewrite lookup_insert_eq.
      change (default [] (Some (default [] (idx !! k) ++ [r])%list))
        with (default [] (idx !! k) ++ [r])%list.
      rewrite <- app_assoc. reflexivity.
    + rewrite lookup_insert_ne by exact Hne. reflexivity.
Qed.

Lemma departing_new (rs : list TrainRoute) (city : string) :
  departing (new rs) city
  = List.filter (fun r => String.eqb (lower (departure_city r)) (lower city)) rs.
Proof.
  unfold departing, new, build_index. cbn [index_by_origin].
  rewrite build_index_fold, lookup_empty. reflexivity.
Qed.

Lemma in_departing (rs : list TrainRoute) (prev next : TrainRoute) :
  In next (departing (new rs) (arrival_city prev))
  <-> In next rs /\ follows prev next = true.
Proof. rewrite departing_new, filter_In. reflexivity. Qed.

Lemma match_split (r : TrainRoute) (dc ac tt days : option string) :
  _match r dc ac tt days
  = same_text dc (departure_city r) && same_text ac (arrival_city r)
    && service_ok tt days r.
Proof.
  unfold _match, service_ok, same_text.
  destruct (truthy dc), (truthy ac), (truthy tt), (truthy days),
    (String.eqb (lower (departure_city r)) (lower (default "" dc))),
    (String.eqb (lower (arrival_city r)) (lower (default "" ac))),
    (String.eqb (lower (type_of_route r)) (lower (default "" tt))),
    (contains (lower (default "" days)) (lower (days_of_operation r)));
    reflexivity.
Qed.

Lemma same_text_none (text : string) : same_text None text = true.
Proof. reflexivity. Qed.

(** A route found through the index passes the departure filter set to the
    city it was looked up for. *)
Lemma match_after (prev next : TrainRoute) (ac tt days : option string) :
  follows prev next = true ->
  _match next (Some (arrival_city prev)) ac tt days
  = same_text ac (arrival_city next) && service_ok tt days next.
Proof.
  intros Hf. rewrite match_split.
  assert (Hs : same_text (Some (arrival_city prev)) (departure_city next) = true).
  { unfold same_text.
    change (default "" (Some (arrival_city prev))) with (arrival_city prev).
    unfold follows in Hf. rewrite Hf. apply orb_true_r. }
  rewrite Hs. reflexivity.
Qed.

Lemma in_dep_routes (rs : list TrainRoute) (dc tt days : option string) (r : TrainRoute) :
  In r (filter (fun r => Is_true (_match r dc None tt days)) rs)
  <-> In r rs /\ same_text dc (departure_city r) = true /\ service_ok tt days r = true.
Proof.
  rewrite <- list_elem_of_In, list_elem_of_filter, list_elem_of_In, match_split.
  rewrite same_text_none, andb_true_r, Is_true_true, andb_true_iff. tauto.
Qed.
End IndexFacts.

Lemma lower_char_idem (c : ascii) : Str.lower_char (Str.lower_char c) = Str.lower_char c.
Proof. destruct c as [[] [] [] [] [] [] [] []]; reflexivity. Qed.

Lemma lower_idem (s : string) : Str.lower (Str.lower s) = Str.lower s.
Proof.
  induction s as [|c s IH]; [reflexivity|].
  cbn [Str.lower]. rewrite lower_char_idem, IH. reflexivity.
Qed.

(** X6.  The index built by the constructor returns, for a city, the routes
    of the schedule that leave from it, in schedule order, whatever the case
    of the city's letters; a city nobody leaves from gives the empty list. *)
Theorem index_lookup_is_filter (rs : list TrainRoute) (city : string) (r : TrainRoute) :
  RailNetwork.departing (RailNetwork.new rs) city
  = List.filter
      (fun r => String.eqb (Str.lower (departure_city r)) (Str.lower city)) rs
  /\ (In r (RailNetwork.departing (RailNetwork.new rs) city)
      <-> In r rs /\ Str.lower (departure_city r) = Str.lower city)
  /\ RailNetwork.departing (RailNetwork.new rs) (Str.lower city)
     = RailNetwork.departing (RailNetwork.new rs) city.
Proof.
  split; [apply departing_new|]. split.
  - rewrite departing_new, filter_In, String.eqb_eq. reflexivity.
  - unfold RailNetwork.departing. rewrite lower_idem. reflexivity.
Qed.

Section CandidateFacts.
Import Str RailNetwork.

Lemma in_candidates net dc ac tt days ms m it :
  In it (candidates net dc ac tt days ms m)
  <-> In it (direct net dc ac tt days)
      \/ (1 <= ms /\ truthy dc = true /\ truthy ac = true
          /\ In it (_build_one_stop net dc ac tt days m))
      \/ (2 <= ms /\ truthy dc = true /\ truthy ac = true
          /\ In it (_build_two_stops net dc ac tt days m)).
Proof.
  unfold candidates.
  destruct (Z.geb_spec ms 1), (Z.geb_spec ms 2), (truthy dc), (truthy ac);
    cbn [andb]; rewrite ?in_app_iff; intuition (try lia; try discriminate).
Qed.

Lemma in_direct rs dc ac tt days it :
  In it (direct (new rs) dc ac tt days)
  <-> exists r, it = itinerary_of [r] /\ In r rs /\ _match r dc ac tt days = true.
Proof.
  unfold direct. cbn [routes new]. rewrite in_flat_map. split.
  - intros (r & Hin & H). destruct (_match r dc ac tt days) eqn:E; cbn [negb] in H;
      [|destruct H]. destruct H as [<-|[]]. eauto.
  - intros (r & -> & Hin & Hm). exists r. split; [exact Hin|].
    rewrite Hm. left. reflexivity.
Qed.

Lemma in_one_stop rs dc ac tt days m it :
  In it (_build_one_stop (new rs) dc ac tt days m)
  <-> exists r1 r2,
        it = itinerary_of [r1; r2]
        /\ In r1 rs /\ same_text dc (departure_city r1) = true
        /\ service_ok tt days r1 = true
        /\ In r2 rs /\ follows r1 r2 = true
        /\ same_text ac (arrival_city r2) = true /\ service_ok tt days r2 = true
        /\ _transfer_gap_ok r1 r2 m = true.
Proof.
  unfold _build_one_stop. cbn [routes new]. rewrite in_flat_map. split.
  - intros (r1 & H1 & H). apply in_dep_routes in H1 as (H1 & Hd1 & Hs1).
    apply in_flat_map in H as (r2 & H2 & H). apply in_departing in H2 as [H2 Hf].
    rewrite (match_after _ _ ac tt days Hf) in H.
    destruct (same_text ac (arrival_city r2)) eqn:Ea; cbn [andb negb] in H; [|destruct H].
    destruct (service_ok tt days r2) eqn:Es; cbn [negb] in H; [|destruct H].
    destruct (_transfer_gap_ok r1 r2 m) eqn:Eg; [|destruct H].
    destruct H as [<-|[]]. exists r1, r2. auto 10.
  - intros (r1 & r2 & -> & H1 & Hd1 & Hs1 & H2 & Hf & Ha & Hs2 & Hg).
    exists r1. split; [apply in_dep_routes; auto|].
    apply in_flat_map. exists r2. split; [apply in_departing; auto|].
    rewrite (match_after _ _ ac tt days Hf), Ha, Hs2, Hg. left. reflexivity.
Qed.

Lemma in_two_stops rs dc ac tt days m it :
  In it (_build_two_stops (new rs) dc ac tt days m)
  <-> exists r1 r2 r3,
        it = itinerary_of [r1; r2; r3]
        /\ In r1 rs /\ same_text dc (departure_city r1) = true
        /\ service_ok tt days r1 = true
        /\ In r2 rs /\ follows r1 r2 = true /\ service_ok tt days r2 = true
        /\ _transfer_gap_ok r1 r2 m = true
        /\ In r3 rs /\ follows r2 r3 = true
        /\ same_text ac (arrival_city r3) = true /\ service_ok tt days r3 = true
        /\ _transfer_gap_ok r2 r3 m = true.
Proof.
  unfold _build_two_stops. cbn [routes new]. rewrite in_flat_map. split.
  - intros (r1 & H1 & H). apply in_dep_routes in H1 as (H1 & Hd1 & Hs1).
    apply in_flat_map in H as (r2 & H2 & H). apply in_departing in H2 as [H2 Hf].
    rewrite (match_after _ _ None tt days Hf), same_text_none in H. cbn [andb] in H.
    destruct (service_ok tt days r2) eqn:Es; cbn [negb] in H; [|destruct H].
    destruct (_transfer_gap_ok r1 r2 m) eqn:Eg; cbn [negb] in H; [|destruct H].
    apply in_flat_map in H as (r3 & H3 & H). apply in_departing in H3 as [H3 Hf3].
    rewrite (match_after _ _ ac tt days Hf3) in H.
    destruct (same_text ac (arrival_city r3)) eqn:Ea; cbn [andb negb] in H; [|destruct H].
    destruct (service_ok tt days r3) eqn:Es3; cbn [negb] in H; [|destruct H].
    destruct (_transfer_gap_ok r2 r3 m) eqn:Eg3; [|destruct H].
    destruct H as [<-|[]]. exists r1, r2, r3. auto 15.
  - intros (r1 & r2 & r3 & -> & H1 & Hd1 & Hs1 & H2 & Hf & Hs2 & Hg & H3 & Hf3
            & Ha & Hs3 & Hg3).
    exists r1. split; [apply in_dep_routes; auto|].
    apply in_flat_map. exists r2. split; [apply in_departing; auto|].
    rewrite (match_after _ _ None tt days Hf), same_text_none, Hs2, Hg. cbn [andb negb].
    apply in_flat_map. exists r3. split; [apply in_departing; auto|].
    rewrite (match_after _ _ ac tt days Hf3), Ha, Hs3, Hg3. left. reflexivity.
Qed.

(** What [search] collects before it removes duplicates: exactly the
    feasible chains of one to three schedule routes that [max_stops] and the
    given cities allow. *)
Lemma candidates_feasible rs dc ac tt days ms m it :
  In it (candidates (new rs) dc ac tt days ms m)
  <-> exists chain,
        it = itinerary_of chain
        /\ feasible rs dc ac tt days m chain
        /\ legs_allowed dc ac ms (length chain).
Proof.
  rewrite in_candidates, in_direct, in_one_stop, in_two_stops. split.
  - intros [(r & -> & Hin & Hm)
           |[(Hms & Hdc & Hac & r1 & r2 & -> & H1 & Hd1 & Hs1 & H2 & Hf & Ha & Hs2 & Hg)
            |(Hms & Hdc & Hac & r1 & r2 & r3 & -> & H1 & Hd1 & Hs1 & H2 & Hf & Hs2 & Hg
              & H3 & Hf3 & Ha & Hs3 & Hg3)]].
    + rewrite match_split in Hm.
      apply andb_true_iff in Hm as [Hm Hs]. apply andb_true_iff in Hm as [Hd Ha].
      exists [r]. split; [reflexivity|]. split; [|left; reflexivity].
      repeat split.
      * constructor; [auto|constructor].
      * intros ? [= <-]. exact Hd.
      * intros ? [= <-]. exact Ha.
    + exists [r1; r2]. split; [reflexivity|]. split; [|right; left; auto].
      repeat split.
      * repeat constructor; auto.
      * intros ? [= <-]. exact Hd1.
      * intros ? [= <-]. exact Ha.
      * cbn [linked]. rewrite Hf, Hg. reflexivity.
    + exists [r1; r2; r3]. split; [reflexivity|]. split; [|right; right; auto].
      repeat split.
      * repeat constructor; auto.
      * intros ? [= <-]. exact Hd1.
      * intros ? [= <-]. exact Ha.
      * cbn [linked]. rewrite Hf, Hg, Hf3, Hg3. reflexivity.
  - intros (chain & -> & (Hall & Hhd & Hlast & Hlink) & Hlen).
    destruct Hlen as [Hn|[(Hn & Hms & Hdc & Hac)|(Hn & Hms & Hdc & Hac)]].
    + destruct chain as [|r [|]]; try discriminate. left.
      exists r. split; [reflexivity|].
      inversion Hall as [|? ? [Hin Hs] _]; subst. split; [exact Hin|].
      rewrite match_split, (Hhd r eq_refl), (Hlast r eq_refl), Hs. reflexivity.
    + destruct chain as [|r1 [|r2 [|]]]; try discriminate. right. left.
      split; [exact Hms|]. split; [exact Hdc|]. split; [exact Hac|].
      exists r1, r2. split; [reflexivity|].
      inversion Hall as [|? ? [Hin1 Hs1] Hall']; subst.
      inversion Hall' as [|? ? [Hin2 Hs2] _]; subst.
      cbn [linked] in Hlink. rewrite andb_true_r in Hlink.
      apply andb_true_iff in Hlink as [Hf Hg].
      pose proof (Hhd r1 eq_refl). pose proof (Hlast r2 eq_refl). auto 10.
    + destruct chain as [|r1 [|r2 [|r3 [|]]]]; try discriminate. right. right.
      split; [exact Hms|]. split; [exact Hdc|]. split; [exact Hac|].
      exists r1, r2, r3. split; [reflexivity|].
      inversion Hall as [|? ? [Hin1 Hs1] Hall']; subst.
      inversion Hall' as [|? ? [Hin2 Hs2] Hall'']; subst.
      inversion Hall'' as [|? ? [Hin3 Hs3] _]; subst.
      cbn [linked] in Hlink. rewrite andb_true_r in Hlink.
      apply andb_true_iff in Hlink as [H12 H23].
      apply andb_true_iff in H12 as [Hf Hg]. apply andb_true_iff in H23 as [Hf3 Hg3].
      pose proof (Hhd r1 eq_refl). pose proof (Hlast r3 eq_refl). auto 15.
Qed.

(** Every itinerary returned by [search] is one of these chains. *)
Lemma search_feasible rs dc ac tt days ms m tc sb it :
  In it (search (new rs) dc ac tt days ms m tc sb) ->
  exists chain,
    it = itinerary_of chain
    /\ feasible rs dc ac tt days m chain
    /\ legs_allowed dc ac ms (length chain).
Proof.
  intros Hin.
  apply (Permutation_in _ (search_perm (new rs) dc ac tt days ms m tc sb)) in Hin.
  apply dedup_members in Hin. apply candidates_feasible. exact Hin.
Qed.
End CandidateFacts.

Section SearchResults.
Import Str RailNetwork.

Lemma legs_key_itinerary_of (chain : list TrainRoute) :
  Itin.legs_key (itinerary_of chain) = map route_id chain.
Proof. unfold Itin.legs_key, itinerary_of. cbn [legs]. rewrite map_map. reflexivity. Qed.

Lemma adjacent_map {X Y} (f : X -> Y) (l : list X) :
  Itin.adjacent (map f l) = map (fun p => (f (fst p), f (snd p))) (Itin.adjacent l).
Proof.
  induction l as [|a [|b l] IH]; [reflexivity..|].
  change (Itin.adjacent (map f (a :: b :: l)))
    with ((f a, f b) :: Itin.adjacent (map f (b :: l))).
  rewrite IH. reflexivity.
Qed.

Lemma linked_adjacent (m : Z) (chain : list TrainRoute) :
  linked m chain = true ->
  Forall (fun p => follows (fst p) (snd p) = true
                   /\ _transfer_gap_ok (fst p) (snd p) m = true)
         (Itin.adjacent chain).
Proof.
  induction chain as [|a [|b chain] IH]; intros H; [constructor..|].
  change (linked m (a :: b :: chain))
    with (follows a b && _transfer_gap_ok a b m && linked m (b :: chain)) in H.
  apply andb_true_iff in H as [H Hrest]. apply andb_true_iff in H as [Hf Hg].
  change (Itin.adjacent (a :: b :: chain)) with ((a, b) :: Itin.adjacent (b :: chain)).
  constructor; [auto|apply IH, Hrest].
Qed.
End SearchResults.

(** X7.  Every leg of every itinerary returned by [search] is a route of the
    schedule that passes the train-type and day filters of the call. *)
Theorem search_legs_from_schedule
    (rs : list TrainRoute)
    (dep_city arr_city train_type day_contains : option string)
    (max_stops min_transfer_minutes : Z) (travel_class sort_by : string) :
  Forall
    (fun it =>
       Forall (fun leg => In (route leg) rs
                          /\ service_ok train_type day_contains (route leg) = true)
              (legs it))
    (RailNetwork.search (RailNetwork.new rs) dep_city arr_city train_type
                        day_contains max_stops min_transfer_minutes travel_class sort_by).
Proof.
  apply List.Forall_forall. intros it Hin.
  apply search_feasible in Hin as (chain & -> & (Hall & _) & _).
  unfold RailNetwork.itinerary_of. cbn [legs].
  apply List.Forall_forall. intros leg Hleg.
  apply in_map_iff in Hleg as (r & <- & Hr). cbn [route].
  rewrite List.Forall_forall in Hall. auto.
Qed.

(** X8.  Every itinerary returned by [search] has an origin and a
    destination; the origin equals the requested departure city and the
    destination the requested arrival city, up to case, whenever the city is
    given. *)
Theorem search_endpoints
    (rs : list TrainRoute)
    (dep_city arr_city train_type day_contains : option string)
    (max_stops min_transfer_minutes : Z) (travel_class sort_by : string) :
  Forall
    (fun it =>
       exists o d,
         Itin.origin it = Some o /\ Itin.destination it = Some d
         /\ same_text dep_city o = true /\ same_text arr_city d = true)
    (RailNetwork.search (RailNetwork.new rs) dep_city arr_city train_type
                        day_contains max_stops min_transfer_minutes travel_class sort_by).
Proof.
  apply List.Forall_forall. intros it Hin.
  apply search_feasible in Hin as (chain & -> & (_ & Hhd & Hlast & _) & Hlen).
  assert (Hne : chain <> []).
  { intros ->. destruct Hlen as [H|[[H _]|[H _]]]; discriminate H. }
  destruct chain as [|r chain]; [contradiction|].
  destruct (last (r :: chain)) as [z|] eqn:Ez.
  - exists (departure_city r), (arrival_city z).
    split; [reflexivity|]. split.
    + unfold Itin.destination, RailNetwork.itinerary_of. cbn [legs].
      change (last (map (fun r0 => {| route := r0 |}) (r :: chain)))
        with (last ((fun r0 => {| route := r0 |}) <$> (r :: chain))).
      rewrite fmap_last, Ez. reflexivity.
    + split; [apply Hhd; reflexivity|apply Hlast; reflexivity].
  - apply last_None in Ez. discriminate.
Qed.

(** X9.  In every itinerary returned by [search] each leg leaves from the
    city where the leg before it arrives, up to case, and not earlier than
    [min_transfer_minutes] after that arrival, the gap being counted by
    [duration_minutes]. *)
Theorem search_legs_connect
    (rs : list TrainRoute)
    (dep_city arr_city train_type day_contains : option string)
    (max_stops min_transfer_minutes : Z) (travel_class sort_by : string) :
  Forall
    (fun it =>
       Forall (fun p =>
                 Str.lower (departure_city (route (snd p)))
                 = Str.lower (arrival_city (route (fst p)))
                 /\ min_transfer_minutes
                    <= TimeModel.duration_minutes (arr_min (route (fst p)))
                                                  (dep_min (route (snd p))))
              (Itin.adjacent (legs it)))
    (RailNetwork.search (RailNetwork.new rs) dep_city arr_city train_type
                        day_contains max_stops min_transfer_minutes travel_class sort_by).
Proof.
  apply List.Forall_forall. intros it Hin.
  apply search_feasible in Hin as (chain & -> & (_ & _ & _ & Hlink) & _).
  unfold RailNetwork.itinerary_of. cbn [legs]. rewrite adjacent_map.
  apply List.Forall_forall. intros p Hp.
  apply in_map_iff in Hp as ([a b] & <- & Hab).
  pose proof (linked_adjacent _ _ Hlink) as Hall.
  rewrite List.Forall_forall in Hall. destruct (Hall _ Hab) as [Hf Hg].
  cbn [fst snd route] in *. split.
  - apply String.eqb_eq. exact Hf.
  - apply transfer_gap_ok_iff. exact Hg.
Qed.

(** X10.  [search] returns itineraries of one, two or three legs only: two
    legs need [max_stops >= 1], three need [max_stops >= 2], and both need a
    departure and an arrival city; so with [max_stops <= 0], or with a city
    missing, every result is a single leg.  The number of stops shown for a
    result is its number of legs minus one. *)
Theorem search_leg_count
    (rs : list TrainRoute)
    (dep_city arr_city train_type day_contains : option string)
    (max_stops min_transfer_minutes : Z) (travel_class sort_by : string) :
  Forall
    (fun it =>
       legs_allowed dep_city arr_city max_stops (length (legs it))
       /\ Itin.stops it = Z.of_nat (length (legs it)) - 1
       /\ 0 <= Itin.stops it <= Z.max 0 (Z.min max_stops 2)
       /\ (Str.truthy dep_city && Str.truthy arr_city = false -> Itin.stops it = 0))
    (RailNetwork.search (RailNetwork.new rs) dep_city arr_city train_type
                        day_contains max_stops min_transfer_minutes travel_class sort_by).
Proof.
  apply List.Forall_forall. intros it Hin.
  apply search_feasible in Hin as (chain & -> & _ & Hlen).
  unfold Itin.stops, RailNetwork.itinerary_of. cbn [legs]. rewrite length_map.
  split; [exact Hlen|].
  destruct Hlen as [->|[(-> & Hms & Hd & Ha)|(-> & Hms & Hd & Ha)]];
    cbn; try rewrite Hd, Ha; repeat split; try lia; try discriminate.
Qed.

(** X11.  The route-id sequences of the list returned by [search] are
    exactly those of the chains of one to three schedule routes that pass
    the filters, start and end at the requested cities, connect city to city
    with at least the minimum transfer time, and are as long as [max_stops]
    and the given cities allow: no such connection is left out. *)
Theorem search_returns_every_feasible_chain
    (rs : list TrainRoute)
    (dep_city arr_city train_type day_contains : option string)
    (max_stops min_transfer_minutes : Z) (travel_class sort_by : string)
    (k : list string) :
  In k (map Itin.legs_key
          (RailNetwork.search (RailNetwork.new rs) dep_city arr_city train_type
             day_contains max_stops min_transfer_minutes travel_class sort_by))
  <-> exists chain,
        k = map route_id chain
        /\ feasible rs dep_city arr_city train_type day_contains
                    min_transfer_minutes chain
        /\ legs_allowed dep_city arr_city max_stops (length chain).
Proof.
  pose proof (search_perm (RailNetwork.new rs) dep_city arr_city train_type
                day_contains max_stops min_transfer_minutes travel_class sort_by) as Hp.
  split.
  - intros Hk. apply in_map_iff in Hk as (it & <- & Hin).
    apply search_feasible in Hin as (chain & -> & Hf & Hl).
    exists chain. rewrite legs_key_itinerary_of. auto.
  - intros (chain & -> & Hf & Hl).
    apply (Permutation_in _ (Permutation_map Itin.legs_key (Permutation_sym Hp))).
    apply dedup_keys. rewrite <- legs_key_itinerary_of. apply in_map.
    apply candidates_feasible. eauto.
Qed.

Section FloatSum.










End FloatSum.



(* ================================================================== *)
(** * Further properties: the in-memory ledger *)
(* ================================================================== *)

Section ClientFacts.
Import Str Booking.

Lemma new_Client_inv (first last id_num : string) (age : Z) (c : Client) :
  new_Client first last id_num age = Ok c ->
  valid_traveler (first, last, id_num, age) /\ c = client_of (first, last, id_num, age).
Proof.
  unfold new_Client, valid_traveler, client_of.
  destruct (Z.ltb_spec age 0); [discriminate|].
  destruct (nonempty first) eqn:Ef; [|discriminate].
  destruct (nonempty last) eqn:El; [|discriminate].
  destruct (nonempty id_num) eqn:Ei; [|discriminate].
  cbn [negb orb]. intros [= <-].
  apply nonempty_true in Ef, El, Ei. auto.
Qed.

Lemma new_Client_invalid (t : traveler) :
  ~ valid_traveler t ->
  let '(first, last, id_num, age) := t in
  new_Client first last id_num age = Raise (InvalidTraveler (violated_rule t)).
Proof.
  destruct t as [[[first last] id_num] age]. intros Hn.
  unfold new_Client, violated_rule.
  destruct (Z.ltb_spec age 0); [reflexivity|].
  destruct (nonempty first) eqn:Ef; [|reflexivity].
  destruct (nonempty last) eqn:El; [|reflexivity].
  destruct (nonempty id_num) eqn:Ei; [|reflexivity].
  exfalso. apply Hn. apply nonempty_true in Ef, El, Ei. cbn. auto.
Qed.

Lemma parse_travelers_inv (ts : list traveler) :
  forall seen acc registry registry' cs,
    parse_travelers ts seen acc registry = (registry', Ok cs) ->
    cs = (acc ++ map client_of ts)%list
    /\ Forall valid_traveler ts
    /\ List.NoDup (map traveler_key ts)
    /\ (forall t, In t ts -> traveler_key t ∉ seen).
Proof.
  induction ts as [|t ts IH]; intros seen acc registry registry' cs H.
  - cbn in H. injection H as _ <-. rewrite app_nil_r.
    repeat split; [constructor|constructor|intros ? []].
  - destruct t as [[[first last] id_num] age]. cbn [parse_travelers] in H.
    destruct (new_Client first last id_num age) as [c|e] eqn:Ec; [|discriminate].
    apply new_Client_inv in Ec as [Hv ->].
    destruct (decide (client_key (client_of (first, last, id_num, age)) ∈ seen))
      as [Hin|Hnin]; [discriminate|].
    apply IH in H as (-> & Hvs & Hnd & Hseen).
    split; [rewrite <- app_assoc; reflexivity|].
    split; [constructor; assumption|]. split.
    + cbn [map]. constructor; [|exact Hnd].
      intros Hk. apply in_map_iff in Hk as (t' & Hk & Hin').
      apply (Hseen t' Hin'). rewrite Hk.
      apply elem_of_union. left. apply elem_of_singleton. reflexivity.
    + intros t' [<-|Hin']; [exact Hnin|].
      intros Hs. apply (Hseen t' Hin'). apply elem_of_union. right. exact Hs.
Qed.

(** The entries before the first offending one are accepted and recorded. *)
Lemma parse_travelers_prefix (pre rest : list traveler) :
  forall seen acc registry,
    Forall valid_traveler pre ->
    List.NoDup (map traveler_key pre) ->
    (forall t, In t pre -> traveler_key t ∉ seen) ->
    exists seen',
      (forall k, k ∈ seen' <-> k ∈ seen \/ In k (map traveler_key pre))
      /\ parse_travelers (pre ++ rest) seen acc registry
         = parse_travelers rest seen' (acc ++ map client_of pre)
             (fold_left (fun m t => clients_add (client_of t) m) pre registry).
Proof.
  induction pre as [|t pre IH]; intros seen acc registry Hv Hnd Hseen.
  - exists seen. split; [cbn; tauto|]. cbn. rewrite app_nil_r. reflexivity.
  - inversion Hv as [|? ? Hvt Hvs]; subst. inversion Hnd as [|? ? Hnotin Hnd']; subst.
    pose proof (new_Client_valid t Hvt) as Hc.
    destruct t as [[[first last] id_num] age].
    cbn [app parse_travelers]. rewrite Hc.
    destruct (decide (client_key (client_of (first, last, id_num, age)) ∈ seen))
      as [Hin|Hnin]; [exfalso; exact (Hseen _ (or_introl eq_refl) Hin)|].
    destruct (IH ({[client_key (client_of (first, last, id_num, age))]} ∪ seen)
                 (acc ++ [client_of (first, last, id_num, age)])%list
                 (clients_add (client_of (first, last, id_num, age)) registry)
                 Hvs Hnd') as (seen' & Hs' & Hp).
    + intros t' Hin' Hk. apply elem_of_union in Hk as [Hk|Hk].
      * apply elem_of_singleton in Hk. apply Hnotin.
        change (traveler_key (first, last, id_num, age))
          with (client_key (client_of (first, last, id_num, age))).
        rewrite <- Hk. apply in_map, Hin'.
      * exact (Hseen t' (or_intror Hin') Hk).
    + exists seen'. split.
      * intros k. rewrite Hs', elem_of_union, elem_of_singleton. cbn [map In].
        unfold traveler_key at 2. intuition congruence.
      * rewrite Hp. cbn [map fold_left]. rewrite <- app_assoc. reflexivity.
Qed.
End ClientFacts.

(** X13.  Two clients are equal exactly when their hashed keys, the
    lower-cased last name and the id number, are equal; first name and age
    play no part, and the equality is reflexive, symmetric and transitive,
    as sets and dictionaries of clients need. *)
Theorem client_equality_is_key_equality (c1 c2 c3 : Booking.Client) :
  (Booking.client_eqb c1 c2 = true <-> Booking.client_key c1 = Booking.client_key c2)
  /\ Booking.client_eqb c1 c1 = true
  /\ Booking.client_eqb c1 c2 = Booking.client_eqb c2 c1
  /\ (Booking.client_eqb c1 c2 = true -> Booking.client_eqb c2 c3 = true ->
      Booking.client_eqb c1 c3 = true)
  /\ (forall first age,
        Booking.client_eqb
          {| Booking.first_name := first; Booking.last_name := Booking.last_name c1;
             Booking.id_number := Booking.id_number c1; Booking.age := age |} c1 = true)
  /\ (Str.lower (Booking.last_name c1) = Str.lower (Booking.last_name c2) ->
      Booking.id_number c1 = Booking.id_number c2 -> Booking.client_eqb c1 c2 = true).
Proof.
  split; [apply client_eqb_key|]. split; [apply client_eqb_refl|]. split.
  - unfold Booking.client_eqb.
    rewrite (String.eqb_sym (Str.lower (Booking.last_name c1))),
      (String.eqb_sym (Booking.id_number c1)). reflexivity.
  - split; [|split].
    + rewrite !client_eqb_key. congruence.
    + intros first age. apply client_eqb_key. reflexivity.
    + intros Hl Hi. apply client_eqb_key. unfold Booking.client_key. congruence.
Qed.

Lemma client_equality_is_key_equality_witness :
  Booking.client_eqb (client_of john) (client_of johnny) = true
  /\ Booking.client_eqb (client_of johnny) (client_of john) = true
  /\ Booking.client_eqb (client_of john) (client_of john) = true.
Proof.
  destruct (client_equality_is_key_equality (client_of john) (client_of johnny)
              (client_of john)) as (_ & _ & _ & Htrans & _ & Hkey).
  assert (H12 : Booking.client_eqb (client_of john) (client_of johnny) = true)
    by (apply Hkey; reflexivity).
  assert (H21 : Booking.client_eqb (client_of johnny) (client_of john) = true)
    by reflexivity.
  split; [exact H12|]. split; [exact H21|]. exact (Htrans H12 H21).
Defined.

(** X14.  A call of [book_trip] that raises stores no trip and indexes
    nothing: [get_trip_by_id] and [get_trips_by_client] answer after it as
    they did before, for every id and every client. *)
Theorem book_trip_failure_stores_no_trip
    (env : Booking.Env) (bs : Booking.BookingSystem) (conn : Itinerary)
    (ts : list Booking.traveler) :
  is_ok (snd (Booking.book_trip env bs conn ts)) = false ->
  Booking.trips (fst (Booking.book_trip env bs conn ts)) = Booking.trips bs
  /\ Booking.client_trips_index (fst (Booking.book_trip env bs conn ts))
     = Booking.client_trips_index bs
  /\ (forall id, Booking.get_trip_by_id (fst (Booking.book_trip env bs conn ts)) id
                 = Booking.get_trip_by_id bs id)
  /\ (forall day_of today last_name id_number,
        Booking.get_trips_by_client day_of today
          (fst (Booking.book_trip env bs conn ts)) last_name id_number
        = Booking.get_trips_by_client day_of today bs last_name id_number).
Proof.
  intros Hfail.
  destruct (book_trip_effect env bs conn ts) as [(_ & Ht & Hi)|(trip & He & _)].
  - split; [exact Ht|]. split; [exact Hi|]. split.
    + intros id. unfold Booking.get_trip_by_id. rewrite Ht. reflexivity.
    + intros. unfold Booking.get_trips_by_client. rewrite Ht, Hi. reflexivity.
  - rewrite He in Hfail. discriminate.
Qed.

Lemma book_trip_failure_stores_no_trip_witness :
  is_ok (snd (Booking.book_trip env0 Booking.new_BookingSystem conn0 [john; johnny])) = false
  /\ Booking.trips (fst (Booking.book_trip env0 Booking.new_BookingSystem conn0
                           [john; johnny]))
     = Booking.trips Booking.new_BookingSystem.
Proof.
  assert (H : is_ok (snd (Booking.book_trip env0 Booking.new_BookingSystem conn0
                            [john; johnny])) = false) by (vm_compute; reflexivity).
  split; [exact H|].
  exact (proj1 (book_trip_failure_stores_no_trip env0 Booking.new_BookingSystem conn0
                  [john; johnny] H)).
Defined.

(** X15.  After a call that returns a trip, [get_trip_by_id] finds this trip
    under its id, and every other id answers as before the call. *)
Theorem book_trip_then_get_trip_by_id
    (env : Booking.Env) (bs : Booking.BookingSystem) (conn : Itinerary)
    (ts : list Booking.traveler) (trip : Booking.Trip) :
  snd (Booking.book_trip env bs conn ts) = Ok trip ->
  Booking.get_trip_by_id (fst (Booking.book_trip env bs conn ts)) (Booking.trip_id trip)
  = Some trip
  /\ forall id, id <> Booking.trip_id trip ->
       Booking.get_trip_by_id (fst (Booking.book_trip env bs conn ts)) id
       = Booking.get_trip_by_id bs id.
Proof.
  intros Hok.
  destruct (book_trip_effect env bs conn ts) as [(Hf & _)|(trip' & He & _ & Ht & _)].
  - rewrite Hok in Hf. discriminate.
  - rewrite Hok in He. injection He as <-.
    unfold Booking.get_trip_by_id. rewrite Ht. split.
    + apply lookup_insert_eq.
    + intros id Hne. apply lookup_insert_ne. congruence.
Qed.

Lemma book_trip_then_get_trip_by_id_witness :
  exists trip,
    snd (Booking.book_trip env0 Booking.new_BookingSystem conn0 [john; jane]) = Ok trip
    /\ Booking.get_trip_by_id
         (fst (Booking.book_trip env0 Booking.new_BookingSystem conn0 [john; jane]))
         "TRP-0A1B2C3D" = Some trip.
Proof.
  destruct (snd (Booking.book_trip env0 Booking.new_BookingSystem conn0 [john; jane]))
    as [trip|e] eqn:E; [|vm_compute in E; discriminate].
  exists trip. split; [reflexivity|].
  assert (Hid : Booking.trip_id trip = "TRP-0A1B2C3D").
  { vm_compute in E. injection E as <-. reflexivity. }
  rewrite <- Hid.
  exact (proj1 (book_trip_then_get_trip_by_id env0 Booking.new_BookingSystem conn0
                  [john; jane] trip E)).
Defined.

(** X16.  The agreement between the client index and the stored trips (a
    trip id is indexed for a client exactly when the trip stored under it has
    a reservation of that client) holds for a new ledger and survives every
    call of [book_trip], failed or not, whose generated trip id is not yet in
    use. *)
Theorem ledger_index_agrees_with_trips
    (env : Booking.Env) (bs : Booking.BookingSystem) (conn : Itinerary)
    (ts : list Booking.traveler) :
  ledger_ok Booking.new_BookingSystem
  /\ (ledger_ok bs ->
      Booking.get_trip_by_id bs (Booking.generate_trip_id env) = None ->
      ledger_ok (fst (Booking.book_trip env bs conn ts))).
Proof.
  split; [exact ledger_ok_new|]. intros Hok Hfresh.
  apply book_trip_keeps_ledger_ok; assumption.
Qed.

Lemma ledger_index_agrees_with_trips_witness :
  ledger_ok Booking.new_BookingSystem
  /\ Booking.get_trip_by_id Booking.new_BookingSystem (Booking.generate_trip_id env0) = None
  /\ ledger_ok (fst (Booking.book_trip env0 Booking.new_BookingSystem conn0 [john; jane])).
Proof.
  assert (Hf : Booking.get_trip_by_id Booking.new_BookingSystem
                 (Booking.generate_trip_id env0) = None) by reflexivity.
  destruct (ledger_index_agrees_with_trips env0 Booking.new_BookingSystem conn0
              [john; jane]) as [H0 Hkeep].
  split; [exact H0|]. split; [exact Hf|]. exact (Hkeep H0 Hf).
Defined.

Section Offenders.
Import Str Booking.

Lemma book_trip_parse_error (env : Env) (bs : BookingSystem) (conn : Itinerary)
    (ts : list traveler) registry e :
  ts <> [] ->
  parse_travelers ts ∅ [] (clients bs) = (registry, Raise e) ->
  snd (book_trip env bs conn ts) = Raise e.
Proof.
  intros Hne Hp. unfold book_trip. destruct ts; [contradiction|].
  rewrite Hp. reflexivity.
Qed.
End Offenders.

(** X17.  The first offending entry of the traveler list decides the error,
    before the ledger is consulted: if the entries before it are valid and
    pairwise distinct, an entry that breaks a Client rule raises
    InvalidTraveler with the first rule it breaks (age, then names, then id
    number), and a valid entry with the identity of an earlier one raises
    DuplicateTravelerInBooking with its own names. *)
Theorem book_trip_first_offender
    (env : Booking.Env) (bs : Booking.BookingSystem) (conn : Itinerary)
    (pre post : list Booking.traveler) (t : Booking.traveler) :
  Forall valid_traveler pre ->
  List.NoDup (map traveler_key pre) ->
  (~ valid_traveler t ->
   snd (Booking.book_trip env bs conn (pre ++ t :: post))
   = Raise (Booking.InvalidTraveler (violated_rule t)))
  /\ (valid_traveler t -> In (traveler_key t) (map traveler_key pre) ->
      snd (Booking.book_trip env bs conn (pre ++ t :: post))
      = Raise (Booking.DuplicateTravelerInBooking (fst (fst (fst t))) (snd (fst (fst t))))).
Proof.
  intros Hv Hnd.
  destruct (parse_travelers_prefix pre (t :: post) ∅ [] (Booking.clients bs) Hv Hnd
              (fun t _ => not_elem_of_empty (traveler_key t))) as (seen' & Hs & Hp).
  assert (Hne : (pre ++ t :: post)%list <> []) by (destruct pre; discriminate).
  split.
  - intros Hbad. pose proof (new_Client_invalid t Hbad) as Hc.
    destruct t as [[[first last] id_num] age].
    eapply book_trip_parse_error; [exact Hne|].
    rewrite Hp. cbn [Booking.parse_travelers]. rewrite Hc. reflexivity.
  - intros Hgood Hdup. pose proof (new_Client_valid t Hgood) as Hc.
    destruct t as [[[first last] id_num] age].
    eapply book_trip_parse_error; [exact Hne|].
    rewrite Hp. cbn [Booking.parse_travelers]. rewrite Hc.
    destruct (decide (Booking.client_key (client_of (first, last, id_num, age)) ∈ seen'))
      as [Hin|Hnin]; [reflexivity|].
    exfalso. apply Hnin, Hs. right. exact Hdup.
Qed.

Lemma book_trip_first_offender_witness :
  Forall valid_traveler [john] /\ List.NoDup (map traveler_key [john])
  /\ ~ valid_traveler ("Jane", "", "PASS002", -1)
  /\ snd (Booking.book_trip env0 Booking.new_BookingSystem conn0
            ([john] ++ ("Jane", "", "PASS002", -1) :: [jane]))
     = Raise (Booking.InvalidTraveler (Booking.NegativeAge (-1)))
  /\ valid_traveler johnny /\ In (traveler_key johnny) (map traveler_key [john])
  /\ snd (Booking.book_trip env0 Booking.new_BookingSystem conn0 ([john] ++ johnny :: [jane]))
     = Raise (Booking.DuplicateTravelerInBooking "Johnny" "SMITH").
Proof.
  assert (Hv : Forall valid_traveler [john]).
  { constructor; [|constructor]. cbn. repeat split; [lia|discriminate..]. }
  assert (Hnd : List.NoDup (map traveler_key [john])).
  { constructor; [intros []|constructor]. }
  assert (Hbad : ~ valid_traveler ("Jane", "", "PASS002", -1)) by (cbn; lia).
  assert (Hgood : valid_traveler johnny) by (cbn; repeat split; [lia|discriminate..]).
  assert (Hdup : In (traveler_key johnny) (map traveler_key [john])) by (left; reflexivity).
  split; [exact Hv|]. split; [exact Hnd|]. split; [exact Hbad|]. split.
  - exact (proj1 (book_trip_first_offender env0 Booking.new_BookingSystem conn0 [john]
                    [jane] ("Jane", "", "PASS002", -1) Hv Hnd) Hbad).
  - split; [exact Hgood|]. split; [exact Hdup|].
    exact (proj2 (book_trip_first_offender env0 Booking.new_BookingSystem conn0 [john]
                    [jane] johnny Hv Hnd) Hgood Hdup).
Defined.

(** X18.  On a ledger whose index agrees with its trips, [book_trip]
    returns a trip exactly when the traveler list is non-empty, every entry
    satisfies the Client rules, the identities are pairwise distinct and no
    traveler holds the itinerary; the trip then has one reservation per
    traveler, in order, carries the generated id (which starts with TRP-) and
    the itinerary, and the ledger after the call holds it. *)
Theorem book_trip_succeeds_iff
    (env : Booking.Env) (bs : Booking.BookingSystem) (conn : Itinerary)
    (ts : list Booking.traveler) :
  ledger_ok bs ->
  (is_ok (snd (Booking.book_trip env bs conn ts)) = true
   <-> ts <> [] /\ Forall valid_traveler ts /\ List.NoDup (map traveler_key ts)
       /\ forall t, In t ts -> ~ holds_connection bs (traveler_key t) conn)
  /\ (forall trip, snd (Booking.book_trip env bs conn ts) = Ok trip ->
        booked env conn ts trip
        /\ Booking.total_travelers trip = length ts
        /\ Str.startswith "TRP-" (Booking.trip_id trip) = true
        /\ fst (Booking.book_trip env bs conn ts) = committed bs ts trip).
Proof.
  intros Hok.
  assert (Hshape : is_ok (snd (Booking.book_trip env bs conn ts)) = true ->
                   ts <> [] /\ Forall valid_traveler ts
                   /\ List.NoDup (map traveler_key ts)).
  { unfold Booking.book_trip. destruct ts as [|t ts]; [discriminate|].
    destruct (Booking.parse_travelers (t :: ts) ∅ [] (Booking.clients bs))
      as [registry [cs|e]] eqn:Ep; [|discriminate].
    intros _. apply parse_travelers_inv in Ep as (_ & Hv & Hnd & _).
    split; [discriminate|]. split; assumption. }
  split; [split|].
  - intros Hs. destruct (Hshape Hs) as (Hne & Hv & Hnd).
    split; [exact Hne|]. split; [exact Hv|]. split; [exact Hnd|].
    destruct (book_trip_checked env bs conn ts Hok Hne Hv Hnd)
      as [(t & _ & _ & He)|(Hfree & _)]; [|exact Hfree].
    rewrite He in Hs. discriminate.
  - intros (Hne & Hv & Hnd & Hfree).
    destruct (book_trip_checked env bs conn ts Hok Hne Hv Hnd)
      as [(t & Hin & Hh & _)|(_ & trip & _ & He)].
    + exfalso. exact (Hfree t Hin Hh).
    + rewrite He. reflexivity.
  - intros trip He.
    assert (Hs : is_ok (snd (Booking.book_trip env bs conn ts)) = true)
      by (rewrite He; reflexivity).
    destruct (Hshape Hs) as (Hne & Hv & Hnd).
    destruct (book_trip_checked env bs conn ts Hok Hne Hv Hnd)
      as [(t & _ & _ & He')|(_ & trip' & Hb & He')];
      rewrite He' in He; [discriminate|].
    injection He as <-. rewrite He'. split; [exact Hb|].
    destruct Hb as (Hid & _ & Hcl & _). split.
    + unfold Booking.total_travelers.
      rewrite <- (length_map Booking.client), Hcl. apply length_map.
    + split; [rewrite Hid; reflexivity|reflexivity].
Qed.

Lemma book_trip_succeeds_iff_witness :
  ledger_ok Booking.new_BookingSystem
  /\ is_ok (snd (Booking.book_trip env0 Booking.new_BookingSystem conn0 [john; jane])) = true
  /\ forall t, In t [john; jane] ->
               ~ holds_connection Booking.new_BookingSystem (traveler_key t) conn0.
Proof.
  pose proof ledger_ok_new as H0.
  assert (Hs : is_ok (snd (Booking.book_trip env0 Booking.new_BookingSystem conn0
                             [john; jane])) = true) by (vm_compute; reflexivity).
  split; [exact H0|]. split; [exact Hs|].
  exact (proj2 (proj2 (proj2
    (proj1 (proj1 (book_trip_succeeds_iff env0 Booking.new_BookingSystem conn0
                     [john; jane] H0)) Hs)))).
Defined.

Section TripHistory.
Import Str Booking.

Lemma split_trips_spec (day_of : Z -> Z) (today : Z) (tr : gmap string Trip)
    (ids : list string) :
  forall cur past,
    (forall id, In id ids -> is_Some (tr !! id)) ->
    exists cur' past',
      split_trips day_of today tr ids cur past = Ok (cur', past')
      /\ (forall trip, In trip cur'
            <-> In trip cur
                \/ exists id, In id ids /\ tr !! id = Some trip
                              /\ is_past day_of trip today = false)
      /\ (forall trip, In trip past'
            <-> In trip past
                \/ exists id, In id ids /\ tr !! id = Some trip
                              /\ is_past day_of trip today = true)
      /\ (length cur' + length past' = length cur + length past + length ids)%nat.
Proof.
  induction ids as [|id ids IH]; intros cur past Hall.
  - exists cur, past. split; [reflexivity|].
    split; [|split; [|cbn; lia]]; intros trip; split; auto;
      intros [H|(id & [] & _)]; exact H.
  - cbn [split_trips].
    destruct (Hall id (or_introl eq_refl)) as [trip0 E0]. rewrite E0.
    assert (Hall' : forall id', In id' ids -> is_Some (tr !! id'))
      by (intros id' Hin; apply Hall; right; exact Hin).
    destruct (is_past day_of trip0 today) eqn:Ep.
    + destruct (IH cur (past ++ [trip0])%list Hall') as (cur' & past' & He & Hc & Hp & Hl).
      exists cur', past'. split; [exact He|]. split; [|split].
      * intros trip. rewrite Hc. split.
        -- intros [H|(id' & Hin & Hl' & Hf)]; [left; exact H|].
           right. exists id'. split; [right; exact Hin|]. split; assumption.
        -- intros [H|(id' & [<-|Hin] & Hl' & Hf)]; [left; exact H| |].
           ++ rewrite E0 in Hl'. injection Hl' as <-. congruence.
           ++ right. exists id'. split; [exact Hin|]. split; assumption.
      * intros trip. rewrite Hp, in_app_iff. cbn [In]. split.
        -- intros [[H|[<-|[]]]|(id' & Hin & Hl' & Hf)].
           ++ left; exact H.
           ++ right. exists id. split; [left; reflexivity|]. split; assumption.
           ++ right. exists id'. split; [right; exact Hin|]. split; assumption.
        -- intros [H|(id' & [<-|Hin] & Hl' & Hf)].
           ++ left; left; exact H.
           ++ rewrite E0 in Hl'. injection Hl' as <-. left; right; left; reflexivity.
           ++ right. exists id'. split; [exact Hin|]. split; assumption.
      * rewrite Hl, length_app. cbn [length]. lia.
    + destruct (IH (cur ++ [trip0])%list past Hall') as (cur' & past' & He & Hc & Hp & Hl).
      exists cur', past'. split; [exact He|]. split; [|split].
      * intros trip. rewrite Hc, in_app_iff. cbn [In]. split.
        -- intros [[H|[<-|[]]]|(id' & Hin & Hl' & Hf)].
           ++ left; exact H.
           ++ right. exists id. split; [left; reflexivity|]. split; assumption.
           ++ right. exists id'. split; [right; exact Hin|]. split; assumption.
        -- intros [H|(id' & [<-|Hin] & Hl' & Hf)].
           ++ left; left; exact H.
           ++ rewrite E0 in Hl'. injection Hl' as <-. left; right; left; reflexivity.
           ++ right. exists id'. split; [exact Hin|]. split; assumption.
      * intros trip. rewrite Hp. split.
        -- intros [H|(id' & Hin & Hl' & Hf)]; [left; exact H|].
           right. exists id'. split; [right; exact Hin|]. split; assumption.
        -- intros [H|(id' & [<-|Hin] & Hl' & Hf)]; [left; exact H| |].
           ++ rewrite E0 in Hl'. injection Hl' as <-. congruence.
           ++ right. exists id'. split; [exact Hin|]. split; assumption.
      * rewrite Hl, length_app. cbn [length]. lia.
Qed.

Lemma Zgtb_asym (a b : Z) : (b <? a) = true -> (a <? b) = false.
Proof. intros H. apply Z.ltb_lt in H. apply Z.ltb_ge. lia. Qed.

Lemma Zgtb_tie (a b c : Z) :
  (b <? a) = true -> (c <? b) = false -> (b <? c) = false -> (c <? a) = true.
Proof.
  intros H1 H2 H3. apply Z.ltb_lt in H1. apply Z.ltb_ge in H2, H3.
  apply Z.ltb_lt. lia.
Qed.

Lemma recent_first_sorted (l : list Trip) :
  Sorted recent_first (sort_key (fun a b => b <? a) booking_timestamp l).
Proof.
  pose proof (sort_key_sorted (fun a b : Z => b <? a) booking_timestamp
                Zgtb_asym l) as Hs.
  eapply Sorted_ind with (P := Sorted recent_first) in Hs; [exact Hs|constructor|].
  intros a l' _ IH Hhd. constructor; [exact IH|].
  destruct Hhd as [|b l'' Hab]; constructor.
  unfold key_le in Hab. unfold recent_first. apply Z.ltb_ge in Hab. exact Hab.
Qed.

Lemma recent_first_In (l : list Trip) (trip : Trip) :
  In trip (sort_key (fun a b => b <? a) booking_timestamp l) <-> In trip l.
Proof.
  pose proof (sort_key_perm (fun a b : Z => b <? a) booking_timestamp l) as Hp.
  split; intros H.
  - eapply Permutation_in; [exact Hp|exact H].
  - eapply Permutation_in; [symmetry; exact Hp|exact H].
Qed.

Lemma recent_first_length (l : list Trip) :
  length (sort_key (fun a b => b <? a) booking_timestamp l) = length l.
Proof.
  apply Permutation_length, (sort_key_perm (fun a b : Z => b <? a)).
Qed.

Lemma trips_by_client_spec (day_of : Z -> Z) (today : Z) (bs : BookingSystem)
    (last_name id_number : string) :
  ledger_ok bs ->
  exists current past,
    get_trips_by_client day_of today bs last_name id_number = Ok (current, past)
    /\ (forall trip, In trip current
          <-> trip_of_client bs (lower last_name, id_number) trip
              /\ is_past day_of trip today = false)
    /\ (forall trip, In trip past
          <-> trip_of_client bs (lower last_name, id_number) trip
              /\ is_past day_of trip today = true)
    /\ Sorted recent_first current /\ Sorted recent_first past
    /\ (length current + length past
        = size (default ∅ (client_trips_index bs !! (lower last_name, id_number))))%nat.
Proof.
  intros Hok. unfold get_trips_by_client.
  set (key := (lower last_name, id_number)).
  set (ids := default ∅ (client_trips_index bs !! key)).
  assert (Hids : forall id, In id (elements ids)
                   <-> exists trip, trips bs !! id = Some trip
                                    /\ In key (map client_key (get_clients trip))).
  { intros id. rewrite <- list_elem_of_In, elem_of_elements. apply Hok. }
  destruct (split_trips_spec day_of today (trips bs) (elements ids) [] [])
    as (cur & past & He & Hc & Hp & Hl).
  { intros id Hin. apply Hids in Hin as (trip & E & _). exists trip. exact E. }
  rewrite He.
  exists (sort_key (fun a b => b <? a) booking_timestamp cur),
         (sort_key (fun a b => b <? a) booking_timestamp past).
  split; [reflexivity|].
  assert (Hmem : forall trip b,
            (exists id, In id (elements ids) /\ trips bs !! id = Some trip
                        /\ is_past day_of trip today = b)
            <-> trip_of_client bs key trip /\ is_past day_of trip today = b).
  { intros trip b. unfold trip_of_client. split.
    - intros (id & Hin & E & Hb). split; [|exact Hb]. exists id. split; [exact E|].
      apply Hids in Hin as (trip' & E' & Hk). congruence.
    - intros [(id & E & Hk) Hb]. exists id. split; [|split; assumption].
      apply Hids. exists trip. split; assumption. }
  split; [|split; [|split; [|split]]].
  - intros trip. rewrite recent_first_In, Hc, Hmem. cbn [In]. tauto.
  - intros trip. rewrite recent_first_In, Hp, Hmem. cbn [In]. tauto.
  - apply recent_first_sorted.
  - apply recent_first_sorted.
  - rewrite !recent_first_length, Hl. cbn [length].
    unfold size, set_size. cbn. reflexivity.
Qed.
End TripHistory.

(** X19.  [get_trips_by_client]: a client that was never indexed gets two
    empty lists.  On a ledger whose index agrees with its trips the call
    raises nothing; the first list holds exactly the stored trips with a
    reservation of that identity (last name up to case, exact id number)
    that are not past, the second those that are past, both with the most
    recent booking first, and together they are as many as the client's
    indexed trip ids. *)
Theorem get_trips_by_client_answer
    (day_of : Z -> Z) (today : Z) (bs : Booking.BookingSystem)
    (last_name id_number : string) :
  (Booking.client_trips_index bs !! (Str.lower last_name, id_number) = None ->
   Booking.get_trips_by_client day_of today bs last_name id_number = Ok ([], []))
  /\ (ledger_ok bs ->
      exists current past,
        Booking.get_trips_by_client day_of today bs last_name id_number
        = Ok (current, past)
        /\ (forall trip, In trip current
              <-> trip_of_client bs (Str.lower last_name, id_number) trip
                  /\ Booking.is_past day_of trip today = false)
        /\ (forall trip, In trip past
              <-> trip_of_client bs (Str.lower last_name, id_number) trip
                  /\ Booking.is_past day_of trip today = true)
        /\ Sorted recent_first current /\ Sorted recent_first past
        /\ (length current + length past
            = size (default ∅ (Booking.client_trips_index bs
                                 !! (Str.lower last_name, id_number))))%nat).
Proof.
  split.
  - intros Hnone. unfold Booking.get_trips_by_client. rewrite Hnone. reflexivity.
  - apply trips_by_client_spec.
Qed.

Lemma get_trips_by_client_answer_witness :
  Booking.get_trips_by_client (fun s => s / 86400) 19676 Booking.new_BookingSystem
    "Smith" "PASS001" = Ok ([], [])
  /\ exists current past,
       Booking.get_trips_by_client (fun s => s / 86400) 19676 Booking.new_BookingSystem
         "Smith" "PASS001" = Ok (current, past)
       /\ Sorted recent_first current.
Proof.
  destruct (get_trips_by_client_answer (fun s => s / 86400) 19676
              Booking.new_BookingSystem "Smith" "PASS001") as [Hnone Hspec].
  split; [apply Hnone; reflexivity|].
  destruct (Hspec ledger_ok_new) as (current & past & He & _ & _ & Hs & _).
  exists current, past. split; [exact He|exact Hs].
Defined.

Section BookedThenListed.
Import Str Booking.

Lemma book_trip_ok_inv (env : Env) (bs : BookingSystem) (conn : Itinerary)
    (ts : list traveler) (trip : Trip) :
  ledger_ok bs ->
  snd (book_trip env bs conn ts) = Ok trip ->
  booked env conn ts trip /\ fst (book_trip env bs conn ts) = committed bs ts trip.
Proof.
  intros Hok He.
  assert (Hshape : ts <> [] /\ Forall valid_traveler ts
                   /\ List.NoDup (map traveler_key ts)).
  { revert He. unfold book_trip. destruct ts as [|t ts]; [discriminate|].
    destruct (parse_travelers (t :: ts) ∅ [] (clients bs))
      as [registry [cs|e]] eqn:Ep; [|discriminate].
    intros _. apply parse_travelers_inv in Ep as (_ & Hv & Hnd & _).
    split; [discriminate|]. split; assumption. }
  destruct Hshape as (Hne & Hv & Hnd).
  destruct (book_trip_checked env bs conn ts Hok Hne Hv Hnd)
    as [(t & _ & _ & He')|(_ & trip' & Hb & He')];
    rewrite He' in He; [discriminate|].
  injection He as <-. rewrite He'. split; [exact Hb|reflexivity].
Qed.
End BookedThenListed.

(** X20.  A booked trip is listed for each of its travelers: after a call
    of [book_trip] that returns a trip (on a ledger whose index agrees with
    its trips, with a trip id not yet in use), [get_trips_by_client] with a
    traveler's id number and last name, in any letter case, returns the trip,
    among the past trips when its booking day is before today and among the
    current ones otherwise. *)
Theorem booked_trip_is_listed
    (env : Booking.Env) (bs : Booking.BookingSystem) (conn : Itinerary)
    (ts : list Booking.traveler) (trip : Booking.Trip)
    (day_of : Z -> Z) (today : Z) (t : Booking.traveler) (last_name : string) :
  ledger_ok bs ->
  Booking.get_trip_by_id bs (Booking.generate_trip_id env) = None ->
  snd (Booking.book_trip env bs conn ts) = Ok trip ->
  In t ts ->
  Str.lower last_name = Str.lower (snd (fst (fst t))) ->
  exists current past,
    Booking.get_trips_by_client day_of today (fst (Booking.book_trip env bs conn ts))
      last_name (snd (fst t)) = Ok (current, past)
    /\ (if Booking.is_past day_of trip today then In trip past else In trip current).
Proof.
  intros Hok Hfresh He Hin Hcase.
  pose proof (book_trip_keeps_ledger_ok env bs conn ts Hok Hfresh) as Hok'.
  destruct (book_trip_ok_inv env bs conn ts trip Hok He) as [Hb Hst].
  destruct (trips_by_client_spec day_of today _ last_name (snd (fst t)) Hok')
    as (current & past & Hq & Hc & Hp & _).
  exists current, past. split; [exact Hq|].
  assert (Hmine : trip_of_client (fst (Booking.book_trip env bs conn ts))
                    (Str.lower last_name, snd (fst t)) trip).
  { exists (Booking.trip_id trip). rewrite Hst. split.
    - cbn. apply lookup_insert_eq.
    - destruct Hb as (_ & _ & Hcl & _). unfold Booking.get_clients. rewrite Hcl.
      rewrite map_map. apply in_map_iff. exists t. split; [|exact Hin].
      destruct t as [[[first last] id_num] age]. cbn in Hcase |- *.
      unfold Booking.client_key. cbn. rewrite Hcase. reflexivity. }
  destruct (Booking.is_past day_of trip today) eqn:Epast.
  - apply Hp. split; assumption.
  - apply Hc. split; assumption.
Qed.

Lemma booked_trip_is_listed_witness :
  exists trip current past,
    snd (Booking.book_trip env0 Booking.new_BookingSystem conn0 [john; jane]) = Ok trip
    /\ Booking.get_trips_by_client (fun s => s / 86400) 19675
         (fst (Booking.book_trip env0 Booking.new_BookingSystem conn0 [john; jane]))
         "SMITH" "PASS002" = Ok (current, past)
    /\ In trip current.
Proof.
  destruct (snd (Booking.book_trip env0 Booking.new_BookingSystem conn0 [john; jane]))
    as [trip|e] eqn:E; [|vm_compute in E; discriminate].
  assert (Hday : Booking.is_past (fun s => s / 86400) trip 19675 = false).
  { vm_compute in E. injection E as <-. vm_compute. reflexivity. }
  destruct (booked_trip_is_listed env0 Booking.new_BookingSystem conn0 [john; jane] trip
              (fun s => s / 86400) 19675 jane "SMITH"
              ledger_ok_new eq_refl E (or_intror (or_introl eq_refl)) eq_refl)
    as (current & past & Hq & Hin).
  exists trip, current, past. split; [reflexivity|]. split; [exact Hq|].
  rewrite Hday in Hin. exact Hin.
Defined.

(** X21.  A ticket id is the clock second times 100000 plus the draw: for
    draws in the range of [secrets.randbelow(100000)] the second and the draw
    are read back from the id by division and remainder, so two generated ids
    are equal exactly when they were made in the same second with the same
    draw. *)
Theorem ticket_id_decodes (env env' : Booking.Env) (i j : nat) :
  0 <= Booking.randbelow env i < 100000 ->
  0 <= Booking.randbelow env' j < 100000 ->
  Booking.generate_ticket_id env i / 100000 = Booking.clock env (2 * i)%nat
  /\ Booking.generate_ticket_id env i mod 100000 = Booking.randbelow env i
  /\ (Booking.generate_ticket_id env i = Booking.generate_ticket_id env' j
      <-> Booking.clock env (2 * i)%nat = Booking.clock env' (2 * j)%nat
          /\ Booking.randbelow env i = Booking.randbelow env' j).
Proof.
  unfold Booking.generate_ticket_id. intros Hi Hj.
  assert (Hdiv : forall c r, 0 <= r < 100000 -> (c * 100000 + r) / 100000 = c).
  { intros c r Hr. rewrite Z.div_add_l by lia. rewrite Z.div_small by lia. lia. }
  assert (Hmod : forall c r, 0 <= r < 100000 -> (c * 100000 + r) mod 100000 = r).
  { intros c r Hr. rewrite Z.add_comm, Z.mod_add by lia. apply Z.mod_small. lia. }
  split; [apply Hdiv, Hi|]. split; [apply Hmod, Hi|]. split.
  - intros He. split.
    + rewrite <- (Hdiv _ _ Hi), <- (Hdiv (Booking.clock env' (2 * j)%nat) _ Hj), He.
      reflexivity.
    + rewrite <- (Hmod (Booking.clock env (2 * i)%nat) _ Hi),
        <- (Hmod (Booking.clock env' (2 * j)%nat) _ Hj), He. reflexivity.
  - intros [-> ->]. reflexivity.
Qed.

Lemma ticket_id_decodes_witness :
  Booking.generate_ticket_id env0 0 / 100000 = 1700000000
  /\ Booking.generate_ticket_id env0 0 mod 100000 = 42.
Proof.
  assert (Hr : 0 <= Booking.randbelow env0 0 < 100000) by (cbn; lia).
  destruct (ticket_id_decodes env0 env0 0 0 Hr Hr) as (Hd & Hm & _).
  split; [exact Hd|exact Hm].
Defined.

(* ================================================================== *)
(** * Further properties: the database-backed ledger *)
(* ================================================================== *)

Section ClientRows.
Import Database.

Lemma get_or_create_client_keeps (db : t) (first last id_num : string) (age : Z) :
  let db' := fst (get_or_create_client db first last id_num age) in
  routes db' = routes db /\ trips db' = trips db /\ trip_legs db' = trip_legs db
  /\ tickets db' = tickets db /\ seq_trips db' = seq_trips db
  /\ seq_tickets db' = seq_tickets db.
Proof.
  unfold get_or_create_client.
  destruct (get_client_by_credentials db last id_num); [cbn; auto 10|].
  destruct (age <? 0); [cbn; auto 10|].
  destruct (existsb _ (clients db)); cbn; auto 10.
Qed.

Lemma create_ticket_effect (db : t) (now client_id trip_id : Z) :
  (exists e, create_ticket db now client_id trip_id = (db, Raise e))
  \/ create_ticket db now client_id trip_id
     = ({| routes := routes db; clients := clients db; trips := trips db;
           trip_legs := trip_legs db;
           tickets := (tickets db ++ [{| ticket_id := seq_tickets db + 1;
                                         ticket_client_id := client_id;
                                         ticket_trip_id := trip_id;
                                         issue_timestamp := now |}])%list;
           seq_clients := seq_clients db; seq_trips := seq_trips db;
           seq_tickets := seq_tickets db + 1 |}, Ok (seq_tickets db + 1)).
Proof.
  unfold create_ticket.
  destruct (has_client db client_id); [|left; eexists; reflexivity].
  destruct (has_trip db trip_id); [|left; eexists; reflexivity].
  right. reflexivity.
Qed.

(** A row matches the credentials of a lookup. *)
Lemma credentials_found (db : t) (last id_num : string) (id : Z) :
  get_client_by_credentials db last id_num = Some id ->
  exists r, In r (clients db) /\ client_id r = id
            /\ sql_lower (Database.last_name r) = sql_lower last
            /\ Database.id_number r = id_num.
Proof.
  unfold get_client_by_credentials.
  destruct (List.filter _ (clients db)) as [|r rest] eqn:Ef; [discriminate|].
  intros [= <-]. exists r.
  assert (Hin : In r (List.filter
            (fun r => String.eqb (sql_lower (Database.last_name r)) (sql_lower last)
                      && String.eqb (Database.id_number r) id_num) (clients db)))
    by (rewrite Ef; left; reflexivity).
  apply filter_In in Hin as [Hin Hm]. apply andb_true_iff in Hm as [H1 H2].
  apply String.eqb_eq in H1, H2. auto.
Qed.

Lemma credentials_app (db : t) (last id_num : string) (id : Z) (more : list ClientRow) :
  get_client_by_credentials db last id_num = Some id ->
  forall db', clients db' = (clients db ++ more)%list ->
  get_client_by_credentials db' last id_num = Some id.
Proof.
  unfold get_client_by_credentials. intros H db' ->. rewrite List.filter_app.
  destruct (List.filter _ (clients db)) as [|r rest]; [discriminate|].
  exact H.
Qed.

Lemma get_or_create_client_spec (db : t) (first last id_num : string) (age : Z) :
  match get_or_create_client db first last id_num age with
  | (db', Ok id) =>
      get_client_by_credentials db' last id_num = Some id
      /\ (exists more, clients db' = (clients db ++ more)%list)
      /\ (get_client_by_credentials db last id_num = None ->
          id = seq_clients db + 1 /\ 0 <= age)
      /\ (forall id0, get_client_by_credentials db last id_num = Some id0 ->
          id = id0 /\ db' = db)
  | (db', Raise _) => db' = db /\ get_client_by_credentials db last id_num = None
  end.
Proof.
  unfold get_or_create_client.
  destruct (get_client_by_credentials db last id_num) as [id0|] eqn:Eg.
  - split; [exact Eg|]. split; [exists []; rewrite app_nil_r; reflexivity|].
    split; [discriminate|]. intros ? [= <-]. auto.
  - destruct (Z.ltb_spec age 0); [auto|].
    destruct (existsb _ (clients db)); [auto|].
    split; [|split; [eexists; reflexivity|split; [auto|discriminate]]].
    unfold get_client_by_credentials in *. cbn [clients]. rewrite List.filter_app.
    destruct (List.filter _ (clients db)); [|discriminate].
    cbn. rewrite !String.eqb_refl. reflexivity.
Qed.
End ClientRows.

(** X22.  [get_or_create_client] and [get_client_by_credentials] agree: the
    id returned for a client is the id found afterwards under the same id
    number and the same last name in any ASCII letter case; calling again
    returns the same id and leaves the database as it is; a client that is
    already stored is returned without any write; a failed call writes
    nothing. *)
Theorem get_or_create_client_round_trip
    (db : Database.t) (first last id_num : string) (age : Z) :
  let call := Database.get_or_create_client db first last id_num age in
  (forall id, snd call = Ok id ->
     (forall last', Database.sql_lower last' = Database.sql_lower last ->
        Database.get_client_by_credentials (fst call) last' id_num = Some id)
     /\ (forall first' age',
           Database.get_or_create_client (fst call) first' last id_num age'
           = (fst call, Ok id)))
  /\ (forall id, Database.get_client_by_credentials db last id_num = Some id ->
        call = (db, Ok id))
  /\ (is_ok (snd call) = false -> fst call = db).
Proof.
  cbv zeta.
  pose proof (get_or_create_client_spec db first last id_num age) as Hspec.
  destruct (Database.get_or_create_client db first last id_num age) as [db' [id|e]] eqn:Ec;
    cbn [fst snd].
  - destruct Hspec as (Hfound & _ & _ & Hold). split; [|split; [|discriminate]].
    + intros id' [= <-]. split.
      * intros last' Hl. unfold Database.get_client_by_credentials in *.
        rewrite Hl. exact Hfound.
      * intros first' age'. unfold Database.get_or_create_client.
        rewrite Hfound. reflexivity.
    + intros id0 Hg. destruct (Hold id0 Hg) as [-> ->]. reflexivity.
  - destruct Hspec as [-> Hnone]. split; [discriminate|]. split; [|reflexivity].
    intros id Hg. rewrite Hg in Hnone. discriminate.
Qed.

Lemma get_or_create_client_round_trip_witness :
  snd (Database.get_or_create_client Database.empty "John" "Smith" "PASS001" 45) = Ok 1
  /\ Database.get_client_by_credentials
       (fst (Database.get_or_create_client Database.empty "John" "Smith" "PASS001" 45))
       "SMITH" "PASS001" = Some 1.
Proof.
  assert (E : snd (Database.get_or_create_client Database.empty "John" "Smith"
                     "PASS001" 45) = Ok 1) by reflexivity.
  split; [exact E|].
  destruct (get_or_create_client_round_trip Database.empty "John" "Smith" "PASS001" 45)
    as [Hrt _].
  exact (proj1 (Hrt 1 E) "SMITH" eq_refl).
Defined.

Section DatabaseBooking.
Import Database.

(** The first loop is the one of the in-memory ledger, registry apart. *)
Lemma parse_travelers_v3 (ts : list Booking.traveler) :
  forall seen acc registry,
    BookingV3.parse_travelers ts seen acc
    = snd (Booking.parse_travelers ts seen acc registry).
Proof.
  induction ts as [|[[[first last] id_num] age] ts IH]; intros seen acc registry.
  - reflexivity.
  - cbn [BookingV3.parse_travelers Booking.parse_travelers].
    destruct (Booking.new_Client first last id_num age) as [c|e]; [|reflexivity].
    destruct (decide (Booking.client_key c ∈ seen)); [reflexivity|]. apply IH.
Qed.

Lemma parse_travelers_v3_inv (ts : list Booking.traveler) (cs : list Booking.Client) :
  BookingV3.parse_travelers ts ∅ [] = Ok cs ->
  cs = map client_of ts /\ Forall valid_traveler ts
  /\ List.NoDup (map traveler_key ts).
Proof.
  rewrite (parse_travelers_v3 ts ∅ [] ∅). intros H.
  destruct (Booking.parse_travelers ts ∅ [] ∅) as [registry r] eqn:Ep.
  cbn in H. subst r. apply parse_travelers_inv in Ep as (-> & Hv & Hnd & _). auto.
Qed.

Lemma add_trip_leg_keeps (db : t) (trip_id : Z) (route_id : string) (leg_order : Z) :
  let db' := fst (add_trip_leg db trip_id route_id leg_order) in
  routes db' = routes db /\ clients db' = clients db /\ trips db' = trips db
  /\ tickets db' = tickets db /\ seq_clients db' = seq_clients db
  /\ seq_trips db' = seq_trips db /\ seq_tickets db' = seq_tickets db.
Proof.
  unfold add_trip_leg.
  destruct (existsb _ (trip_legs db)); [cbn; auto 10|].
  destruct (has_trip db trip_id); [|cbn; auto 10].
  destruct (existsb _ (routes db)); cbn; auto 10.
Qed.

Lemma add_legs_keeps (trip_id : Z) (ls : list Leg) :
  forall db i,
    let db' := fst (BookingV3.add_legs db trip_id i ls) in
    routes db' = routes db /\ clients db' = clients db /\ trips db' = trips db
    /\ tickets db' = tickets db /\ seq_clients db' = seq_clients db
    /\ seq_trips db' = seq_trips db /\ seq_tickets db' = seq_tickets db.
Proof.
  induction ls as [|leg ls IH]; intros db i; cbn [BookingV3.add_legs].
  - cbn. auto 10.
  - pose proof (add_trip_leg_keeps db trip_id (route_id (route leg)) i) as Hk.
    destruct (add_trip_leg db trip_id (route_id (route leg)) i) as [db1 [[]|e]];
      cbn [fst] in Hk; [|exact Hk].
    specialize (IH db1 (i + 1)). cbv zeta in IH.
    destruct Hk as (K1 & K2 & K3 & K4 & K5 & K6 & K7).
    destruct IH as (I1 & I2 & I3 & I4 & I5 & I6 & I7).
    cbv zeta. repeat split; congruence.
Qed.

(** The third loop hands out the next ticket ids, one per client, and can
    only fail in the storage layer. *)
Lemma add_tickets_spec (clock : nat -> Z) (trip_id : Z) (conn : Itinerary)
    (cs : list Booking.Client) :
  forall db i,
    match BookingV3.add_tickets db clock i trip_id conn cs with
    | (db', Ok rs) =>
        map Booking.client rs = cs
        /\ map (fun r => Booking.ticket_id (Booking.ticket r)) rs
           = map (fun k => seq_tickets db + 1 + Z.of_nat k) (seq 0 (length cs))
        /\ Forall (fun r => Booking.ticket_client (Booking.ticket r) = Booking.client r
                            /\ Booking.ticket_connection (Booking.ticket r) = conn) rs
        /\ seq_tickets db' = seq_tickets db + Z.of_nat (length cs)
        /\ seq_trips db' = seq_trips db
        /\ map ticket_id (tickets db')
           = (map ticket_id (tickets db)
              ++ map (fun k => seq_tickets db + 1 + Z.of_nat k) (seq 0 (length cs)))%list
    | (_, Raise (BookingV3.Storage _)) => True
    | (_, Raise _) => False
    end.
Proof.
  induction cs as [|c cs IH]; intros db i; cbn [BookingV3.add_tickets].
  - cbn. rewrite app_nil_r. repeat split; [constructor|lia].
  - pose proof (get_or_create_client_keeps db (Booking.first_name c)
                  (Booking.last_name c) (Booking.id_number c) (Booking.age c)) as Hk.
    destruct (get_or_create_client db (Booking.first_name c) (Booking.last_name c)
                (Booking.id_number c) (Booking.age c)) as [db1 [cid|e]]; [|exact I].
    cbn [fst] in Hk. destruct Hk as (_ & _ & _ & Htk & Hst & Hsk).
    destruct (create_ticket_effect db1 (clock (1 + 2 * i)%nat) cid trip_id)
      as [[e ->] | ->]; [exact I|].
    unfold Booking.new_Reservation. cbn [Booking.ticket_client].
    rewrite client_eqb_refl. cbn [negb].
    match goal with
    | |- context [BookingV3.add_tickets ?d clock (S i) trip_id conn cs] =>
        specialize (IH d (S i)); destruct (BookingV3.add_tickets d clock (S i) trip_id conn cs)
          as [db2 [rs|[e| |e]]]
    end; try exact IH; try exact I.
    cbn [seq_tickets seq_trips tickets] in IH.
    destruct IH as (Hcl & Hids & Hall & Hs & Ht & Hrows).
    cbn [map length Booking.client Booking.ticket Booking.ticket_id].
    rewrite Hcl, Hids, Hs, Ht, Hrows, Hsk, Hst, Htk.
    split; [reflexivity|]. split; [|split; [|split; [lia|split; [reflexivity|]]]].
    + cbn [seq map]. f_equal; [lia|]. rewrite <- seq_shift, map_map.
      apply map_ext. intros k. lia.
    + constructor; [cbn; auto|exact Hall].
    + rewrite map_app, <- app_assoc. cbn [map app ticket_id seq]. f_equal. f_equal.
      * lia.
      * rewrite <- seq_shift, map_map. apply map_ext. intros k. lia.
Qed.
End DatabaseBooking.

Section DatabaseBookingCalls.
Import Database.

(** The shape of a call of the database-backed [book_trip]: it stops before
    any write with a rule violation or an empty itinerary, or it fails in
    the storage layer, or it returns a trip with the next trip id and the
    next ticket ids. *)
Lemma book_trip_v3_cases (db : t) (clock : nat -> Z) (conn : Itinerary)
    (ts : list Booking.traveler) :
  let call := BookingV3.book_trip db clock conn ts in
  (fst call = db
   /\ ((exists e, snd call = Raise (BookingV3.Business e)
                  /\ (ts = [] \/ BookingV3.parse_travelers ts ∅ [] = Raise e
                      \/ BookingV3.check_not_booked db (map client_of ts) conn = Raise e))
       \/ (snd call = Raise BookingV3.IndexError /\ legs conn = [])))
  \/ (exists e, snd call = Raise (BookingV3.Storage e))
  \/ (exists trip,
        snd call = Ok trip
        /\ ts <> [] /\ Forall valid_traveler ts /\ List.NoDup (map traveler_key ts)
        /\ BookingV3.check_not_booked db (map client_of ts) conn = Ok tt
        /\ BookingV3.trip_id trip = seq_trips db + 1
        /\ BookingV3.connection trip = conn
        /\ map Booking.client (BookingV3.reservations trip) = map client_of ts
        /\ map (fun r => Booking.ticket_id (Booking.ticket r)) (BookingV3.reservations trip)
           = map (fun k => seq_tickets db + 1 + Z.of_nat k) (seq 0 (length ts))
        /\ Forall (fun r => Booking.ticket_client (Booking.ticket r) = Booking.client r
                            /\ Booking.ticket_connection (Booking.ticket r) = conn)
                  (BookingV3.reservations trip)
        /\ seq_trips (fst call) = seq_trips db + 1
        /\ seq_tickets (fst call) = seq_tickets db + Z.of_nat (length ts)
        /\ map ticket_id (tickets (fst call))
           = (map ticket_id (tickets db)
              ++ map (fun k => seq_tickets db + 1 + Z.of_nat k) (seq 0 (length ts)))%list).
Proof.
  cbv zeta. unfold BookingV3.book_trip.
  destruct ts as [|t ts];
    [left; split; [reflexivity|left; eexists; split; [reflexivity|left; reflexivity]]|].
  destruct (BookingV3.parse_travelers (t :: ts) ∅ []) as [cs|e] eqn:Ep;
    [|left; split; [reflexivity|left; eexists; split; [reflexivity|right; left; reflexivity]]].
  apply parse_travelers_v3_inv in Ep as (-> & Hv & Hnd).
  destruct (BookingV3.check_not_booked db (map client_of (t :: ts)) conn) as [[]|e] eqn:Ecb;
    [|left; split; [reflexivity|left; eexists; split; [reflexivity|right; right; reflexivity]]].
  destruct (legs conn) as [|leg0 rest] eqn:El;
    [left; split; [reflexivity|right; split; reflexivity]|].
  cbn [hd_error].
  destruct (last (leg0 :: rest)) as [last_leg|] eqn:Elast;
    [|left; split; [reflexivity|right; split; [reflexivity|]]].
  2:{ exfalso. clear -Elast. revert leg0 Elast.
      induction rest as [|l rest IH]; intros leg0 H; [discriminate|].
      rewrite last_cons_cons in H. exact (IH l H). }
  unfold create_trip.
  match goal with
  | |- context [BookingV3.add_legs ?d ?tid 0 ?ls] =>
      pose proof (add_legs_keeps tid ls d 0) as Hk;
      destruct (BookingV3.add_legs d tid 0 ls) as [db1 [[]|e]];
      [|right; left; eexists; reflexivity]
  end.
  cbn [fst routes clients trips tickets seq_clients seq_trips seq_tickets] in Hk.
  destruct Hk as (_ & _ & _ & Htk & _ & Hst & Hsk).
  match goal with
  | |- context [BookingV3.add_tickets db1 clock 0%nat ?tid conn ?cs] =>
      pose proof (add_tickets_spec clock tid conn cs db1 0%nat) as Hs;
      destruct (BookingV3.add_tickets db1 clock 0%nat tid conn cs) as [db2 [rs|[e| |e]]]
  end; try contradiction; [|right; left; eexists; reflexivity].
  rewrite length_map in Hs. destruct Hs as (Hcl & Hids & Hall & Hs & Ht & Hrows).
  destruct rs as [|r rs]; [discriminate|].
  right; right. eexists. split; [reflexivity|].
  cbn [fst BookingV3.trip_id BookingV3.connection BookingV3.reservations].
  rewrite Hsk in Hids, Hs, Hrows. rewrite Htk in Hrows. rewrite Hst in Ht.
  split; [discriminate|]. repeat split; try assumption; reflexivity.
Qed.
End DatabaseBookingCalls.

(** X23.  The database-backed [book_trip] writes nothing when it refuses a
    booking: if the call raises a rule violation (no traveler, an invalid or
    repeated traveler, a traveler who already holds the itinerary) or fails
    on an itinerary without legs, the database after the call is the one
    before it. *)
Theorem book_trip_v3_refusal_writes_nothing
    (db : Database.t) (clock : nat -> Z) (conn : Itinerary)
    (ts : list Booking.traveler) :
  (forall e, snd (BookingV3.book_trip db clock conn ts) = Raise (BookingV3.Business e) ->
             fst (BookingV3.book_trip db clock conn ts) = db)
  /\ (snd (BookingV3.book_trip db clock conn ts) = Raise BookingV3.IndexError ->
      fst (BookingV3.book_trip db clock conn ts) = db /\ legs conn = []).
Proof.
  destruct (book_trip_v3_cases db clock conn ts)
    as [(Hdb & Hcase)|[(e' & He)|(trip & He & _)]]; split.
  - intros _ _. exact Hdb.
  - intros Hi. split; [exact Hdb|].
    destruct Hcase as [(e' & He & _)|[_ Hl]]; [congruence|exact Hl].
  - intros e Hb. congruence.
  - intros Hi. congruence.
  - intros e Hb. congruence.
  - intros Hi. congruence.
Qed.

Lemma book_trip_v3_refusal_writes_nothing_witness :
  snd (BookingV3.book_trip db_with_routes (fun _ => 1700000000) conn0 [john; johnny])
  = Raise (BookingV3.Business (Booking.DuplicateTravelerInBooking "Johnny" "SMITH"))
  /\ fst (BookingV3.book_trip db_with_routes (fun _ => 1700000000) conn0 [john; johnny])
     = db_with_routes.
Proof.
  assert (E : snd (BookingV3.book_trip db_with_routes (fun _ => 1700000000) conn0
                     [john; johnny])
              = Raise (BookingV3.Business
                         (Booking.DuplicateTravelerInBooking "Johnny" "SMITH")))
    by (vm_compute; reflexivity).
  split; [exact E|].
  exact (proj1 (book_trip_v3_refusal_writes_nothing db_with_routes
                  (fun _ => 1700000000) conn0 [john; johnny]) _ E).
Defined.

(** X24.  A trip returned by the database-backed [book_trip] carries the
    next trip id of the database and, for its travelers in order, the next
    ticket ids: they are consecutive, pairwise distinct and larger than every
    ticket id handed out before; each ticket is issued to the client of its
    reservation, for the itinerary of the call. *)
Theorem book_trip_v3_fresh_ids
    (db : Database.t) (clock : nat -> Z) (conn : Itinerary)
    (ts : list Booking.traveler) (trip : BookingV3.Trip) :
  snd (BookingV3.book_trip db clock conn ts) = Ok trip ->
  let ids := map (fun r => Booking.ticket_id (Booking.ticket r))
                 (BookingV3.reservations trip) in
  BookingV3.trip_id trip = Database.seq_trips db + 1
  /\ BookingV3.connection trip = conn
  /\ map Booking.client (BookingV3.reservations trip) = map client_of ts
  /\ ids = map (fun k => Database.seq_tickets db + 1 + Z.of_nat k) (seq 0 (length ts))
  /\ List.NoDup ids
  /\ Forall (fun id => Database.seq_tickets db < id) ids
  /\ Forall (fun r => Booking.ticket_client (Booking.ticket r) = Booking.client r
                      /\ Booking.ticket_connection (Booking.ticket r) = conn)
            (BookingV3.reservations trip)
  /\ Database.seq_tickets (fst (BookingV3.book_trip db clock conn ts))
     = Database.seq_tickets db + Z.of_nat (length ts)
  /\ map Database.ticket_id (Database.tickets (fst (BookingV3.book_trip db clock conn ts)))
     = (map Database.ticket_id (Database.tickets db) ++ ids)%list.
Proof.
  intros He. cbv zeta.
  destruct (book_trip_v3_cases db clock conn ts)
    as [(_ & [(e' & He' & _)|[He' _]])|[(e' & He')|(trip' & He' & Hrest)]];
    try congruence.
  rewrite He' in He. injection He as <-.
  destruct Hrest as (_ & _ & _ & _ & Hid & Hconn & Hcl & Hids & Hall & _ & Hseq & Hrows).
  split; [exact Hid|]. split; [exact Hconn|]. split; [exact Hcl|].
  split; [exact Hids|]. rewrite Hids. split; [|split; [|split; [exact Hall|]]].
  - apply Finite.Injective_map_NoDup_in; [|apply List.seq_NoDup].
    intros i j _ _ Hij. lia.
  - apply List.Forall_forall. intros id Hin.
    apply in_map_iff in Hin as (k & <- & _). lia.
  - split; [exact Hseq|exact Hrows].
Qed.

Lemma book_trip_v3_fresh_ids_witness :
  exists trip,
    snd (BookingV3.book_trip db_with_routes (fun _ => 1700000000) conn0 [john; jane])
    = Ok trip
    /\ BookingV3.trip_id trip = 1
    /\ map (fun r => Booking.ticket_id (Booking.ticket r)) (BookingV3.reservations trip)
       = [1; 2].
Proof.
  destruct (snd (BookingV3.book_trip db_with_routes (fun _ => 1700000000) conn0
                   [john; jane])) as [trip|e] eqn:E; [|vm_compute in E; discriminate].
  exists trip. split; [reflexivity|].
  destruct (book_trip_v3_fresh_ids db_with_routes (fun _ => 1700000000) conn0
              [john; jane] trip E) as (Hid & _ & _ & Hids & _).
  split; [exact Hid|exact Hids].
Defined.

Section DatabaseRebooking.
Import Database.

Lemma add_legs_rows (trip_id : Z) (ls : list Leg) :
  forall db i db1,
    BookingV3.add_legs db trip_id i ls = (db1, Ok tt) ->
    trip_legs db1 = (trip_legs db ++ leg_rows trip_id i ls)%list
    /\ Forall (fun leg => existsb (String.eqb (route_id (route leg))) (routes db) = true) ls.
Proof.
  induction ls as [|leg ls IH]; intros db i db1; cbn [BookingV3.add_legs leg_rows].
  - intros [= <-]. rewrite app_nil_r. split; [reflexivity|constructor].
  - pose proof (add_trip_leg_keeps db trip_id (route_id (route leg)) i) as Hk.
    unfold add_trip_leg in *.
    destruct (existsb _ (trip_legs db)); [discriminate|].
    destruct (has_trip db trip_id); [|discriminate].
    destruct (existsb (String.eqb (route_id (route leg))) (routes db)) eqn:Er;
      [|discriminate].
    cbn [negb]. intros H. apply IH in H as [Hrows Hall].
    cbn [trip_legs routes] in Hrows, Hall. rewrite Hrows, <- app_assoc.
    split; [reflexivity|]. constructor; assumption.
Qed.

Lemma leg_rows_sorted (trip_id : Z) (ls : list Leg) :
  forall i, sort_key Z.ltb leg_order (leg_rows trip_id i ls) = leg_rows trip_id i ls.
Proof.
  induction ls as [|leg ls IH]; intros i; [reflexivity|].
  cbn [leg_rows sort_key]. rewrite IH.
  destruct ls as [|leg' ls]; [reflexivity|].
  cbn [leg_rows insert_key leg_order].
  replace (i + 1 <? i) with false by (symmetry; apply Z.ltb_ge; lia). reflexivity.
Qed.

Lemma leg_rows_route_ids (trip_id : Z) (ls : list Leg) :
  forall i, map leg_route_id (leg_rows trip_id i ls)
            = map (fun leg => route_id (route leg)) ls.
Proof.
  induction ls as [|leg ls IH]; intros i; [reflexivity|].
  cbn [leg_rows map leg_route_id]. rewrite IH. reflexivity.
Qed.

(** The legs read back for a trip whose rows were written last. *)
Lemma get_trip_legs_written (db : t) (old : list LegRow) (trip_id : Z) (ls : list Leg) :
  trip_legs db = (old ++ leg_rows trip_id 0 ls)%list ->
  Forall (fun l => leg_trip_id l <> trip_id) old ->
  Forall (fun leg => existsb (String.eqb (route_id (route leg))) (routes db) = true) ls ->
  get_trip_legs db trip_id = map (fun leg => route_id (route leg)) ls.
Proof.
  intros Hrows Hold Hroutes. unfold get_trip_legs. rewrite Hrows, List.filter_app.
  assert (H1 : List.filter
                 (fun l => (leg_trip_id l =? trip_id)
                           && existsb (String.eqb (leg_route_id l)) (routes db)) old = []).
  { clear -Hold. induction old as [|l old IH]; [reflexivity|].
    inversion Hold as [|? ? Hne Hold']; subst. cbn [List.filter].
    replace (leg_trip_id l =? trip_id) with false
      by (symmetry; apply Z.eqb_neq; exact Hne).
    cbn [andb]. apply IH, Hold'. }
  assert (H2 : forall i,
             List.filter
               (fun l => (leg_trip_id l =? trip_id)
                         && existsb (String.eqb (leg_route_id l)) (routes db))
               (leg_rows trip_id i ls) = leg_rows trip_id i ls).
  { clear -Hroutes. induction ls as [|leg ls IH]; intros i; [reflexivity|].
    inversion Hroutes as [|? ? Hr Hroutes']; subst.
    cbn [leg_rows List.filter leg_trip_id leg_route_id].
    rewrite Z.eqb_refl, Hr. cbn [andb]. rewrite (IH Hroutes'). reflexivity. }
  rewrite H1, H2. cbn [app]. rewrite leg_rows_sorted. apply leg_rows_route_ids.
Qed.

(** What the third loop leaves in the database for each of its clients. *)
Lemma add_tickets_rows (clock : nat -> Z) (trip_id : Z) (conn : Itinerary)
    (cs : list Booking.Client) :
  forall db i db2 rs,
    BookingV3.add_tickets db clock i trip_id conn cs = (db2, Ok rs) ->
    routes db2 = routes db /\ trips db2 = trips db /\ trip_legs db2 = trip_legs db
    /\ (exists more, clients db2 = (clients db ++ more)%list)
    /\ (exists more, tickets db2 = (tickets db ++ more)%list)
    /\ Forall (fun c =>
                 exists cid row,
                   get_client_by_credentials db2 (Booking.last_name c)
                     (Booking.id_number c) = Some cid
                   /\ In row (tickets db2)
                   /\ ticket_client_id row = cid /\ ticket_trip_id row = trip_id) cs.
Proof.
  induction cs as [|c cs IH]; intros db i db2 rs; cbn [BookingV3.add_tickets].
  - intros [= <- <-]. repeat split; try (exists []; rewrite app_nil_r; reflexivity).
    constructor.
  - pose proof (get_or_create_client_keeps db (Booking.first_name c)
                  (Booking.last_name c) (Booking.id_number c) (Booking.age c)) as Hk.
    pose proof (get_or_create_client_spec db (Booking.first_name c)
                  (Booking.last_name c) (Booking.id_number c) (Booking.age c)) as Hc.
    destruct (get_or_create_client db (Booking.first_name c) (Booking.last_name c)
                (Booking.id_number c) (Booking.age c)) as [db1 [cid|e]]; [|discriminate].
    cbn [fst] in Hk. destruct Hk as (Hr & Htr & Hlg & Htk & _ & _).
    destruct Hc as (Hfound & [more1 Hcl1] & _ & _).
    destruct (create_ticket_effect db1 (clock (1 + 2 * i)%nat) cid trip_id)
      as [[e ->] | ->]; [discriminate|].
    unfold Booking.new_Reservation. cbn [Booking.ticket_client].
    rewrite client_eqb_refl. cbn [negb].
    match goal with
    | |- context [BookingV3.add_tickets ?d clock (S i) trip_id conn cs] =>
        specialize (IH d (S i));
        destruct (BookingV3.add_tickets d clock (S i) trip_id conn cs)
          as [db2' [rs'|e]]; [|discriminate]
    end.
    intros [= <- <-].
    destruct (IH db2' rs' eq_refl) as (Ir & Itr & Ilg & [more2 Icl] & [more3 Itk] & Iall).
    cbn [routes trips trip_legs clients tickets] in Ir, Itr, Ilg, Icl, Itk.
    split; [congruence|]. split; [congruence|]. split; [congruence|].
    split; [exists (more1 ++ more2)%list; rewrite Icl, Hcl1, <- app_assoc; reflexivity|].
    split.
    { eexists. rewrite Itk, Htk, <- app_assoc. reflexivity. }
    constructor; [|exact Iall].
    exists cid. eexists. split; [|split; [|split]].
    + eapply credentials_app; [exact Hfound|]. rewrite Icl. reflexivity.
    + rewrite Itk. apply in_or_app. left. apply in_or_app. right. left. reflexivity.
    + reflexivity.
    + reflexivity.
Qed.

Lemma check_not_booked_v3_hit (db : t) (conn : Itinerary) (cs : list Booking.Client) :
  (exists c, In c cs /\ BookingV3._has_booking_for_connection db c conn = true) ->
  exists c, In c cs
            /\ BookingV3.check_not_booked db cs conn
               = Raise (Booking.AlreadyBooked (Booking.first_name c) (Booking.last_name c)).
Proof.
  induction cs as [|c cs IH]; intros (c0 & Hin & Hh); [destruct Hin|].
  cbn [BookingV3.check_not_booked].
  destruct (BookingV3._has_booking_for_connection db c conn) eqn:Ec.
  - exists c. split; [left; reflexivity|reflexivity].
  - destruct Hin as [<-|Hin]; [congruence|].
    destruct IH as (c1 & Hin1 & He); [exists c0; auto|].
    exists c1. split; [right; exact Hin1|exact He].
Qed.

(** After a call that returned a trip, every one of its travelers holds the
    itinerary in the database. *)
Lemma book_trip_v3_holds (db : t) (clock : nat -> Z) (conn : Itinerary)
    (ts : list Booking.traveler) (trip : BookingV3.Trip) :
  legs_of_known_trips db ->
  snd (BookingV3.book_trip db clock conn ts) = Ok trip ->
  forall t, In t ts ->
    BookingV3._has_booking_for_connection (fst (BookingV3.book_trip db clock conn ts))
      (client_of t) conn = true.
Proof.
  intros Hknown. unfold BookingV3.book_trip.
  destruct ts as [|t0 ts]; [discriminate|].
  destruct (BookingV3.parse_travelers (t0 :: ts) ∅ []) as [cs|e] eqn:Ep; [|discriminate].
  apply parse_travelers_v3_inv in Ep as (-> & _ & _).
  destruct (BookingV3.check_not_booked db (map client_of (t0 :: ts)) conn) as [[]|e];
    [|discriminate].
  destruct (hd_error (legs conn)) as [first_leg|]; [|discriminate].
  destruct (last (legs conn)) as [last_leg|]; [|discriminate].
  unfold create_trip.
  match goal with
  | |- context [BookingV3.add_legs ?d ?tid 0 ?ls] =>
      set (db0 := d);
      pose proof (add_legs_keeps tid ls db0 0) as Hk;
      pose proof (add_legs_rows tid ls db0 0) as Hrows;
      destruct (BookingV3.add_legs db0 tid 0 ls) as [db1 [[]|e]]; [|discriminate]
  end.
  specialize (Hrows db1 eq_refl). destruct Hrows as [Hrows Hroutes].
  cbn [fst] in Hk. destruct Hk as (Hr1 & _ & Htr1 & _).
  match goal with
  | |- context [BookingV3.add_tickets db1 clock 0%nat ?tid conn ?cs] =>
      pose proof (add_tickets_rows clock tid conn cs db1 0%nat) as Hs;
      destruct (BookingV3.add_tickets db1 clock 0%nat tid conn cs) as [db2 [rs|e]];
      [|discriminate]
  end.
  destruct (Hs db2 rs eq_refl) as (Hr2 & Htr2 & Hlg2 & _ & _ & Hall).
  destruct rs as [|r rs]; [discriminate|]. intros _ t Hin. cbn [fst].
  rewrite List.Forall_forall in Hall.
  destruct (Hall (client_of t) (in_map client_of _ _ Hin))
    as (cid & row & Hfound & Hrow & Hcid & Htid).
  unfold BookingV3._has_booking_for_connection. rewrite Hfound.
  apply existsb_exists. exists (seq_trips db + 1). split.
  - unfold get_trips_for_client. apply in_map_iff. eexists. split; cycle 1.
    + apply filter_In. split.
      * rewrite Htr2, Htr1. subst db0. cbn [trips]. apply in_or_app. right. left.
        reflexivity.
      * apply existsb_exists. exists row. split; [exact Hrow|].
        cbn [trip_id]. rewrite Htid, Hcid, !Z.eqb_refl. reflexivity.
    + reflexivity.
  - assert (Hlegs : get_trip_legs db2 (seq_trips db + 1) = Itin.legs_key conn).
    { unfold Itin.legs_key.
      apply (get_trip_legs_written db2 (trip_legs db)).
      - rewrite Hlg2, Hrows. subst db0. reflexivity.
      - unfold legs_of_known_trips in Hknown. rewrite List.Forall_forall in Hknown.
        apply List.Forall_forall. intros l Hl. specialize (Hknown l Hl). lia.
      - rewrite Hr2, Hr1. exact Hroutes. }
    destruct (decide (get_trip_legs db2 (seq_trips db + 1) = Itin.legs_key conn));
      [reflexivity|contradiction].
Qed.
End DatabaseRebooking.

Section KnownTrips.
Import Database.

Lemma add_legs_known (trip_id : Z) (ls : list Leg) :
  forall db i,
    exists rows,
      trip_legs (fst (BookingV3.add_legs db trip_id i ls)) = (trip_legs db ++ rows)%list
      /\ Forall (fun l => leg_trip_id l = trip_id) rows.
Proof.
  induction ls as [|leg ls IH]; intros db i; cbn [BookingV3.add_legs].
  - exists []. rewrite app_nil_r. split; [reflexivity|constructor].
  - unfold add_trip_leg.
    destruct (existsb _ (trip_legs db));
      [exists []; rewrite app_nil_r; split; [reflexivity|constructor]|].
    destruct (has_trip db trip_id);
      [|exists []; rewrite app_nil_r; split; [reflexivity|constructor]].
    destruct (existsb _ (routes db));
      [|exists []; rewrite app_nil_r; split; [reflexivity|constructor]].
    cbn [negb].
    match goal with
    | |- context [BookingV3.add_legs ?d trip_id (i + 1) ls] =>
        destruct (IH d (i + 1)) as (rows & Hrows & Hall)
    end.
    cbn [trip_legs] in Hrows. eexists. rewrite Hrows, <- app_assoc.
    split; [reflexivity|]. constructor; [reflexivity|exact Hall].
Qed.

Lemma add_tickets_keeps_legs (clock : nat -> Z) (trip_id : Z) (conn : Itinerary)
    (cs : list Booking.Client) :
  forall db i,
    trip_legs (fst (BookingV3.add_tickets db clock i trip_id conn cs)) = trip_legs db
    /\ seq_trips (fst (BookingV3.add_tickets db clock i trip_id conn cs)) = seq_trips db.
Proof.
  induction cs as [|c cs IH]; intros db i; cbn [BookingV3.add_tickets]; [auto|].
  pose proof (get_or_create_client_keeps db (Booking.first_name c)
                (Booking.last_name c) (Booking.id_number c) (Booking.age c)) as Hk.
  destruct (get_or_create_client db (Booking.first_name c) (Booking.last_name c)
              (Booking.id_number c) (Booking.age c)) as [db1 [cid|e]];
    cbn [fst] in Hk; destruct Hk as (_ & _ & Hlg & _ & Hst & _); [|auto].
  destruct (create_ticket_effect db1 (clock (1 + 2 * i)%nat) cid trip_id)
    as [[e ->] | ->]; [auto|].
  unfold Booking.new_Reservation. cbn [Booking.ticket_client].
  rewrite client_eqb_refl. cbn [negb].
  match goal with
  | |- context [BookingV3.add_tickets ?d clock (S i) trip_id conn cs] =>
      specialize (IH d (S i));
      destruct (BookingV3.add_tickets d clock (S i) trip_id conn cs) as [db2 [rs|e]]
  end; cbn [fst trip_legs seq_trips] in IH |- *; destruct IH; split; congruence.
Qed.

Lemma book_trip_v3_known (db : t) (clock : nat -> Z) (conn : Itinerary)
    (ts : list Booking.traveler) :
  legs_of_known_trips db ->
  legs_of_known_trips (fst (BookingV3.book_trip db clock conn ts)).
Proof.
  intros Hknown. unfold BookingV3.book_trip.
  destruct ts as [|t0 ts]; [exact Hknown|].
  destruct (BookingV3.parse_travelers (t0 :: ts) ∅ []) as [cs|e]; [|exact Hknown].
  destruct (BookingV3.check_not_booked db cs conn) as [[]|e]; [|exact Hknown].
  destruct (hd_error (legs conn)) as [first_leg|]; [|exact Hknown].
  destruct (last (legs conn)) as [last_leg|]; [|exact Hknown].
  unfold create_trip.
  match goal with
  | |- context [BookingV3.add_legs ?d ?tid 0 ?ls] =>
      set (db0 := d);
      pose proof (add_legs_keeps tid ls db0 0) as Hk;
      destruct (add_legs_known tid ls db0 0) as (rows & Hrows & Hall);
      destruct (BookingV3.add_legs db0 tid 0 ls) as [db1 [[]|e]]
  end; cbn [fst] in Hk, Hrows; destruct Hk as (_ & _ & _ & _ & _ & Hst & _).
  - assert (K1 : legs_of_known_trips db1).
    { unfold legs_of_known_trips in *. rewrite Hrows, Hst. subst db0.
      cbn [trip_legs seq_trips]. apply Forall_app. split.
      - rewrite List.Forall_forall in Hknown. apply List.Forall_forall.
        intros l Hl. specialize (Hknown l Hl). lia.
      - rewrite List.Forall_forall in Hall. apply List.Forall_forall.
        intros l Hl. rewrite (Hall l Hl). lia. }
    match goal with
    | |- context [BookingV3.add_tickets db1 clock 0%nat ?tid conn cs] =>
        destruct (add_tickets_keeps_legs clock tid conn cs db1 0%nat) as [Hlg2 Hst2];
        destruct (BookingV3.add_tickets db1 clock 0%nat tid conn cs) as [db2 [rs|e]]
    end; cbn [fst] in Hlg2, Hst2.
    + assert (K2 : legs_of_known_trips db2)
        by (unfold legs_of_known_trips in *; rewrite Hlg2, Hst2; exact K1).
      destruct rs; exact K2.
    + unfold legs_of_known_trips in *. cbn [fst]. rewrite Hlg2, Hst2. exact K1.
  - cbn [fst]. unfold legs_of_known_trips in *. rewrite Hrows, Hst. subst db0.
    cbn [trip_legs seq_trips]. apply Forall_app. split.
    + rewrite List.Forall_forall in Hknown. apply List.Forall_forall.
      intros l Hl. specialize (Hknown l Hl). lia.
    + rewrite List.Forall_forall in Hall. apply List.Forall_forall.
      intros l Hl. rewrite (Hall l Hl). lia.
Qed.
End KnownTrips.

(** X25.  The database-backed ledger refuses a second reservation: in a
    database where no stored leg belongs to a trip id still to be handed out
    (true of the empty database and kept by every call of [book_trip]), once
    a call has returned a trip, a later call for the same itinerary with
    valid, pairwise distinct travelers of whom one travelled on that trip
    raises AlreadyBooked for one of its travelers and writes nothing. *)
Theorem book_trip_v3_again_refused
    (db : Database.t) (clock clock' : nat -> Z) (conn : Itinerary)
    (ts ts' : list Booking.traveler) (trip : BookingV3.Trip) (t : Booking.traveler) :
  legs_of_known_trips Database.empty
  /\ (legs_of_known_trips db ->
      legs_of_known_trips (fst (BookingV3.book_trip db clock conn ts)))
  /\ (legs_of_known_trips db ->
      snd (BookingV3.book_trip db clock conn ts) = Ok trip ->
      In t ts -> In t ts' ->
      Forall valid_traveler ts' -> List.NoDup (map traveler_key ts') ->
      exists c,
        In c (map client_of ts')
        /\ BookingV3.book_trip (fst (BookingV3.book_trip db clock conn ts)) clock' conn ts'
           = (fst (BookingV3.book_trip db clock conn ts),
              Raise (BookingV3.Business
                       (Booking.AlreadyBooked (Booking.first_name c)
                                              (Booking.last_name c))))).
Proof.
  split; [constructor|]. split; [apply book_trip_v3_known|].
  intros Hknown He Hin Hin' Hv Hnd.
  pose proof (book_trip_v3_holds db clock conn ts trip Hknown He t Hin) as Hh.
  destruct (check_not_booked_v3_hit (fst (BookingV3.book_trip db clock conn ts)) conn
              (map client_of ts')) as (c & Hc & Hcb).
  { exists (client_of t). split; [apply in_map, Hin'|exact Hh]. }
  exists c. split; [exact Hc|].
  unfold BookingV3.book_trip at 1. destruct ts' as [|t0 ts']; [destruct Hin'|].
  rewrite (parse_travelers_v3 (t0 :: ts') ∅ [] ∅).
  rewrite (parse_travelers_valid (t0 :: ts') ∅ [] ∅ Hv Hnd
             (fun t _ => not_elem_of_empty (traveler_key t))).
  cbn [snd app]. rewrite Hcb. reflexivity.
Qed.

Lemma book_trip_v3_again_refused_witness :
  legs_of_known_trips db_with_routes
  /\ exists trip,
       snd (BookingV3.book_trip db_with_routes (fun _ => 1700000000) conn0 [john; jane])
       = Ok trip
       /\ exists c,
            snd (BookingV3.book_trip
                   (fst (BookingV3.book_trip db_with_routes (fun _ => 1700000000) conn0
                           [john; jane]))
                   (fun _ => 1700000500) conn0 [jane])
            = Raise (BookingV3.Business
                       (Booking.AlreadyBooked (Booking.first_name c)
                                              (Booking.last_name c))).
Proof.
  assert (Hk : legs_of_known_trips db_with_routes) by constructor.
  split; [exact Hk|].
  destruct (snd (BookingV3.book_trip db_with_routes (fun _ => 1700000000) conn0
                   [john; jane])) as [trip|e] eqn:E; [|vm_compute in E; discriminate].
  exists trip. split; [reflexivity|].
  assert (Hv : Forall valid_traveler [jane]).
  { constructor; [|constructor]. cbn. repeat split; [lia|discriminate..]. }
  assert (Hnd : List.NoDup (map traveler_key [jane])).
  { constructor; [intros []|constructor]. }
  destruct (proj2 (proj2 (book_trip_v3_again_refused db_with_routes
                            (fun _ => 1700000000) (fun _ => 1700000500) conn0
                            [john; jane] [jane] trip jane))
              Hk E (or_intror (or_introl eq_refl)) (or_introl eq_refl) Hv Hnd)
    as (c & _ & Hc).
  exists c. rewrite Hc. reflexivity.
Defined.

(* ================================================================== *)
(** * Further properties: routes and transfer times *)
(* ================================================================== *)

Section TransferBounds.
Import Itin.

Lemma displayed_transfer_sum (it : Itinerary) :
  displayed_transfer_minutes it = sum_Z (map leg_gap (adjacent (legs it))).
Proof.
  unfold displayed_transfer_minutes.
  destruct (legs it) as [|p suf] eqn:E; [reflexivity|].
  cbn [length]. replace (S (length suf) - 1)%nat with (length suf) by lia.
  pose proof (displayed_fold suf [] p 0) as Hf. cbn [app length] in Hf.
  rewrite Hf. lia.
Qed.

Lemma adjacent_length {A} (l : list A) :
  length (adjacent l) = (length l - 1)%nat.
Proof.
  induction l as [|a [|b l] IH]; [reflexivity|reflexivity|].
  cbn [adjacent length] in *. rewrite IH. lia.
Qed.

Lemma sum_Z_lower (m : Z) (l : list Z) :
  Forall (fun x => m <= x) l -> Z.of_nat (length l) * m <= sum_Z l.
Proof.
  induction 1 as [|x l Hx _ IH]; [cbn; lia|].
  cbn [length sum_Z fold_right]. fold (sum_Z l). lia.
Qed.

Lemma hhmm_parses (minutes : Z) :
  TimeModel.parse_time_to_minutes (Some (TimeModel.minutes_to_hhmm_str minutes))
  = Ok (minutes mod 1440).
Proof.
  rewrite minutes_to_hhmm_str_mod.
  pose proof (Z.mod_pos_bound minutes 1440 ltac:(lia)) as Hb.
  pose proof minutes_to_hhmm_day_table as Ht.
  rewrite forallb_forall in Ht.
  specialize (Ht (Z.to_nat (minutes mod 1440))).
  rewrite Z2Nat.id in Ht by lia.
  assert (Hin : In (Z.to_nat (minutes mod 1440)) (seq 0 1440)) by (apply in_seq; lia).
  specialize (Ht Hin).
  destruct (TimeModel.parse_time_to_minutes
              (Some (TimeModel.minutes_to_hhmm_str (minutes mod 1440)))) as [v|e];
    [|discriminate].
  apply andb_true_iff in Ht as [Hv _]. apply Z.eqb_eq in Hv. rewrite Hv. reflexivity.
Qed.
End TransferBounds.

(** X26.  Every itinerary returned by [search] shows a transfer time of at
    least [min_transfer_minutes] per stop: its [displayed_transfer_minutes]
    is not below the number of stops reported by [to_row] times the minimum
    transfer time. *)
Theorem search_transfer_time_lower_bound
    (net : RailNetwork.t)
    (dep_city arr_city train_type day_contains : option string)
    (max_stops min_transfer_minutes : Z) (travel_class sort_by : string) :
  Forall
    (fun it => Itin.stops it * min_transfer_minutes <= Itin.displayed_transfer_minutes it)
    (RailNetwork.search net dep_city arr_city train_type day_contains
                        max_stops min_transfer_minutes travel_class sort_by).
Proof.
  apply List.Forall_forall. intros it Hin.
  apply search_transfers_min_gap in Hin. unfold gaps_ok in Hin.
  rewrite displayed_transfer_sum. unfold Itin.stops.
  assert (Hlen : Z.max 0 (Z.of_nat (length (legs it)) - 1)
                 = Z.of_nat (length (map leg_gap (Itin.adjacent (legs it))))).
  { rewrite length_map, adjacent_length. lia. }
  rewrite Hlen. apply sum_Z_lower. apply List.Forall_forall.
  intros g Hg. apply in_map_iff in Hg as (p & <- & Hp).
  apply transfer_gap_ok_iff, Hin, Hp.
Qed.

(** X27.  A route whose two times are clock texts as [minutes_to_hhmm]
    writes them is built without error; its [dep_min] and [arr_min] are the
    minutes of the day, and its [duration_min] is the clock difference modulo
    one day, so it lies between 0 and 1439. *)
Theorem route_of_clock_texts
    (id dep_city arr_city kind days : string) (first_rate second_rate : float)
    (dep arr : Z) :
  exists r,
    new_TrainRoute id dep_city arr_city (TimeModel.minutes_to_hhmm_str dep)
                   (TimeModel.minutes_to_hhmm_str arr) kind days first_rate second_rate
    = Ok r
    /\ dep_min r = dep mod 1440 /\ arr_min r = arr mod 1440
    /\ duration_min r = (arr - dep) mod 1440
    /\ 0 <= duration_min r < 1440.
Proof.
  unfold new_TrainRoute. rewrite !hhmm_parses. eexists. split; [reflexivity|].
  cbn [dep_min arr_min duration_min].
  split; [reflexivity|]. split; [reflexivity|].
  assert (Hd : TimeModel.duration_minutes (dep mod 1440) (arr mod 1440)
               = (arr - dep) mod 1440).
  { pose proof (Z.mod_pos_bound dep 1440 ltac:(lia)) as Hdep.
    pose proof (Z.mod_pos_bound arr 1440 ltac:(lia)) as Harr.
    unfold TimeModel.duration_minutes.
    rewrite Zminus_mod.
    destruct (Z.geb_spec (arr mod 1440) (dep mod 1440)).
    - symmetry. apply Z.mod_small. lia.
    - apply Z.mod_unique with (q := -1); lia. }
  rewrite Hd. split; [reflexivity|]. apply Z.mod_pos_bound. lia.
Qed.

(* ================================================================== *)
(** * Further properties: the booking state machine *)
(* ================================================================== *)

Section Validation.
Import StateMachine.

Lemma format_errors_nil (ts : list Booking.traveler) :
  format_errors ts = [] <-> Forall valid_traveler ts.
Proof.
  induction ts as [|[[[first last] id_num] age] ts IH].
  - split; [constructor|reflexivity].
  - cbn [format_errors].
    destruct (Str.nonempty first) eqn:Ef, (Str.nonempty last) eqn:El,
      (Str.nonempty id_num) eqn:Ei, (Z.ltb_spec age 0);
      cbn [negb orb app];
      try (split; [discriminate|];
           intros Hv; inversion Hv as [|? ? Hx _]; subst; cbn in Hx;
           destruct Hx as (Ha & Hf & Hl & Hi); exfalso;
           first [lia
                 |apply nonempty_true in Hf; congruence
                 |apply nonempty_true in Hl; congruence
                 |apply nonempty_true in Hi; congruence]).
    rewrite IH. apply nonempty_true in Ef, El, Ei. split.
    + intros Hv. constructor; [cbn; auto|exact Hv].
    + intros Hv. inversion Hv; assumption.
Qed.

Lemma duplicate_errors_nil (ts : list Booking.traveler) :
  forall seen,
    duplicate_errors ts seen = []
    <-> List.NoDup (map traveler_key ts) /\ forall t, In t ts -> traveler_key t ∉ seen.
Proof.
  induction ts as [|[[[first last] id_num] age] ts IH]; intros seen.
  - split; [intros _; split; [constructor|intros ? []]|reflexivity].
  - cbn [duplicate_errors map].
    change (traveler_key (first, last, id_num, age)) with (Str.lower last, id_num).
    destruct (decide ((Str.lower last, id_num) ∈ seen)) as [Hin|Hnin]; cbn [app].
    + split; [discriminate|]. intros [_ Hs]. exfalso.
      exact (Hs _ (or_introl eq_refl) Hin).
    + rewrite IH. split.
      * intros [Hnd Hs]. split.
        -- constructor; [|exact Hnd]. intros Hk.
           apply in_map_iff in Hk as (t' & Hk & Hin').
           apply (Hs t' Hin'). rewrite Hk.
           apply elem_of_union. left. apply elem_of_singleton. reflexivity.
        -- intros t' [<-|Hin']; [exact Hnin|].
           intros Hk. apply (Hs t' Hin'). apply elem_of_union. right. exact Hk.
      * intros [Hnd Hs]. inversion Hnd as [|? ? Hnotin Hnd']; subst. split; [exact Hnd'|].
        intros t' Hin' Hk. apply elem_of_union in Hk as [Hk|Hk].
        -- apply elem_of_singleton in Hk. apply Hnotin. rewrite <- Hk.
           apply in_map, Hin'.
        -- exact (Hs t' (or_intror Hin') Hk).
Qed.

Lemma booking_errors_valid (db : Database.t) (conn : Itinerary)
    (ts : list Booking.traveler) :
  Forall valid_traveler ts ->
  exists msgs,
    booking_errors db conn ts = (msgs, None)
    /\ (msgs = []
        <-> Forall (fun t => BookingV3._has_booking_for_connection db (client_of t) conn
                             = false) ts).
Proof.
  induction 1 as [|t ts Hv _ (msgs & He & Hm)].
  - exists []. split; [reflexivity|]. split; [constructor|reflexivity].
  - pose proof (new_Client_valid t Hv) as Hc.
    destruct t as [[[first last] id_num] age]. cbn [booking_errors].
    rewrite Hc, He.
    destruct (BookingV3._has_booking_for_connection db
                (client_of (first, last, id_num, age)) conn) eqn:Eh.
    + eexists. split; [reflexivity|]. split; [discriminate|].
      intros Hall. inversion Hall; congruence.
    + exists msgs. split; [reflexivity|]. rewrite Hm. split.
      * intros Hall. constructor; assumption.
      * intros Hall. inversion Hall; assumption.
Qed.

Lemma booking_errors_invalid (db : Database.t) (conn : Itinerary)
    (ts : list Booking.traveler) :
  ~ Forall valid_traveler ts ->
  exists msgs rule,
    booking_errors db conn ts = (msgs, Some (Booking.InvalidTraveler rule)).
Proof.
  induction ts as [|[[[first last] id_num] age] ts IH]; intros Hn.
  - exfalso. apply Hn. constructor.
  - cbn [booking_errors].
    destruct (Booking.new_Client first last id_num age) as [c|e] eqn:Ec.
    + apply new_Client_inv in Ec as [Hv ->].
      destruct IH as (msgs & rule & He).
      { intros Hall. apply Hn. constructor; assumption. }
      rewrite He. eexists _, rule. reflexivity.
    + exists []. unfold Booking.new_Client in Ec.
      destruct (age <? 0); [injection Ec as <-; eexists; reflexivity|].
      destruct (negb (Str.nonempty first) || negb (Str.nonempty last));
        [injection Ec as <-; eexists; reflexivity|].
      destruct (negb (Str.nonempty id_num)); [|discriminate].
      injection Ec as <-. eexists. reflexivity.
Qed.

Lemma check_not_booked_v3_ok (db : Database.t) (conn : Itinerary)
    (cs : list Booking.Client) :
  BookingV3.check_not_booked db cs conn = Ok tt
  <-> Forall (fun c => BookingV3._has_booking_for_connection db c conn = false) cs.
Proof.
  induction cs as [|c cs IH]; cbn [BookingV3.check_not_booked].
  - split; [constructor|reflexivity].
  - destruct (BookingV3._has_booking_for_connection db c conn) eqn:Eh.
    + split; [discriminate|]. intros Hall. inversion Hall; congruence.
    + rewrite IH. split.
      * intros Hall. constructor; assumption.
      * intros Hall. inversion Hall; assumption.
Qed.

Lemma handle_validating_success (db : Database.t) (ctx : BookingContext) :
  snd (_handle_validating db ctx) = Ok "validation_success"
  <-> Forall valid_traveler (travelers ctx)
      /\ List.NoDup (map traveler_key (travelers ctx))
      /\ Forall (fun t => BookingV3._has_booking_for_connection db (client_of t)
                            (selected_connection ctx) = false) (travelers ctx).
Proof.
  unfold _handle_validating. split.
  - destruct (booking_errors db (selected_connection ctx) (travelers ctx))
      as [more raised] eqn:Eb.
    destruct raised as [e|]; [discriminate|].
    destruct ((format_errors (travelers ctx) ++ duplicate_errors (travelers ctx) ∅)
              ++ more)%list eqn:Ee; [|discriminate].
    intros _. apply app_eq_nil in Ee as [Ee ->]. apply app_eq_nil in Ee as [Hf Hd].
    apply format_errors_nil in Hf. apply duplicate_errors_nil in Hd as [Hnd _].
    split; [exact Hf|]. split; [exact Hnd|].
    destruct (booking_errors_valid db (selected_connection ctx) _ Hf) as (msgs & He & Hm).
    rewrite Eb in He. injection He as <-. apply Hm. reflexivity.
  - intros (Hf & Hnd & Hfree).
    destruct (booking_errors_valid db (selected_connection ctx) _ Hf) as (msgs & He & Hm).
    rewrite He. apply Hm in Hfree. subst msgs.
    apply format_errors_nil in Hf. rewrite Hf.
    assert (Hd : duplicate_errors (travelers ctx) ∅ = []).
    { apply duplicate_errors_nil. split; [exact Hnd|].
      intros t _. apply not_elem_of_empty. }
    rewrite Hd. reflexivity.
Qed.
End Validation.

(** X28.  The validating handler and the ledger apply the same rules.  The
    handler answers validation_success exactly when every traveler satisfies
    the Client rules, the identities are pairwise distinct and no traveler
    holds the selected connection; it then moves to CREATING_RESERVATION with
    no validation error, and [book_trip] on the same non-empty travelers
    raises no rule violation.  When a traveler breaks a Client rule the
    handler does not answer at all: building the Client raises. *)
Theorem validation_agrees_with_book_trip
    (db : Database.t) (ctx : StateMachine.BookingContext) :
  let ts := StateMachine.travelers ctx in
  let conn := StateMachine.selected_connection ctx in
  (snd (StateMachine._handle_validating db ctx) = Ok "validation_success"
   <-> Forall valid_traveler ts /\ List.NoDup (map traveler_key ts)
       /\ Forall (fun t => BookingV3._has_booking_for_connection db (client_of t) conn
                           = false) ts)
  /\ (snd (StateMachine._handle_validating db ctx) = Ok "validation_success" ->
      StateMachine.current_state (fst (StateMachine._handle_validating db ctx))
      = StateMachine.CREATING_RESERVATION
      /\ StateMachine.validation_errors (fst (StateMachine._handle_validating db ctx)) = []
      /\ forall clock e, ts <> [] ->
           snd (BookingV3.book_trip db clock conn ts) <> Raise (BookingV3.Business e))
  /\ (~ Forall valid_traveler ts ->
      exists rule, snd (StateMachine._handle_validating db ctx)
                   = Raise (Booking.InvalidTraveler rule)).
Proof.
  cbv zeta. split; [apply handle_validating_success|]. split.
  - intros Hs. pose proof (proj1 (handle_validating_success db ctx) Hs)
      as (Hv & Hnd & Hfree).
    split; [|split].
    + revert Hs. unfold StateMachine._handle_validating.
      destruct (StateMachine.booking_errors db _ _) as [more [e|]]; [discriminate|].
      destruct (_ ++ more)%list; [reflexivity|discriminate].
    + revert Hs. unfold StateMachine._handle_validating.
      destruct (StateMachine.booking_errors db _ _) as [more [e|]]; [discriminate|].
      destruct (_ ++ more)%list eqn:Ee; [reflexivity|discriminate].
    + intros clock e Hne Hb.
      destruct (book_trip_v3_cases db clock (StateMachine.selected_connection ctx)
                  (StateMachine.travelers ctx))
        as [(_ & [(e' & He & Hwhy)|[He _]])|[(e' & He)|(trip & He & _)]];
        try congruence.
      rewrite (parse_travelers_v3 _ ∅ [] ∅) in Hwhy.
      rewrite (parse_travelers_valid _ ∅ [] ∅ Hv Hnd
                 (fun t _ => not_elem_of_empty (traveler_key t))) in Hwhy.
      assert (Hcb : BookingV3.check_not_booked db
                      (map client_of (StateMachine.travelers ctx))
                      (StateMachine.selected_connection ctx) = Ok tt).
      { apply check_not_booked_v3_ok. apply List.Forall_forall. intros c Hc.
        apply in_map_iff in Hc as (t & <- & Hin).
        rewrite List.Forall_forall in Hfree. exact (Hfree t Hin). }
      rewrite Hcb in Hwhy. cbn in Hwhy.
      destruct Hwhy as [Hw|[Hw|Hw]]; [contradiction|discriminate|discriminate].
  - intros Hbad.
    destruct (booking_errors_invalid db (StateMachine.selected_connection ctx) _ Hbad)
      as (msgs & rule & He).
    exists rule. unfold StateMachine._handle_validating. rewrite He. reflexivity.
Qed.

Lemma validation_agrees_with_book_trip_witness :
  snd (StateMachine._handle_validating db_with_routes ctx0) = Ok "validation_success"
  /\ StateMachine.current_state (fst (StateMachine._handle_validating db_with_routes ctx0))
     = StateMachine.CREATING_RESERVATION.
Proof.
  assert (Hs : snd (StateMachine._handle_validating db_with_routes ctx0)
               = Ok "validation_success") by (vm_compute; reflexivity).
  split; [exact Hs|].
  exact (proj1 (proj1 (proj2 (validation_agrees_with_book_trip db_with_routes ctx0)) Hs)).
Defined.

(** X29.  The creating handler fails only when [book_trip] fails: in a
    database whose trip counter is not negative, neither post-condition
    assertion can fail.  When [book_trip] returns a trip the handler answers
    success, moves to DISPLAYING_CONFIRMATION and records the next trip id of
    the database and one consecutive ticket id per traveler, and the
    confirmation handler then completes the booking; when [book_trip] raises
    it answers error, moves to HANDLING_ERROR, records the error and leaves
    the recorded trip id as it was.  The database is the one [book_trip]
    left in both cases. *)
Theorem handle_creating_outcome
    (db : Database.t) (clock : nat -> Z) (ctx : StateMachine.BookingContext) :
  0 <= Database.seq_trips db ->
  let booking := BookingV3.book_trip db clock (StateMachine.selected_connection ctx)
                                     (StateMachine.travelers ctx) in
  let call := StateMachine._handle_creating db clock ctx in
  let ctx' := snd (fst call) in
  fst (fst call) = fst booking
  /\ ((exists trip,
         snd booking = Ok trip /\ snd call = "success"
         /\ StateMachine.current_state ctx' = StateMachine.DISPLAYING_CONFIRMATION
         /\ StateMachine.trip_id ctx' = Some (Database.seq_trips db + 1)
         /\ StateMachine.ticket_ids ctx'
            = map (fun k => Database.seq_tickets db + 1 + Z.of_nat k)
                  (seq 0 (length (StateMachine.travelers ctx)))
         /\ StateMachine.is_complete (fst (StateMachine._handle_confirmation ctx')) = true)
      \/ (exists e,
            snd booking = Raise e /\ snd call = "error"
            /\ StateMachine.current_state ctx' = StateMachine.HANDLING_ERROR
            /\ StateMachine.last_error ctx' = Some (StateMachine.BookingFailed e)
            /\ StateMachine.trip_id ctx' = StateMachine.trip_id ctx)).
Proof.
  intros Hseq. cbv zeta. unfold StateMachine._handle_creating.
  destruct (book_trip_v3_cases db clock (StateMachine.selected_connection ctx)
              (StateMachine.travelers ctx))
    as [(_ & [(e & He & _)|[He _]])|[(e & He)|(trip & He & Hrest)]].
  1-3: destruct (BookingV3.book_trip db clock (StateMachine.selected_connection ctx)
                   (StateMachine.travelers ctx)) as [db' r];
       cbn [snd] in He; subst r; cbn [fst snd];
       (split; [reflexivity|]); right; eexists; repeat split; reflexivity.
  destruct Hrest as (_ & _ & _ & _ & Hid & _ & Hcl & Hids & _).
  destruct (BookingV3.book_trip db clock (StateMachine.selected_connection ctx)
              (StateMachine.travelers ctx)) as [db' r].
  cbn [snd] in He. subst r. cbn [fst snd].
  assert (Hpos : (0 <? BookingV3.trip_id trip) = true) by (apply Z.ltb_lt; lia).
  assert (Hlen : (length (BookingV3.reservations trip)
                  =? length (StateMachine.travelers ctx))%nat = true).
  { apply Nat.eqb_eq. rewrite <- (length_map Booking.client), Hcl. apply length_map. }
  cbn [StateMachine.travelers]. rewrite Hpos, Hlen. cbn [negb fst snd].
  split; [reflexivity|]. left.
  exists trip. split; [reflexivity|]. split; [reflexivity|]. split; [reflexivity|].
  cbn. rewrite Hid, Hids. repeat split; reflexivity.
Qed.

Lemma handle_creating_outcome_witness :
  0 <= Database.seq_trips db_with_routes
  /\ snd (StateMachine._handle_creating db_with_routes (fun _ => 1700000000) ctx0)
     = "success"
  /\ Database.seq_trips
       (fst (fst (StateMachine._handle_creating db_with_routes (fun _ => 1700000000) ctx0)))
     = 1.
Proof.
  assert (H0 : 0 <= Database.seq_trips db_with_routes) by (cbn; lia).
  split; [exact H0|].
  destruct (handle_creating_outcome db_with_routes (fun _ => 1700000000) ctx0 H0)
    as [Hdb [(trip & _ & Hans & _)|(e & He & _)]].
  - split; [exact Hans|]. rewrite Hdb. vm_compute. reflexivity.
  - exfalso. vm_compute in He. discriminate.
Defined.

(* ================================================================== *)
(** * Further properties: the time normalisation of [from_csv] *)
(* ================================================================== *)

Section BlankFacts.
Import Str TimeModel.

Lemma blank_cons (c : ascii) (s : string) :
  blank (String c s) = is_space c && blank s.
Proof. apply all_chars_cons. Qed.

Lemma blank_app (s1 s2 : string) : blank (s1 +:+ s2) = blank s1 && blank s2.
Proof. apply all_chars_app. Qed.

Lemma span_spaces_spec (s : string) :
  blank (fst (RailNetwork.span_spaces s)) = true
  /\ s = fst (RailNetwork.span_spaces s) +:+ snd (RailNetwork.span_spaces s)
  /\ snd (RailNetwork.span_spaces s) = skip_spaces s.
Proof.
  induction s as [|c s (Hb & Hs & Hk)]; [repeat split|].
  cbn [RailNetwork.span_spaces skip_spaces].
  destruct (is_space c) eqn:Ec; [|repeat split].
  destruct (RailNetwork.span_spaces s) as [sp r]. cbn [fst snd] in *.
  rewrite blank_cons, Ec, Hb. cbn [String.append]. rewrite <- Hs. repeat split.
  exact Hk.
Qed.

Lemma skip_spaces_split (s : string) :
  exists sp, blank sp = true /\ s = sp +:+ skip_spaces s.
Proof.
  destruct (span_spaces_spec s) as (Hb & Hs & Hk).
  exists (fst (RailNetwork.span_spaces s)). rewrite <- Hk. auto.
Qed.

Lemma skip_spaces_blank (sp z : string) :
  blank sp = true -> skip_spaces (sp +:+ z) = skip_spaces z.
Proof.
  induction sp as [|c sp IH]; [reflexivity|].
  rewrite blank_cons. intros H. apply andb_true_iff in H as [Hc Hsp].
  cbn [String.append skip_spaces]. rewrite Hc. auto.
Qed.

Lemma skip_spaces_head (c : ascii) (z : string) :
  is_space c = false -> skip_spaces (String c z) = String c z.
Proof. intros H. cbn [skip_spaces]. rewrite H. reflexivity. Qed.

Lemma skip_spaces_nil (r : string) :
  nonempty (skip_spaces r) = false -> blank r = true.
Proof.
  induction r as [|c r IH]; [reflexivity|].
  cbn [skip_spaces]. rewrite blank_cons.
  destruct (is_space c); [exact IH|discriminate].
Qed.

Lemma blank_not_digit_head (sp z : string) :
  blank sp = true -> starts_with_digit z = false -> starts_with_digit (sp +:+ z) = false.
Proof.
  destruct sp as [|c sp]; [auto|].
  rewrite blank_cons. intros H _. apply andb_true_iff in H as [Hc _].
  cbn. destruct (is_digit c) eqn:Ed; [|reflexivity].
  apply digit_not_space in Ed. congruence.
Qed.

Lemma findall_blank (sp z : string) :
  blank sp = true -> findall_digits (sp +:+ z) = findall_digits z.
Proof.
  induction sp as [|c sp IH]; [reflexivity|].
  rewrite blank_cons. intros H. apply andb_true_iff in H as [Hc Hsp].
  cbn [String.append]. rewrite findall_cons_nondigit; [auto|].
  destruct (is_digit c) eqn:Ed; [|reflexivity].
  apply digit_not_space in Ed. congruence.
Qed.

Lemma findall_blank_nil (sp : string) : blank sp = true -> findall_digits sp = [].
Proof.
  intros H. rewrite <- (append_nil_r sp). rewrite findall_blank by exact H. reflexivity.
Qed.

Lemma span_digits_spec (s : string) :
  all_chars is_digit (fst (span_digits s)) = true
  /\ s = fst (span_digits s) +:+ snd (span_digits s).
Proof.
  induction s as [|c s [Hd Hs]]; [split; reflexivity|].
  cbn [span_digits]. destruct (is_digit c) eqn:Ec; [|split; reflexivity].
  destruct (span_digits s) as [ds r]. cbn [fst snd] in *.
  rewrite all_chars_cons, Ec, Hd. cbn [String.append]. rewrite <- Hs. split; reflexivity.
Qed.

Lemma expect_inv (c : ascii) (s r : string) : expect c s = Some r -> s = String c r.
Proof.
  destruct s as [|c' s]; cbn [expect]; [discriminate|].
  destruct (Ascii.eqb_spec c c') as [<-|]; [|discriminate]. intros [= <-]. reflexivity.
Qed.

Lemma lstrip_tokens (s : string) : findall_digits (lstrip s) = findall_digits s.
Proof.
  induction s as [|c s IH]; [reflexivity|].
  cbn [lstrip]. destruct (is_space c) eqn:Ec; [|reflexivity].
  rewrite IH. symmetry. apply findall_cons_nondigit.
  destruct (is_digit c) eqn:Ed; [|reflexivity].
  apply digit_not_space in Ed. congruence.
Qed.

Lemma rstrip_tokens (s : string) :
  starts_with_digit (rstrip s) = starts_with_digit s
  /\ findall_digits (rstrip s) = findall_digits s.
Proof.
  induction s as [|c s [Hh Ht]]; [split; reflexivity|].
  cbn [rstrip]. destruct (rstrip s) as [|c' r] eqn:Er.
  - cbn in Hh. destruct (is_space c) eqn:Ec.
    + assert (Ed : is_digit c = false).
      { destruct (is_digit c) eqn:Ed; [|reflexivity].
        apply digit_not_space in Ed. congruence. }
      cbn. rewrite Ed. split; [reflexivity|]. cbn in Ht. exact Ht.
    + cbn. rewrite <- Hh, <- Ht. cbn. split; reflexivity.
  - split; [reflexivity|].
    cbn [findall_digits]. rewrite <- Hh, <- Ht. reflexivity.
Qed.

Lemma strip_tokens (s : string) : findall_digits (strip s) = findall_digits s.
Proof.
  unfold strip. rewrite (proj2 (rstrip_tokens _)). apply lstrip_tokens.
Qed.

Lemma lstrip_shape (s : string) :
  lstrip s = "" \/ exists c r, lstrip s = String c r /\ is_space c = false.
Proof.
  induction s as [|c s IH]; [left; reflexivity|].
  cbn [lstrip]. destruct (is_space c) eqn:Ec; [exact IH|].
  right. exists c, s. auto.
Qed.

Lemma rstrip_idem (s : string) : rstrip (rstrip s) = rstrip s.
Proof.
  induction s as [|c s IH]; [reflexivity|].
  cbn [rstrip]. destruct (rstrip s) as [|c' r] eqn:Er.
  - destruct (is_space c) eqn:Ec; [reflexivity|]. cbn [rstrip]. rewrite Ec. reflexivity.
  - cbn [rstrip] in IH |- *. rewrite IH. reflexivity.
Qed.

Lemma strip_idem (s : string) : strip (strip s) = strip s.
Proof.
  unfold strip.
  assert (H : lstrip (rstrip (lstrip s)) = rstrip (lstrip s)).
  { destruct (lstrip_shape s) as [->|(c & r & -> & Hc)]; [reflexivity|].
    cbn [rstrip]. destruct (rstrip r); [rewrite Hc|]; apply lstrip_head, Hc. }
  rewrite H. apply rstrip_idem.
Qed.
End BlankFacts.

Section MarkerText.
Import Str TimeModel.

Lemma marker_text_at (sp1 ds sp2 sp3 z : string) :
  blank sp1 = true -> digits ds = true -> blank sp2 = true -> blank sp3 = true ->
  offset_marker_at (marker_text sp1 ds sp2 sp3 +:+ z) = Some (ds, z).
Proof.
  intros H1 Hds H2 H3. apply andb_true_iff in Hds as [Hd Hne].
  unfold marker_text, offset_marker_at. rewrite !append_assoc.
  cbn [String.append expect]. rewrite Ascii.eqb_refl. cbn [mbind option_bind].
  rewrite (skip_spaces_blank sp1 _ H1), skip_spaces_head by reflexivity.
  cbn [expect]. rewrite Ascii.eqb_refl. cbn [mbind option_bind].
  rewrite span_digits_app;
    [|exact Hd|apply blank_not_digit_head; [exact H2|reflexivity]].
  rewrite Hne.
  rewrite (skip_spaces_blank sp2 _ H2), skip_spaces_head by reflexivity.
  cbn [expect]. rewrite Ascii.eqb_refl. cbn [mbind option_bind].
  rewrite (skip_spaces_blank sp3 _ H3), skip_spaces_head by reflexivity.
  cbn [expect]. rewrite Ascii.eqb_refl. reflexivity.
Qed.

Lemma offset_group_inv (r off r' : string) :
  RailNetwork.offset_group_at r = Some (off, r') ->
  exists sp0 sp1 ds sp2 sp3,
    blank sp0 = true /\ blank sp1 = true /\ digits ds = true
    /\ blank sp2 = true /\ blank sp3 = true
    /\ off = sp0 +:+ marker_text sp1 ds sp2 sp3
    /\ r = off +:+ r'.
Proof.
  unfold RailNetwork.offset_group_at.
  destruct (span_spaces_spec r) as (B0 & E0 & _).
  destruct (RailNetwork.span_spaces r) as [sp0 s0]. cbn [fst snd] in B0, E0.
  destruct (expect "(" s0) as [s1|] eqn:X1; [|discriminate]. cbn [mbind option_bind].
  apply expect_inv in X1.
  destruct (span_spaces_spec s1) as (B1 & E1 & _).
  destruct (RailNetwork.span_spaces s1) as [sp1 s1']. cbn [fst snd] in B1, E1.
  destruct (expect "+" s1') as [s2|] eqn:X2; [|discriminate]. cbn [mbind option_bind].
  apply expect_inv in X2.
  destruct (span_digits_spec s2) as (D & E2).
  destruct (span_digits s2) as [ds s3]. cbn [fst snd] in D, E2.
  destruct (nonempty ds) eqn:Hne; [|discriminate].
  destruct (span_spaces_spec s3) as (B2 & E3 & _).
  destruct (RailNetwork.span_spaces s3) as [sp2 s3']. cbn [fst snd] in B2, E3.
  destruct (expect "d" s3') as [s4|] eqn:X4; [|discriminate]. cbn [mbind option_bind].
  apply expect_inv in X4.
  destruct (span_spaces_spec s4) as (B3 & E4 & _).
  destruct (RailNetwork.span_spaces s4) as [sp3 s4']. cbn [fst snd] in B3, E4.
  destruct (expect ")" s4') as [s5|] eqn:X5; [|discriminate]. cbn [mbind option_bind].
  apply expect_inv in X5. intros [= <- <-].
  exists sp0, sp1, ds, sp2, sp3.
  split; [exact B0|]. split; [exact B1|].
  split; [unfold digits; rewrite D, Hne; reflexivity|].
  split; [exact B2|]. split; [exact B3|]. split; [reflexivity|].
  rewrite E0, X1, E1, X2, E2, E3, X4, E4, X5. unfold marker_text.
  repeat first [rewrite append_assoc | progress cbn [String.append]]. reflexivity.
Qed.

Lemma sub_fuel_no_paren (z : string) :
  no_paren z = true -> forall fuel, sub_offset_markers_fuel fuel z = z.
Proof.
  unfold no_paren. induction z as [|c z IH]; intros Hz fuel.
  - destruct fuel; reflexivity.
  - rewrite all_chars_cons in Hz. apply andb_true_iff in Hz as [Hc Hz].
    apply negb_true_iff in Hc. destruct fuel; [reflexivity|].
    cbn [sub_offset_markers_fuel]. rewrite (offset_marker_at_other _ _ Hc).
    rewrite (IH Hz). reflexivity.
Qed.

Lemma marker_text_length (sp1 ds sp2 sp3 : string) :
  (0 < String.length (marker_text sp1 ds sp2 sp3))%nat.
Proof. unfold marker_text. cbn. lia. Qed.

(** A text with one marker: blanks-free of parentheses before and after. *)
Lemma search_one_marker (y mk z ds : string) :
  no_paren y = true -> (0 < String.length mk)%nat ->
  offset_marker_at (mk +:+ z) = Some (ds, z) ->
  search_offset_marker (y +:+ mk +:+ z) = Some ds.
Proof.
  unfold no_paren. intros Hy Hlen Hm. induction y as [|c y IH].
  - cbn [String.append]. destruct mk as [|c mk]; [cbn in Hlen; lia|].
    cbn [String.append] in Hm |- *. cbn [search_offset_marker]. rewrite Hm. reflexivity.
  - rewrite all_chars_cons in Hy. apply andb_true_iff in Hy as [Hc Hy].
    apply negb_true_iff in Hc. cbn [String.append search_offset_marker].
    rewrite (offset_marker_at_other _ _ Hc). auto.
Qed.

Lemma string_length_app (a b : string) :
  String.length (a +:+ b) = (String.length a + String.length b)%nat.
Proof. induction a as [|c a IH]; [reflexivity|]. cbn. rewrite IH. reflexivity. Qed.

Lemma sub_one_marker (y mk z ds : string) :
  no_paren y = true -> no_paren z = true -> (0 < String.length mk)%nat ->
  offset_marker_at (mk +:+ z) = Some (ds, z) ->
  sub_offset_markers (y +:+ mk +:+ z) = y +:+ z.
Proof.
  intros Hy Hz Hlen Hm. unfold sub_offset_markers.
  assert (Hgen : forall fuel, (String.length y < fuel)%nat ->
             sub_offset_markers_fuel fuel (y +:+ mk +:+ z) = y +:+ z).
  { unfold no_paren in Hy. induction y as [|c y IH]; intros fuel Hf.
    - destruct fuel; [cbn in Hf; lia|]. cbn [String.append].
      destruct mk as [|c mk]; [cbn in Hlen; lia|].
      cbn [String.append] in Hm |- *. cbn [sub_offset_markers_fuel]. rewrite Hm.
      apply sub_fuel_no_paren, Hz.
    - rewrite all_chars_cons in Hy. apply andb_true_iff in Hy as [Hc Hy].
      apply negb_true_iff in Hc. destruct fuel; [cbn in Hf; lia|].
      cbn [String.append sub_offset_markers_fuel].
      rewrite (offset_marker_at_other _ _ Hc).
      rewrite (IH Hy) by (cbn in Hf; lia). reflexivity. }
  apply Hgen. rewrite !string_length_app. lia.
Qed.

Lemma digits_no_paren (ds : string) : all_chars is_digit ds = true -> no_paren ds = true.
Proof.
  unfold no_paren. induction ds as [|c ds IH]; [reflexivity|].
  rewrite !all_chars_cons. intros H. apply andb_true_iff in H as [Hc Hds].
  rewrite (IH Hds), andb_true_r. apply negb_true_iff.
  apply (digit_not_char c "("); [reflexivity|exact Hc].
Qed.

Lemma no_paren_app (a b : string) : no_paren (a +:+ b) = no_paren a && no_paren b.
Proof. apply all_chars_app. Qed.
End MarkerText.

Section MarkerRelation.
Import Str TimeModel.

Lemma offset_marker_at_inv (s ds rest : string) :
  offset_marker_at s = Some (ds, rest) -> starts_with_marker s ds rest.
Proof.
  unfold offset_marker_at.
  destruct (expect "(" s) as [s1|] eqn:X1; [|discriminate]. cbn [mbind option_bind].
  apply expect_inv in X1.
  destruct (skip_spaces_split s1) as (sp1 & B1 & E1).
  destruct (expect "+" (skip_spaces s1)) as [s2|] eqn:X2; [|discriminate].
  cbn [mbind option_bind]. apply expect_inv in X2.
  destruct (span_digits_spec s2) as (D & E2).
  destruct (span_digits s2) as [ds0 s3]. cbn [fst snd] in D, E2.
  destruct (nonempty ds0) eqn:Hne; [|discriminate].
  destruct (skip_spaces_split s3) as (sp2 & B2 & E3).
  destruct (expect "d" (skip_spaces s3)) as [s4|] eqn:X4; [|discriminate].
  cbn [mbind option_bind]. apply expect_inv in X4.
  destruct (skip_spaces_split s4) as (sp3 & B3 & E4).
  destruct (expect ")" (skip_spaces s4)) as [s5|] eqn:X5; [|discriminate].
  cbn [mbind option_bind]. apply expect_inv in X5. intros [= <- <-].
  exists sp1, sp2, sp3.
  split; [exact B1|]. split; [unfold digits; rewrite D, Hne; reflexivity|].
  split; [exact B2|]. split; [exact B3|].
  rewrite X1, E1, X2, E2, E3, X4, E4, X5. unfold marker_text.
  repeat first [rewrite append_assoc | progress cbn [String.append]]. reflexivity.
Qed.

Lemma starts_with_marker_at (s ds rest : string) :
  starts_with_marker s ds rest -> offset_marker_at s = Some (ds, rest).
Proof.
  intros (sp1 & sp2 & sp3 & B1 & D & B2 & B3 & ->). apply marker_text_at; assumption.
Qed.

Lemma starts_with_marker_shorter (s ds rest : string) :
  starts_with_marker s ds rest -> (String.length rest < String.length s)%nat.
Proof.
  intros (sp1 & sp2 & sp3 & _ & _ & _ & _ & ->).
  rewrite string_length_app. pose proof (marker_text_length sp1 ds sp2 sp3). lia.
Qed.

(** [re.sub] and [re.search] compute the relation: the text that is left,
    and the number of the leftmost marker. *)
Lemma sub_fuel_without_markers (fuel : nat) :
  forall s : string,
    (String.length s <= fuel)%nat ->
    exists ns : list string,
      without_markers s ns (sub_offset_markers_fuel fuel s)
      /\ search_offset_marker s = head ns.
Proof.
  induction fuel as [|fuel IH]; intros s Hlen.
  - destruct s as [|c s]; [|cbn in Hlen; lia].
    exists []. split; [constructor|reflexivity].
  - cbn [sub_offset_markers_fuel].
    destruct (offset_marker_at s) as [[ds rest]|] eqn:Em.
    + pose proof (offset_marker_at_inv _ _ _ Em) as Hm.
      pose proof (starts_with_marker_shorter _ _ _ Hm) as Hlt.
      destruct (IH rest ltac:(lia)) as (ns & Hwm & _).
      exists (ds :: ns). split; [exact (wm_marker _ _ _ _ _ Hm Hwm)|].
      destruct s; cbn [search_offset_marker]; rewrite Em; reflexivity.
    + destruct s as [|c s].
      * exists []. split; [constructor|reflexivity].
      * destruct (IH s ltac:(cbn in Hlen; lia)) as (ns & Hwm & Hs).
        exists ns. split.
        -- apply wm_char; [|exact Hwm].
           intros ds rest Hm. apply starts_with_marker_at in Hm. congruence.
        -- cbn [search_offset_marker]. rewrite Em. exact Hs.
Qed.

Lemma without_markers_total (s : string) :
  exists ns : list string,
    without_markers s ns (sub_offset_markers s) /\ search_offset_marker s = head ns.
Proof. apply sub_fuel_without_markers. reflexivity. Qed.

Lemma without_markers_unique (s : string) (ns : list string) (r : string) :
  without_markers s ns r ->
  forall ns' r', without_markers s ns' r' -> ns' = ns /\ r' = r.
Proof.
  induction 1 as [|s ds rest ns r Hm _ IH|c s ns r Hno _ IH]; intros ns' r' H2.
  - inversion H2 as [|s0 ds0 rest0 ns0 r0 Hm0 _|]; subst; [auto|].
    apply starts_with_marker_at in Hm0. discriminate Hm0.
  - apply starts_with_marker_at in Hm.
    inversion H2 as [|s0 ds0 rest0 ns0 r0 Hm0 Hw0|c0 s0 ns0 r0 Hno0 Hw0]; subst.
    + discriminate Hm.
    + apply starts_with_marker_at in Hm0. rewrite Hm in Hm0.
      injection Hm0 as <- <-. destruct (IH _ _ Hw0) as [-> ->]. auto.
    + exfalso. apply offset_marker_at_inv in Hm. exact (Hno0 _ _ Hm).
  - inversion H2 as [|s0 ds0 rest0 ns0 r0 Hm0 Hw0|c0 s0 ns0 r0 Hno0 Hw0]; subst.
    + exfalso. exact (Hno _ _ Hm0).
    + destruct (IH _ _ Hw0) as [-> ->]. auto.
Qed.

Lemma without_markers_none (s r : string) : without_markers s [] r -> r = s.
Proof.
  intros H. remember [] as ns eqn:E.
  induction H as [|s ds rest ns r Hm _ IH|c s ns r Hno _ IH];
    [reflexivity|discriminate|]. rewrite (IH E). reflexivity.
Qed.

(** The clock text and the day offset of [parse_time_to_minutes], read off
    the relation. *)
Lemma clock_of_without_markers (t : string) (ns : list string) (r : string) :
  without_markers (strip t) ns r ->
  findall_digits (clock_text t) = findall_digits r
  /\ day_offset_of t = first_offset ns.
Proof.
  intros Hwm.
  destruct (without_markers_total (strip t)) as (ns0 & Hwm0 & Hs).
  destruct (without_markers_unique _ _ _ Hwm _ _ Hwm0) as [-> Hr].
  unfold clock_text, day_offset_of. rewrite Hs.
  destruct ns as [|n ns]; cbn [head first_offset].
  - rewrite (without_markers_none _ _ Hwm), strip_tokens. auto.
  - rewrite Hr, strip_tokens. auto.
Qed.
End MarkerRelation.

(** C8, as stated, fails in one direction: a text that is only a day-offset
    marker holds a numeric token and is still rejected. *)
Lemma parse_time_marker_only_raises :
  TimeModel.parse_time_to_minutes (Some "(+1d)")
    = Raise (TimeModel.UnrecognizedTimeFormat "(+1d)")
  /\ TimeModel.findall_digits "(+1d)" = ["1"]
  /\ ~ (forall t : string,
          is_ok (TimeModel.parse_time_to_minutes (Some t)) = false
          <-> TimeModel.findall_digits t = []).
Proof.
  split; [reflexivity|]. split; [reflexivity|].
  intros H. destruct (H "(+1d)") as [H1 _].
  specialize (H1 eq_refl). discriminate H1.
Qed.

(** C8, amended.  Let [t] be a time text of at most 4300 characters, so that
    every [int()] conversion stays below CPython's limit of digits.  Reading
    the stripped text from the left and taking a day-offset marker wherever
    one starts gives, in exactly one way, the numbers [ns] of the markers
    and the text [r] that is left without them.  [parse_time_to_minutes]
    reads the hour and the minute as the first one or two numeric tokens of
    [r] (the strict [H] / [H:MM] pattern and the fallback agree on them),
    takes the number of the leftmost marker as the day offset, and returns
    [hour*60 + minute + day_offset*1440], not reduced modulo one day.  It
    raises the malformed-time error exactly when [r] holds no digit: a digit
    inside a marker does not count, and "(+1d)" is rejected.  [None] raises
    its own error. *)
Theorem parse_time_to_minutes_spec (t : string) :
  ((String.length t <= 4300)%nat ->
   exists (ns : list string) (r : string),
     without_markers (Str.strip t) ns r
     /\ (forall ns' r', without_markers (Str.strip t) ns' r' -> ns' = ns /\ r' = r)
     /\ TimeModel.parse_time_to_minutes (Some t)
        = match minutes_of_tokens (TimeModel.findall_digits r) (first_offset ns) with
          | Some v => Ok v
          | None => Raise (TimeModel.UnrecognizedTimeFormat t)
          end
     /\ (is_ok (TimeModel.parse_time_to_minutes (Some t)) = false
         <-> Str.any_char Str.is_digit r = false))
  /\ without_markers "08 (+1d)" ["1"] "08 "
  /\ TimeModel.parse_time_to_minutes None = Raise TimeModel.TimeIsNone
  /\ TimeModel.parse_time_to_minutes (Some "(+1d)")
     = Raise (TimeModel.UnrecognizedTimeFormat "(+1d)")
  /\ TimeModel.parse_time_to_minutes (Some "08 (+1d)") = Ok 1920
  /\ TimeModel.parse_time_to_minutes (Some "23:30 (+2d)") = Ok 4290
  /\ TimeModel.parse_time_to_minutes (Some "(+1d)(+2d) 7") = Ok 1860
  /\ TimeModel.parse_time_to_minutes (Some "9 ( +3 d )") = Ok 4860
  /\ TimeModel.parse_time_to_minutes (Some "9 ( + 3 d )") = Ok 543
  /\ TimeModel.parse_time_to_minutes (Some " 8h30 ") = Ok 510
  /\ TimeModel.parse_time_to_minutes (Some "08") = Ok 480.
Proof.
  split; [|split; [|repeat split]].
  2:{ do 3 (apply wm_char;
              [intros ds rest Hm; apply starts_with_marker_at in Hm; discriminate Hm|]).
      apply (wm_marker "(+1d)" "1" "" [] ""); [|constructor].
      exists "", "", "". repeat split. }
  intros _.
  destruct (without_markers_total (Str.strip t)) as (ns & Hwm & _).
  exists ns, (TimeModel.sub_offset_markers (Str.strip t)).
  destruct (clock_of_without_markers t _ _ Hwm) as [Htok Hoff].
  split; [exact Hwm|]. split; [apply (without_markers_unique _ _ _ Hwm)|].
  split.
  - rewrite parse_time_tokens, Htok, Hoff. reflexivity.
  - rewrite parse_time_raises_iff, <- !findall_nil_iff, Htok. reflexivity.
Qed.

Lemma parse_time_to_minutes_spec_witness :
  (String.length "08 (+1d)" <= 4300)%nat
  /\ exists (ns : list string) (r : string),
       without_markers (Str.strip "08 (+1d)") ns r
       /\ (forall ns' r',
             without_markers (Str.strip "08 (+1d)") ns' r' -> ns' = ns /\ r' = r)
       /\ TimeModel.parse_time_to_minutes (Some "08 (+1d)")
          = match minutes_of_tokens (TimeModel.findall_digits r) (first_offset ns) with
            | Some v => Ok v
            | None => Raise (TimeModel.UnrecognizedTimeFormat "08 (+1d)")
            end
       /\ (is_ok (TimeModel.parse_time_to_minutes (Some "08 (+1d)")) = false
           <-> Str.any_char Str.is_digit r = false).
Proof.
  assert (H : (String.length "08 (+1d)" <= 4300)%nat) by (cbn [String.length]; lia).
  split; [exact H|].
  exact (proj1 (parse_time_to_minutes_spec "08 (+1d)") H).
Defined.


Section NormTime.
Import Str TimeModel.

Lemma digit_val_range (c : ascii) : is_digit c = true -> 0 <= digit_val c <= 9.
Proof.
  unfold is_digit, digit_val. intros H. apply andb_true_iff in H as [H1 H2].
  apply N.leb_le in H1, H2. lia.
Qed.

Lemma digits_1_2_inv (s h r : string) :
  digits_1_2 s = Some (h, r) ->
  s = h +:+ r /\ digits h = true /\ 0 <= int_of_digits h <= 99.
Proof.
  unfold digits_1_2, digits, int_of_digits.
  destruct s as [|a [|b s2]]; [discriminate| |].
  - destruct (is_digit a) eqn:Ea; [|discriminate]. intros [= <- <-].
    pose proof (digit_val_range a Ea).
    split; [reflexivity|]. split; [cbn; rewrite Ea; reflexivity|cbn; lia].
  - destruct (is_digit a) eqn:Ea; [|discriminate].
    pose proof (digit_val_range a Ea).
    destruct (is_digit b) eqn:Eb; intros [= <- <-].
    + pose proof (digit_val_range b Eb).
      split; [reflexivity|]. split; [cbn; rewrite Ea, Eb; reflexivity|cbn; lia].
    + split; [reflexivity|]. split; [cbn; rewrite Ea; reflexivity|cbn; lia].
Qed.

Lemma format_02d_table :
  forallb (fun n => digits (format_02d (Z.of_nat n))
                    && (int_of_digits (format_02d (Z.of_nat n)) =? Z.of_nat n))
          (seq 0 100) = true.
Proof. vm_compute. reflexivity. Qed.

Lemma format_02d_digits (n : Z) :
  0 <= n <= 99 ->
  digits (format_02d n) = true /\ int_of_digits (format_02d n) = n.
Proof.
  intros Hn. pose proof format_02d_table as Ht. rewrite forallb_forall in Ht.
  specialize (Ht (Z.to_nat n)). rewrite Z2Nat.id in Ht by lia.
  assert (Hin : In (Z.to_nat n) (seq 0 100)) by (apply in_seq; lia).
  apply Ht, andb_true_iff in Hin as [Hd Hv]. apply Z.eqb_eq in Hv. auto.
Qed.

Lemma match_norm_tail_inv (r off : string) :
  RailNetwork.match_norm_tail r = Some off ->
  (off = "" /\ blank r = true)
  \/ exists r', RailNetwork.offset_group_at r = Some (off, r') /\ blank r' = true.
Proof.
  unfold RailNetwork.match_norm_tail.
  assert (Hplain : (if nonempty (skip_spaces r) then None else Some "") = Some off ->
                   off = "" /\ blank r = true).
  { destruct (nonempty (skip_spaces r)) eqn:E; [discriminate|].
    intros [= <-]. split; [reflexivity|apply skip_spaces_nil, E]. }
  destruct (RailNetwork.offset_group_at r) as [[off' r']|]; [|auto].
  destruct (nonempty (skip_spaces r')) eqn:E; [auto|].
  intros [= <-]. right. exists r'. split; [reflexivity|apply skip_spaces_nil, E].
Qed.

Lemma match_norm_inv (s h off : string) (om : option string) :
  RailNetwork.match_norm s = Some (h, om, off) ->
  exists sp r,
    blank sp = true /\ digits h = true /\ 0 <= int_of_digits h <= 99
    /\ (forall m, om = Some m -> digits m = true /\ 0 <= int_of_digits m <= 99)
    /\ s = sp +:+ clock_part h om +:+ r
    /\ RailNetwork.match_norm_tail r = Some off.
Proof.
  unfold RailNetwork.match_norm.
  destruct (skip_spaces_split s) as (sp & Hsp & Hs).
  destruct (digits_1_2 (skip_spaces s)) as [[h0 r]|] eqn:Eh; [|discriminate].
  apply digits_1_2_inv in Eh as (Er & Hd & Hb).
  assert (Hwithout :
    match RailNetwork.match_norm_tail r with
    | Some off0 => Some (h0, None, off0)
    | None => None
    end = Some (h, om, off) ->
    exists sp r,
      blank sp = true /\ digits h = true /\ 0 <= int_of_digits h <= 99
      /\ (forall m, om = Some m -> digits m = true /\ 0 <= int_of_digits m <= 99)
      /\ s = sp +:+ clock_part h om +:+ r
      /\ RailNetwork.match_norm_tail r = Some off).
  { destruct (RailNetwork.match_norm_tail r) as [off0|] eqn:Et; [|discriminate].
    intros [= <- <- <-]. exists sp, r.
    split; [exact Hsp|]. split; [exact Hd|]. split; [exact Hb|].
    split; [discriminate|]. split; [|exact Et].
    unfold clock_part. rewrite append_nil_r, <- Er. exact Hs. }
  destruct (expect ":" r) as [r1|] eqn:Ec; [|exact Hwithout].
  destruct (digits_1_2 r1) as [[m r2]|] eqn:Em; [|exact Hwithout].
  destruct (RailNetwork.match_norm_tail r2) as [off0|] eqn:Et; [|exact Hwithout].
  intros [= <- <- <-]. apply expect_inv in Ec.
  apply digits_1_2_inv in Em as (Er1 & Hdm & Hbm).
  exists sp, r2. split; [exact Hsp|]. split; [exact Hd|]. split; [exact Hb|].
  split; [intros ? [= <-]; auto|]. split; [|exact Et].
  unfold clock_part. rewrite Hs at 1. rewrite Er, Ec, Er1.
  repeat first [rewrite append_assoc | progress cbn [String.append]]. reflexivity.
Qed.

Lemma clock_part_no_paren (h : string) (om : option string) :
  digits h = true -> (forall m, om = Some m -> digits m = true) ->
  no_paren (clock_part h om) = true.
Proof.
  intros Hh Hm. apply andb_true_iff in Hh as [Hh _].
  unfold clock_part. rewrite no_paren_app, (digits_no_paren h Hh).
  destruct om as [m|]; [|reflexivity].
  pose proof (Hm m eq_refl) as Hx. apply andb_true_iff in Hx as [Hd _].
  rewrite no_paren_app, (digits_no_paren m Hd). reflexivity.
Qed.

Lemma blank_no_digit_head (z : string) : blank z = true -> starts_with_digit z = false.
Proof.
  intros H. pose proof (blank_not_digit_head z "" H eq_refl) as K.
  rewrite append_nil_r in K. exact K.
Qed.

Lemma clock_part_tokens (h : string) (om : option string) (z : string) :
  digits h = true -> (forall m, om = Some m -> digits m = true) ->
  blank z = true ->
  findall_digits (clock_part h om +:+ z)
  = h :: match om with Some m => [m] | None => [] end.
Proof.
  intros Hh Hm Hz. apply andb_true_iff in Hh as [Hh Hne].
  unfold clock_part. rewrite append_assoc.
  destruct om as [m|].
  - pose proof (Hm m eq_refl) as Hx. apply andb_true_iff in Hx as [Hd Hnm].
    rewrite findall_app_digits; [|exact Hh|exact Hne|reflexivity].
    rewrite append_assoc. cbn [String.append].
    rewrite findall_cons_nondigit by reflexivity.
    rewrite findall_app_digits;
      [|exact Hd|exact Hnm|apply blank_no_digit_head, Hz].
    rewrite (findall_blank_nil z Hz). reflexivity.
  - cbn [String.append].
    rewrite findall_app_digits;
      [|exact Hh|exact Hne|apply blank_no_digit_head, Hz].
    rewrite (findall_blank_nil z Hz). reflexivity.
Qed.

(** The value of a text whose stripped form is blanks, a clock, blanks. *)
Lemma parse_plain_shape (t sp h z : string) (om : option string) :
  strip t = sp +:+ clock_part h om +:+ z ->
  blank sp = true -> digits h = true -> (forall m, om = Some m -> digits m = true) ->
  blank z = true ->
  parse_time_to_minutes (Some t) = Ok (int_of_digits h * 60 + minute_of om).
Proof.
  intros Hs Hsp Hh Hm Hz. rewrite parse_time_tokens.
  unfold clock_text, day_offset_of. rewrite Hs.
  rewrite search_no_paren.
  2:{ rewrite !no_paren_app, (blank_no_paren sp Hsp), (blank_no_paren z Hz),
        (clock_part_no_paren h om Hh Hm). reflexivity. }
  rewrite findall_blank by exact Hsp.
  rewrite (clock_part_tokens h om z Hh Hm Hz).
  destruct om; cbn [minutes_of_tokens minute_of]; f_equal; lia.
Qed.

(** The value of a text whose stripped form is blanks, a clock, blanks, a
    marker, blanks. *)
Lemma parse_marked_shape (t sp h sp0 sp1 ds sp2 sp3 z : string) (om : option string) :
  strip t = sp +:+ clock_part h om +:+ (sp0 +:+ marker_text sp1 ds sp2 sp3) +:+ z ->
  blank sp = true -> digits h = true -> (forall m, om = Some m -> digits m = true) ->
  blank sp0 = true -> blank sp1 = true -> digits ds = true -> blank sp2 = true ->
  blank sp3 = true -> blank z = true ->
  parse_time_to_minutes (Some t)
  = Ok (int_of_digits h * 60 + minute_of om + int_of_digits ds * 1440).
Proof.
  intros Hs Hsp Hh Hm H0 H1 Hds H2 H3 Hz. rewrite parse_time_tokens.
  unfold clock_text, day_offset_of. rewrite Hs.
  set (y := sp +:+ clock_part h om +:+ sp0).
  assert (Hy : no_paren y = true).
  { unfold y. rewrite !no_paren_app, (blank_no_paren sp Hsp), (blank_no_paren sp0 H0),
      (clock_part_no_paren h om Hh Hm). reflexivity. }
  assert (Hshape : sp +:+ clock_part h om +:+ (sp0 +:+ marker_text sp1 ds sp2 sp3) +:+ z
                   = y +:+ marker_text sp1 ds sp2 sp3 +:+ z).
  { unfold y. rewrite !append_assoc. reflexivity. }
  rewrite Hshape.
  pose proof (marker_text_at sp1 ds sp2 sp3 z H1 Hds H2 H3) as Hat.
  rewrite (search_one_marker y _ z ds Hy (marker_text_length _ _ _ _) Hat).
  rewrite (sub_one_marker y _ z ds Hy (blank_no_paren z Hz)
             (marker_text_length _ _ _ _) Hat).
  rewrite strip_tokens. unfold y. rewrite !append_assoc.
  rewrite findall_blank by exact Hsp.
  rewrite (clock_part_tokens h om (sp0 +:+ z) Hh Hm)
    by (rewrite blank_app, H0, Hz; reflexivity).
  destruct om; cbn [minutes_of_tokens minute_of]; f_equal; lia.
Qed.
End NormTime.

Section NormTimeResult.
Import Str TimeModel.

Lemma strip_edges (c : ascii) (w : string) :
  is_space c = false -> strip (String c (w +:+ ")")) = String c (w +:+ ")").
Proof.
  intros Hc. unfold strip. rewrite (lstrip_head c _ Hc).
  change (String c (w +:+ ")")) with (String c w +:+ ")").
  apply rstrip_keep; reflexivity.
Qed.

Lemma strip_clock_marked (hh mm sp0 sp1 ds sp2 sp3 : string) :
  digits hh = true ->
  strip (hh +:+ ":" +:+ mm +:+ sp0 +:+ marker_text sp1 ds sp2 sp3)
  = hh +:+ ":" +:+ mm +:+ sp0 +:+ marker_text sp1 ds sp2 sp3.
Proof.
  intros Hh. apply andb_true_iff in Hh as [Hd Hne].
  destruct hh as [|c hh]; [discriminate|].
  rewrite all_chars_cons in Hd. apply andb_true_iff in Hd as [Hc _].
  apply digit_not_space in Hc.
  assert (E : String c hh +:+ ":" +:+ mm +:+ sp0 +:+ marker_text sp1 ds sp2 sp3
              = String c ((hh +:+ ":" +:+ mm +:+ sp0 +:+ "(" +:+ sp1 +:+ "+" +:+ ds
                           +:+ sp2 +:+ "d" +:+ sp3) +:+ ")")).
  { unfold marker_text.
    repeat first [rewrite append_assoc | progress cbn [String.append]]. reflexivity. }
  rewrite E. apply strip_edges, Hc.
Qed.

Lemma norm_time_matched (x h off : string) (om : option string) :
  RailNetwork.match_norm (strip x) = Some (h, om, off) ->
  exists v,
    parse_time_to_minutes (Some x) = Ok v
    /\ parse_time_to_minutes
         (Some (format_02d (int_of_digits h) +:+ ":"
                +:+ format_02d (int_of_digits (match om with Some m => m | None => "00" end))
                +:+ off)) = Ok v.
Proof.
  intros Em. apply match_norm_inv in Em as (sp & r & Hsp & Hh & Hbh & Hm & Hs & Ht).
  set (mm := match om with Some m => m | None => "00" end).
  assert (Hmm : 0 <= int_of_digits mm <= 99 /\ int_of_digits mm = minute_of om).
  { unfold mm, minute_of.
    destruct om as [m|];
      [|change (int_of_digits "00") with 0; split; [lia|reflexivity]].
    destruct (Hm m eq_refl) as [_ Hb]. auto. }
  destruct Hmm as [Hbm Hvm].
  destruct (format_02d_digits _ Hbh) as [Hdh Hvh].
  destruct (format_02d_digits _ Hbm) as [Hdm Hvmm].
  assert (Hom : forall m, om = Some m -> digits m = true)
    by (intros m E; apply (Hm m E)).
  assert (Hnew : forall m, Some (format_02d (int_of_digits mm)) = Some m -> digits m = true)
    by (intros m [= <-]; exact Hdm).
  apply match_norm_tail_inv in Ht as [[-> Hr]|(r' & Hg & Hr')].
  - exists (int_of_digits h * 60 + minute_of om). split.
    + exact (parse_plain_shape x sp h r om Hs Hsp Hh Hom Hr).
    + rewrite (parse_plain_shape _ "" (format_02d (int_of_digits h)) ""
                 (Some (format_02d (int_of_digits mm)))); try reflexivity; try assumption.
      * cbn [minute_of]. rewrite Hvh, Hvmm, Hvm. reflexivity.
      * unfold clock_part. cbn [String.append]. rewrite !append_nil_r.
        apply andb_true_iff in Hdh as [Hdh1 Hdh2]. apply andb_true_iff in Hdm as [Hdm1 _].
        exact (proj1 (clock_of_strip _ _ Hdh1 Hdh2 Hdm1)).
  - apply offset_group_inv in Hg
      as (sp0 & sp1 & ds & sp2 & sp3 & H0 & H1 & Hds & H2 & H3 & -> & ->).
    exists (int_of_digits h * 60 + minute_of om + int_of_digits ds * 1440). split.
    + apply (parse_marked_shape x sp h sp0 sp1 ds sp2 sp3 r' om); assumption.
    + rewrite (parse_marked_shape _ "" (format_02d (int_of_digits h)) sp0 sp1 ds sp2 sp3 ""
                 (Some (format_02d (int_of_digits mm)))); try reflexivity; try assumption.
      * cbn [minute_of]. rewrite Hvh, Hvmm, Hvm. reflexivity.
      * rewrite (strip_clock_marked _ _ _ _ _ _ _ Hdh).
        unfold clock_part. cbn [String.append]. rewrite !append_nil_r, !append_assoc.
        reflexivity.
Qed.

Lemma parse_strip (x : string) (v : Z) :
  parse_time_to_minutes (Some (strip x)) = Ok v <-> parse_time_to_minutes (Some x) = Ok v.
Proof.
  rewrite !parse_time_tokens. unfold clock_text, day_offset_of. rewrite strip_idem.
  destruct (minutes_of_tokens _ _); split; intros H; try discriminate; exact H.
Qed.
End NormTimeResult.

(** X30.  The normalisation that [from_csv] applies to the two time
    columns never changes the time that is read: for every cell text,
    [parse_time_to_minutes] returns a value for the normalised text exactly
    when it returns that value for the text itself; a missing cell becomes
    the empty text. *)
Theorem norm_time_keeps_the_time (x : string) (v : Z) :
  RailNetwork.norm_time None = ""
  /\ (TimeModel.parse_time_to_minutes (Some (RailNetwork.norm_time (Some x))) = Ok v
      <-> TimeModel.parse_time_to_minutes (Some x) = Ok v).
Proof.
  split; [reflexivity|]. unfold RailNetwork.norm_time.
  destruct (RailNetwork.match_norm (Str.strip x)) as [[[h om] off]|] eqn:Em.
  - destruct (norm_time_matched x h off om Em) as (v' & Hx & Hn).
    rewrite Hx, Hn. reflexivity.
  - apply parse_strip.
Qed.
